(** * Discord TV Guide Bot: mode orchestrator, voting and download queue

    A shallow embedding of the stateful core of [bot.js]: the vote
    collectors of the [!custom], [!skip] and [!browse] polls, the skip-vote
    bypass and streak, the mode transitions ([!custom], [!ptv], [!toggle]),
    the sequential YouTube download queue with its cancellation commands,
    the sub-folder sanitiser and the scheduled-event renaming helper.

    JavaScript values are modelled as follows.
    - A JS string that carries user text (event names, folder names, window
      titles) is the list of its UTF-16 code units, [list N]; [substring]
      and [length] count code units, as in JS.  Identifiers that the bot
      itself chooses (button ids) and Discord snowflakes are [string]s.
    - Module-level [let] variables of [bot.js] are the fields of [Bot].
    - Every awaited call into Discord, the file system, yt-dlp or an
      AutoHotkey script is an input of the handler that performs it (its
      outcome is chosen by the caller of the model) and leaves an [Effect]
      in the handler's output, in program order. *)

From Stdlib Require Import ZArith String Ascii List Bool Lia.
From stdpp Require Import base decidable list gmap sets strings sorting.

(* ===================================================================== *)
(** * JavaScript strings as UTF-16 code units                             *)
(* ===================================================================== *)

Abbreviation jsstring := (list N).

(** An ASCII literal of the source, as code units. *)
Definition lit (s : string) : jsstring :=
  (fun a => N_of_ascii a) <$> list_ascii_of_string s.
Arguments lit s%_string : simpl never.

(** White space as [String.prototype.trim] and the regex class [\s] see it:
    TAB, LF, VT, FF, CR, SPACE, NBSP, U+1680, U+2000..U+200A, U+2028,
    U+2029, U+202F, U+205F, U+3000 and U+FEFF. *)
Definition is_js_space (c : N) : bool :=
  ((9 <=? c) && (c <=? 13) || (c =? 32) || (c =? 160) || (c =? 5760)
   || (8192 <=? c) && (c <=? 8202) || (c =? 8232) || (c =? 8233)
   || (c =? 8239) || (c =? 8287) || (c =? 12288) || (c =? 65279))%N.

Fixpoint drop_while {A} (p : A -> bool) (l : list A) : list A :=
  match l with
  | [] => []
  | x :: r => if p x then drop_while p r else l
  end.

Definition drop_while_end {A} (p : A -> bool) (l : list A) : list A :=
  rev (drop_while p (rev l)).

(** [s.trim()] *)
Definition js_trim (s : jsstring) : jsstring :=
  drop_while_end is_js_space (drop_while is_js_space s).

(** [s.substring(0, n)] *)
Definition substring0 (n : nat) (s : jsstring) : jsstring := take n s.

(* ===================================================================== *)
(** * Consensus votes: the button collectors of the three polls           *)
(* ===================================================================== *)

Module Vote.

(** The three polls of the bot.  Each one declares its own
    [yesVotes], [noVotes] and [votedUsers] and its own collector. *)
Inductive Kind := ModeSwitch | SkipItem | FilePlay.

(** [customId] of the 'yes' button of each poll; any other button of the
    poll message counts as 'no' ([else noVotes++]). *)
Definition yesButton (k : Kind) : string :=
  match k with
  | ModeSwitch => "custom_poll_yes"%string
  | SkipItem => "skip_poll_yes"%string
  | FilePlay => "browse_select_poll_yes"%string
  end.

Definition noButton (k : Kind) : string :=
  match k with
  | ModeSwitch => "custom_poll_no"%string
  | SkipItem => "skip_poll_no"%string
  | FilePlay => "browse_select_poll_no"%string
  end.

(** A button interaction delivered to the collector.  [deferUpdate_ok] is
    the outcome of the awaited [i.deferUpdate()], the first statement of
    the handler: when it rejects, the handler stops there. *)
Record Interaction := {
  user_id : string;
  customId : string;
  deferUpdate_ok : bool
}.

(** [let yesVotes = 0; let noVotes = 0; const votedUsers = new Set();] *)
Record Poll := {
  yesVotes : nat;
  noVotes : nat;
  votedUsers : gset string
}.

Definition newPoll : Poll :=
  {| yesVotes := 0; noVotes := 0; votedUsers := ∅ |}.

(** The ['collect'] handler:
    [await i.deferUpdate(); if (votedUsers.has(i.user.id)) return;
     votedUsers.add(i.user.id);
     if (i.customId === '<yes id>') yesVotes++; else noVotes++;]
    (the message edit that follows does not touch the tallies). *)
Definition collect (k : Kind) (p : Poll) (i : Interaction) : Poll :=
  if negb (deferUpdate_ok i) then p
  else if decide (user_id i ∈ votedUsers p) then p
  else
    let voted := {[ user_id i ]} ∪ votedUsers p in
    if String.eqb (customId i) (yesButton k)
    then {| yesVotes := S (yesVotes p); noVotes := noVotes p; votedUsers := voted |}
    else {| yesVotes := yesVotes p; noVotes := S (noVotes p); votedUsers := voted |}.

(** Ballots are applied in arrival order. *)
Definition collectAll (k : Kind) (bs : list Interaction) : Poll :=
  fold_left (collect k) bs newPoll.

(** The ballots that changed a tally, in arrival order (ghost). *)
Fixpoint counted (k : Kind) (p : Poll) (bs : list Interaction) : list Interaction :=
  match bs with
  | [] => []
  | i :: r =>
      if negb (deferUpdate_ok i) then counted k p r
      else if decide (user_id i ∈ votedUsers p) then counted k p r
      else i :: counted k (collect k p i) r
  end.

(** ['end'] handler: [let pollPassed = yesVotes > noVotes;] *)
Definition pollPassed (p : Poll) : bool := (noVotes p <? yesVotes p).

(** A ballot for "yes" in poll [k]. *)
Definition is_yes (k : Kind) (i : Interaction) : bool :=
  String.eqb (customId i) (yesButton k).

(** The tallies count the identities that voted. *)
Definition tally_ok (p : Poll) : Prop :=
  yesVotes p + noVotes p = size (votedUsers p).

End Vote.

(* ===================================================================== *)
(** * Collaborators and global state                                      *)
(* ===================================================================== *)

(** Node's [path] module, used by the bot through [path.basename],
    [path.extname] and [path.join].  It is platform dependent (the bot runs
    on Windows) and not part of the repository: an interface. *)
Class NodePath := {
  path_basename : jsstring -> jsstring;
  path_basename_ext : jsstring -> jsstring -> jsstring;
  path_extname : jsstring -> jsstring;
  path_join : jsstring -> jsstring -> jsstring
}.

(** The AutoHotkey scripts, named by the configuration variable that holds
    their path. *)
Inductive Script := CustomAhkPathTo | CustomAhkPathBack | SkipCustomAhkPath.

(** [GuildScheduledEventStatus] *)
Inductive EventStatus := Scheduled | Active | Completed | Canceled.

#[export] Instance EventStatus_eq_dec : EqDecision EventStatus.
Proof. solve_decision. Defined.

(** What the bot reads of a [GuildScheduledEvent] object. *)
Record GuildEvent := {
  ev_id : nat;
  ev_name : jsstring;
  ev_status : EventStatus;
  scheduledStartTimestamp : Z
}.

Definition set_ev_name (n : jsstring) (e : GuildEvent) : GuildEvent :=
  {| ev_id := ev_id e; ev_name := n; ev_status := ev_status e;
     scheduledStartTimestamp := scheduledStartTimestamp e |}.

Definition is_terminal (e : GuildEvent) : bool :=
  match ev_status e with Completed | Canceled => true | _ => false end.

(** [message.author] / [i.user] *)
Record User := {
  uid : string;
  tag : jsstring
}.

(** [YoutubeQueueItem]: [{ url, sourceChannel, user, subfolder }].  Every
    push creates a fresh object; [job_id] is that object's identity, the
    number of queue items created before it. *)
Record Job := {
  job_id : nat;
  url : jsstring;
  sourceChannel : option nat;
  user : User;
  subfolder : option jsstring
}.

(** The module-level [let] variables of [bot.js] that the modelled
    handlers read or write.  Timer ids and message objects are kept as
    'set or null'. *)
Record Bot := {
  isCustomModeActive : bool;
  consecutiveSkipVotes : nat;
  skipVoteCooldownEndTimestamp : Z;
  customModeTimerId : bool;
  vlcTitleCheckIntervalId : bool;
  stillWatchingPromptMessage : bool;
  managedGuildEvent : option GuildEvent;
  youtubeQueue : list Job;
  isYoutubeDownloadActive : bool;
  currentDownloadJob : option Job;
  currentAbortController : option nat
}.

(** The state of a freshly started process. *)
Definition initialBot : Bot :=
  {| isCustomModeActive := false; consecutiveSkipVotes := 0;
     skipVoteCooldownEndTimestamp := 0; customModeTimerId := false;
     vlcTitleCheckIntervalId := false; stillWatchingPromptMessage := false;
     managedGuildEvent := None; youtubeQueue := [];
     isYoutubeDownloadActive := false; currentDownloadJob := None;
     currentAbortController := None |}.

(** Assignments to the globals. *)
Definition set_isCustomModeActive (v : bool) (b : Bot) : Bot :=
  {| isCustomModeActive := v; consecutiveSkipVotes := consecutiveSkipVotes
     b; skipVoteCooldownEndTimestamp := skipVoteCooldownEndTimestamp b;
     customModeTimerId := customModeTimerId b; vlcTitleCheckIntervalId :=
     vlcTitleCheckIntervalId b; stillWatchingPromptMessage :=
     stillWatchingPromptMessage b; managedGuildEvent := managedGuildEvent b;
     youtubeQueue := youtubeQueue b; isYoutubeDownloadActive :=
     isYoutubeDownloadActive b; currentDownloadJob := currentDownloadJob b;
     currentAbortController := currentAbortController b |}.
Definition set_consecutiveSkipVotes (v : nat) (b : Bot) : Bot :=
  {| isCustomModeActive := isCustomModeActive b; consecutiveSkipVotes := v;
     skipVoteCooldownEndTimestamp := skipVoteCooldownEndTimestamp b;
     customModeTimerId := customModeTimerId b; vlcTitleCheckIntervalId :=
     vlcTitleCheckIntervalId b; stillWatchingPromptMessage :=
     stillWatchingPromptMessage b; managedGuildEvent := managedGuildEvent b;
     youtubeQueue := youtubeQueue b; isYoutubeDownloadActive :=
     isYoutubeDownloadActive b; currentDownloadJob := currentDownloadJob b;
     currentAbortController := currentAbortController b |}.
Definition set_skipVoteCooldownEndTimestamp (v : Z) (b : Bot) : Bot :=
  {| isCustomModeActive := isCustomModeActive b; consecutiveSkipVotes :=
     consecutiveSkipVotes b; skipVoteCooldownEndTimestamp := v;
     customModeTimerId := customModeTimerId b; vlcTitleCheckIntervalId :=
     vlcTitleCheckIntervalId b; stillWatchingPromptMessage :=
     stillWatchingPromptMessage b; managedGuildEvent := managedGuildEvent b;
     youtubeQueue := youtubeQueue b; isYoutubeDownloadActive :=
     isYoutubeDownloadActive b; currentDownloadJob := currentDownloadJob b;
     currentAbortController := currentAbortController b |}.
Definition set_customModeTimerId (v : bool) (b : Bot) : Bot :=
  {| isCustomModeActive := isCustomModeActive b; consecutiveSkipVotes :=
     consecutiveSkipVotes b; skipVoteCooldownEndTimestamp :=
     skipVoteCooldownEndTimestamp b; customModeTimerId := v;
     vlcTitleCheckIntervalId := vlcTitleCheckIntervalId b;
     stillWatchingPromptMessage := stillWatchingPromptMessage b;
     managedGuildEvent := managedGuildEvent b; youtubeQueue := youtubeQueue b;
     isYoutubeDownloadActive := isYoutubeDownloadActive b; currentDownloadJob
     := currentDownloadJob b; currentAbortController := currentAbortController
     b |}.
Definition set_vlcTitleCheckIntervalId (v : bool) (b : Bot) : Bot :=
  {| isCustomModeActive := isCustomModeActive b; consecutiveSkipVotes :=
     consecutiveSkipVotes b; skipVoteCooldownEndTimestamp :=
     skipVoteCooldownEndTimestamp b; customModeTimerId := customModeTimerId b;
     vlcTitleCheckIntervalId := v; stillWatchingPromptMessage :=
     stillWatchingPromptMessage b; managedGuildEvent := managedGuildEvent b;
     youtubeQueue := youtubeQueue b; isYoutubeDownloadActive :=
     isYoutubeDownloadActive b; currentDownloadJob := currentDownloadJob b;
     currentAbortController := currentAbortController b |}.
Definition set_stillWatchingPromptMessage (v : bool) (b : Bot) : Bot :=
  {| isCustomModeActive := isCustomModeActive b; consecutiveSkipVotes :=
     consecutiveSkipVotes b; skipVoteCooldownEndTimestamp :=
     skipVoteCooldownEndTimestamp b; customModeTimerId := customModeTimerId b;
     vlcTitleCheckIntervalId := vlcTitleCheckIntervalId b;
     stillWatchingPromptMessage := v; managedGuildEvent := managedGuildEvent b;
     youtubeQueue := youtubeQueue b; isYoutubeDownloadActive :=
     isYoutubeDownloadActive b; currentDownloadJob := currentDownloadJob b;
     currentAbortController := currentAbortController b |}.
Definition set_managedGuildEvent (v : option GuildEvent) (b : Bot) : Bot :=
  {| isCustomModeActive := isCustomModeActive b; consecutiveSkipVotes :=
     consecutiveSkipVotes b; skipVoteCooldownEndTimestamp :=
     skipVoteCooldownEndTimestamp b; customModeTimerId := customModeTimerId b;
     vlcTitleCheckIntervalId := vlcTitleCheckIntervalId b;
     stillWatchingPromptMessage := stillWatchingPromptMessage b;
     managedGuildEvent := v; youtubeQueue := youtubeQueue b;
     isYoutubeDownloadActive := isYoutubeDownloadActive b; currentDownloadJob
     := currentDownloadJob b; currentAbortController := currentAbortController
     b |}.
Definition set_youtubeQueue (v : list Job) (b : Bot) : Bot :=
  {| isCustomModeActive := isCustomModeActive b; consecutiveSkipVotes :=
     consecutiveSkipVotes b; skipVoteCooldownEndTimestamp :=
     skipVoteCooldownEndTimestamp b; customModeTimerId := customModeTimerId b;
     vlcTitleCheckIntervalId := vlcTitleCheckIntervalId b;
     stillWatchingPromptMessage := stillWatchingPromptMessage b;
     managedGuildEvent := managedGuildEvent b; youtubeQueue := v;
     isYoutubeDownloadActive := isYoutubeDownloadActive b; currentDownloadJob
     := currentDownloadJob b; currentAbortController := currentAbortController
     b |}.
Definition set_isYoutubeDownloadActive (v : bool) (b : Bot) : Bot :=
  {| isCustomModeActive := isCustomModeActive b; consecutiveSkipVotes :=
     consecutiveSkipVotes b; skipVoteCooldownEndTimestamp :=
     skipVoteCooldownEndTimestamp b; customModeTimerId := customModeTimerId b;
     vlcTitleCheckIntervalId := vlcTitleCheckIntervalId b;
     stillWatchingPromptMessage := stillWatchingPromptMessage b;
     managedGuildEvent := managedGuildEvent b; youtubeQueue := youtubeQueue b;
     isYoutubeDownloadActive := v; currentDownloadJob := currentDownloadJob b;
     currentAbortController := currentAbortController b |}.
Definition set_currentDownloadJob (v : option Job) (b : Bot) : Bot :=
  {| isCustomModeActive := isCustomModeActive b; consecutiveSkipVotes :=
     consecutiveSkipVotes b; skipVoteCooldownEndTimestamp :=
     skipVoteCooldownEndTimestamp b; customModeTimerId := customModeTimerId b;
     vlcTitleCheckIntervalId := vlcTitleCheckIntervalId b;
     stillWatchingPromptMessage := stillWatchingPromptMessage b;
     managedGuildEvent := managedGuildEvent b; youtubeQueue := youtubeQueue b;
     isYoutubeDownloadActive := isYoutubeDownloadActive b; currentDownloadJob
     := v; currentAbortController := currentAbortController b |}.
Definition set_currentAbortController (v : option nat) (b : Bot) : Bot :=
  {| isCustomModeActive := isCustomModeActive b; consecutiveSkipVotes :=
     consecutiveSkipVotes b; skipVoteCooldownEndTimestamp :=
     skipVoteCooldownEndTimestamp b; customModeTimerId := customModeTimerId b;
     vlcTitleCheckIntervalId := vlcTitleCheckIntervalId b;
     stillWatchingPromptMessage := stillWatchingPromptMessage b;
     managedGuildEvent := managedGuildEvent b; youtubeQueue := youtubeQueue b;
     isYoutubeDownloadActive := isYoutubeDownloadActive b; currentDownloadJob
     := currentDownloadJob b; currentAbortController := v |}.

(** Configuration read once at start-up: [process.env] paths ('set or
    empty') and the channel objects fetched in the ready handler. *)
Record Config := {
  customAhkPathTo : bool;
  customAhkPathBack : bool;
  skipCustomAhkPath : bool;
  targetVoiceChannel : bool;
  videoDownloadFolder : option jsstring;
  ffmpegPath : bool
}.

(** The texts the modelled handlers send, one constructor per template of
    the source, with the interpolated values as arguments. *)
Inductive SubfolderNote :=
| SavingToSubfolder (name : jsstring)       (* 'Saving to subfolder: `name`' *)
| SubfolderNotFound (requested : jsstring). (* 'Subfolder 'requested' not found/invalid. Saving to main folder.' *)

Inductive Msg :=
(* !custom poll *)
| MsgPollPassedSwitching (y n : nat)
| MsgExecutingSwitch
| MsgCustomStarted
| MsgSwitchScriptFailed          (* 'Failed to execute the AHK script to switch to custom mode. Custom mode remains OFF.' *)
| MsgPollPassedScriptFailed (y n : nat)
| MsgPollFailedOrTied (y n : nat)
(* endCustomMode *)
| MsgCustomNotActive
| MsgAttemptSwitchBack
| MsgSwitchedBack
| MsgSwitchBackFailed            (* 'Failed to execute the AHK script to switch back. Custom mode remains active.' *)
(* !toggle *)
| MsgNoPermission
| MsgToggleNotConfigured
| MsgToggledTo                   (* 'Toggled TO Custom Channel mode (AHK Scripts NOT run)' *)
| MsgToggledFrom                 (* 'Toggled FROM Custom Channel mode back to Schedule (AHK Scripts NOT run)' *)
(* !skip *)
| MsgSkipOnlyCustom
| MsgSkipCooldown
| MsgSkipScriptMissing
| MsgSkipNoVoiceChannel
| MsgErrorCheckingVoice
| MsgBypass                      (* 'Only 2 users in voice chat. Bypassing poll and executing skip AHK script...' *)
| MsgBypassDone
| MsgBypassFailed
| MsgSkipPoll (durationMs : Z)
| MsgSkipPassed (y n : nat)
| MsgExecutingSkip
| MsgSkipDone
| MsgSkipScriptFailed
| MsgSkipPassedScriptFailed (y n : nat)
| MsgSkipNoVotes
| MsgSkipFailedOrTied (y n : nat)
(* !cancel, !cancelall *)
| MsgCancelOnlyCustom            (* 'Downloads can currently only be cancelled while in Custom Channel mode.' *)
| MsgDownloadsNotConfigured
| MsgCancelledActiveAndPending (n : nat)
| MsgCancelledActive
| MsgRemovedPending (n : nat)
| MsgNothingToCancel
| MsgCancelledAll (activeCancelled : bool) (n : nat)
(* download queue *)
| MsgFolderNotConfigured (j : Job)
| MsgDownloadStarting (j : Job) (note : option SubfolderNote)
| MsgDownloadSucceeded (j : Job)
| MsgDownloadCancelled (j : Job)
| MsgDownloadFailed (j : Job).

(** Calls that leave the process, in program order. *)
Inductive Effect :=
| RunAhkScript (s : Script)
| Reply (m : Msg)                 (* to the requester: [message.reply], [i.editReply], [i.followUp] *)
| Send (m : Msg)                  (* [channel.send] *)
| EditMessage (m : Msg)           (* edit of a message sent earlier *)
| DeletePrompt                    (* [stillWatchingPromptMessage.delete()] *)
| FetchVoiceChannel               (* [client.channels.fetch(targetVoiceChannelId)] *)
| QueryVlcTitle                   (* [getVlcTitle()] *)
| EventsFetchAll                  (* [guild.scheduledEvents.fetch()] *)
| EventCreate (name : jsstring)   (* [guild.scheduledEvents.create] *)
| EventFetch (id : nat)           (* [scheduledEvents.fetch(id)], [event.fetch(true)] *)
| EventEdit (id : nat) (name : jsstring)  (* [event.edit({ name })] *)
| EventSetStatusActive (id : nat) (* [event.setStatus(Active)] *)
| AbortSignal (controller : nat)  (* [currentAbortController.abort()] *)
| Stat (p : jsstring)             (* [fsp.stat] *)
| YtDlpGetFilename (j : Job) (dir : jsstring)
| YtDlpDownload (j : Job) (dir : jsstring).

(** The calls to the scheduled-event API of Discord. *)
Definition is_event_call (e : Effect) : bool :=
  match e with
  | EventsFetchAll | EventCreate _ | EventFetch _ | EventEdit _ _
  | EventSetStatusActive _ => true
  | _ => false
  end.

Definition is_script_run (e : Effect) : bool :=
  match e with RunAhkScript _ => true | _ => false end.

(* ===================================================================== *)
(** * The managed scheduled event                                         *)
(* ===================================================================== *)

Inductive ApiError :=
| UnknownScheduledEvent   (* code 10062 / 'Unknown Scheduled Event' *)
| OtherApiError.

(** An event as listed by [guild.scheduledEvents.fetch()]. *)
Record RemoteEvent := {
  creator_is_bot : bool;       (* [event.creatorId === botId] *)
  in_target_channel : bool;    (* [event.channelId === targetVoiceChannel.id] *)
  remote : GuildEvent
}.

(** Outcomes of the awaited calls of one run of [updateEventNameInternal]
    (and of the [findOrCreateManagedEvent] it may call), and the clock. *)
Record EventApi := {
  now : Z;                                   (* [Date.now()] *)
  guild_cached : bool;                       (* [client.guilds.cache.get(..)] is defined *)
  events_fetch : option (list RemoteEvent);  (* [None]: the call rejects *)
  found_setStatus_ok : bool;
  create_id : option nat;                    (* id of the created event; [None]: rejects *)
  created_setStatus_ok : bool;
  fetch_event : option GuildEvent;           (* [fetch(id, { force: true }).catch(() => null)] *)
  edit_error : option ApiError;
  setStatus_error : option ApiError;
  refetch : GuildEvent + ApiError            (* [currentEventState.fetch(true)] *)
}.

Definition customChannel : jsstring := lit "Custom Channel".
Definition customChannelPrefix : jsstring := lit "Custom Channel: ".
Definition streamStartingSoon : jsstring := lit "Stream Starting Soon".

Definition jseq (a b : jsstring) : bool := bool_decide (a = b).

Definition set_ev_status (s : EventStatus) (e : GuildEvent) : GuildEvent :=
  {| ev_id := ev_id e; ev_name := ev_name e; ev_status := s;
     scheduledStartTimestamp := scheduledStartTimestamp e |}.

Definition past_due (api : EventApi) (e : GuildEvent) : bool :=
  bool_decide (ev_status e = Scheduled) && (scheduledStartTimestamp e <? now api)%Z.

(** [findOrCreateManagedEvent(guild)], for a defined [guild].
    [currentShow] is [getCurrentShowTitle()]. *)
Definition findOrCreateManagedEvent (cfg : Config) (currentShow : option jsstring)
    (api : EventApi) (b : Bot) : option GuildEvent * list Effect :=
  if negb (targetVoiceChannel cfg) then (None, [])
  else
    match events_fetch api with
    | None => (None, [EventsFetchAll])
    | Some events =>
        match List.find (fun r => creator_is_bot r && in_target_channel r
                                  && negb (is_terminal (remote r))) events with
        | Some r =>
            let found := remote r in
            if past_due api found
            then if found_setStatus_ok api
                 then (Some (set_ev_status Active found),
                       [EventsFetchAll; EventSetStatusActive (ev_id found)])
                 else (Some found, [EventsFetchAll; EventSetStatusActive (ev_id found)])
            else (Some found, [EventsFetchAll])
        | None =>
            let initialName :=
              if isCustomModeActive b then customChannel
              else match currentShow with
                   | Some t => if bool_decide (t = []) then streamStartingSoon else t
                   | None => streamStartingSoon
                   end in
            let name := substring0 100 initialName in
            match create_id api with
            | None => (None, [EventsFetchAll; EventCreate name])
            | Some id =>
                let newEvent := {| ev_id := id; ev_name := name; ev_status := Scheduled;
                                   scheduledStartTimestamp := now api + 5000 |} in
                (Some (if created_setStatus_ok api then set_ev_status Active newEvent
                       else newEvent),
                 [EventsFetchAll; EventCreate name; EventSetStatusActive id])
            end
        end
    end.

(** The name [updateEventNameInternal] computes for [newName] ([None]: a
    value that is not a string), or [None] where the function returns
    [false] for an invalid name.  [cached] is the name of the handle. *)
Definition finalName (custom : bool) (cached : jsstring) (newName : option jsstring)
    : option jsstring :=
  let invalid :=
    match newName with
    | None => true
    | Some n => bool_decide (n = []) || bool_decide (js_trim n = [])
    end in
  let nameToSet :=
    if invalid
    then if custom && negb (jseq cached customChannel) then Some customChannel else None
    else newName in
  match nameToSet with
  | None => None
  | Some n =>
      let n' := if custom && negb (jseq n customChannel)
                then customChannelPrefix ++ n else n in
      Some (substring0 100 (js_trim n'))
  end.

(** [updateEventNameInternal(newName)].  The object returned by a forced
    fetch is the cached event object of discord.js, which a successful
    [edit] patches in place: the handle then carries the new name. *)
Definition updateEventNameInternal (cfg : Config) (currentShow : option jsstring)
    (api : EventApi) (newName : option jsstring) (b : Bot)
    : bool * Bot * list Effect :=
  if negb (targetVoiceChannel cfg) then (false, b, [])
  else
    (* re-acquire a missing or terminal handle *)
    let reacquired : option (GuildEvent * Bot * list Effect) + (Bot * list Effect) :=
      match managedGuildEvent b with
      | Some e =>
          if is_terminal e
          then if guild_cached api
               then let '(r, fx) := findOrCreateManagedEvent cfg currentShow api b in
                    match r with
                    | Some e' => inl (Some (e', set_managedGuildEvent (Some e') b, fx))
                    | None => inr (set_managedGuildEvent None b, fx)
                    end
               else inr (b, [])
          else inl (Some (e, b, []))
      | None =>
          if guild_cached api
          then let '(r, fx) := findOrCreateManagedEvent cfg currentShow api b in
               match r with
               | Some e' => inl (Some (e', set_managedGuildEvent (Some e') b, fx))
               | None => inr (set_managedGuildEvent None b, fx)
               end
          else inr (b, [])
      end in
    match reacquired with
    | inr (b1, fx) => (false, b1, fx)
    | inl None => (false, b, [])
    | inl (Some (e, b1, fx1)) =>
        match finalName (isCustomModeActive b1) (ev_name e) newName with
        | None => (false, b1, fx1)
        | Some final =>
            (* fetch the latest state only if the name differs *)
            let fetched : option (GuildEvent * Bot * list Effect) :=
              if negb (jseq (ev_name e) final)
              then if guild_cached api
                   then match fetch_event api with
                        | Some f => Some (f, set_managedGuildEvent (Some f) b1,
                                          fx1 ++ [EventFetch (ev_id e)])
                        | None => None
                        end
                   else None
              else Some (e, b1, fx1) in
            match fetched with
            | None =>
                (false, set_managedGuildEvent None b1,
                 fx1 ++ (if guild_cached api then [EventFetch (ev_id e)] else []))
            | Some (cur, b2, fx2) =>
                if is_terminal cur then (false, set_managedGuildEvent None b2, fx2)
                else
                  (* edit the name if it differs *)
                  let edited : (GuildEvent * Bot * list Effect) + (Bot * list Effect) :=
                    if negb (jseq (ev_name cur) final)
                    then match edit_error api with
                         | None =>
                             let cur' := set_ev_name final cur in
                             inl (cur', set_managedGuildEvent (Some cur') b2,
                                  fx2 ++ [EventEdit (ev_id cur) final])
                         | Some UnknownScheduledEvent =>
                             inr (set_managedGuildEvent None b2,
                                  fx2 ++ [EventEdit (ev_id cur) final])
                         | Some OtherApiError =>
                             inr (b2, fx2 ++ [EventEdit (ev_id cur) final])
                         end
                    else inl (cur, b2, fx2) in
                  match edited with
                  | inr (b3, fx3) => (false, b3, fx3)
                  | inl (cur3, b3, fx3) =>
                      (* activate an event that is still Scheduled past its start *)
                      if past_due api cur3
                      then match setStatus_error api with
                           | Some UnknownScheduledEvent =>
                               (false, set_managedGuildEvent None b3,
                                fx3 ++ [EventSetStatusActive (ev_id cur3)])
                           | Some OtherApiError =>
                               (false, b3, fx3 ++ [EventSetStatusActive (ev_id cur3)])
                           | None =>
                               match refetch api with
                               | inl r =>
                                   (true, set_managedGuildEvent (Some r) b3,
                                    fx3 ++ [EventSetStatusActive (ev_id cur3);
                                            EventFetch (ev_id cur3)])
                               | inr UnknownScheduledEvent =>
                                   (false, set_managedGuildEvent None b3,
                                    fx3 ++ [EventSetStatusActive (ev_id cur3);
                                            EventFetch (ev_id cur3)])
                               | inr OtherApiError =>
                                   (false, b3,
                                    fx3 ++ [EventSetStatusActive (ev_id cur3);
                                            EventFetch (ev_id cur3)])
                               end
                           end
                      else (true, b3, fx3)
                  end
            end
        end
    end.

(** [stopVlcTitleCheckInterval()] *)
Definition stopVlcTitleCheckInterval (b : Bot) : Bot :=
  if vlcTitleCheckIntervalId b then set_vlcTitleCheckIntervalId false b else b.

(** [startVlcTitleCheckInterval()]: the interval is (re)armed only in
    custom mode with a target voice channel. *)
Definition startVlcTitleCheckInterval (cfg : Config) (b : Bot) : Bot :=
  let b1 := if vlcTitleCheckIntervalId b then set_vlcTitleCheckIntervalId false b else b in
  if isCustomModeActive b1 && targetVoiceChannel cfg
  then set_vlcTitleCheckIntervalId true b1
  else b1.

(** [startCustomModeTimer(channel)] for a valid channel: the synchronous
    part, which arms the two timers. *)
Definition startCustomModeTimer (cfg : Config) (b : Bot) : Bot :=
  set_customModeTimerId true (startVlcTitleCheckInterval cfg b).

(** [checkAndUpdateVlcEventTitle()].  [vlcTitle] is the outcome of
    [getVlcTitle()], [fetched] that of the unforced
    [scheduledEvents.fetch(id).catch(() => null)]. *)
Definition checkAndUpdateVlcEventTitle `{NodePath} (cfg : Config)
    (currentShow : option jsstring) (vlcTitle : option jsstring) (fetched : option GuildEvent) (api : EventApi)
    (b : Bot) : Bot * list Effect :=
  match managedGuildEvent b with
  | None => (b, [])
  | Some e =>
      if negb (isCustomModeActive b) || negb (targetVoiceChannel cfg) then (b, [])
      else
        let finalTitleForEvent :=
          match vlcTitle with
          | Some raw =>
              if bool_decide (raw = []) then customChannel
              else js_trim (path_basename_ext raw (path_extname raw))
          | None => customChannel
          end in
        let potentialEventName :=
          if negb (jseq finalTitleForEvent customChannel)
          then customChannelPrefix ++ finalTitleForEvent else customChannel in
        let finalPotentialName := substring0 100 potentialEventName in
        if jseq (ev_name e) finalPotentialName then (b, [QueryVlcTitle])
        else
          match (if guild_cached api then fetched else None) with
          | None =>
              (set_managedGuildEvent None (stopVlcTitleCheckInterval b),
               QueryVlcTitle :: (if guild_cached api then [EventFetch (ev_id e)] else []))
          | Some cur =>
              if is_terminal cur
              then (set_managedGuildEvent None (stopVlcTitleCheckInterval b),
                    [QueryVlcTitle; EventFetch (ev_id e)])
              else
                let '(_, b', fx) :=
                  updateEventNameInternal cfg currentShow api (Some finalTitleForEvent)
                    (set_managedGuildEvent (Some cur) b) in
                (b', [QueryVlcTitle; EventFetch (ev_id e)] ++ fx)
          end
  end.

(* ===================================================================== *)
(** * Mode transitions                                                    *)
(* ===================================================================== *)

(** Outcomes of the awaited calls of the ['end'] handler of the [!custom]
    poll. *)
Record PollEndEnv := {
  pe_editable : bool;        (* [finalPollMessage?.editable] *)
  pe_statusSend_ok : bool;   (* [channel.send('Executing AHK script to switch...')] *)
  pe_script_ok : bool;       (* [runAhkScript(customAhkPathTo, ..)] resolves *)
  pe_api : EventApi;
  pe_report_ok : bool        (* the edit or send of the success text resolves *)
}.

Definition edit_if (editable : bool) (m : Msg) : list Effect :=
  if editable then [EditMessage m] else [].

(** The ['end'] handler of the mode-switch poll ([!custom] and the
    [remote_custom] button).  Returns the final [pollPassed]. *)
Definition customPollEnd (cfg : Config) (currentShow : option jsstring)
    (env : PollEndEnv) (p : Vote.Poll) (b : Bot) : bool * Bot * list Effect :=
  let y := Vote.yesVotes p in
  let n := Vote.noVotes p in
  if Vote.pollPassed p then
    let fx0 := edit_if (pe_editable env) (MsgPollPassedSwitching y n) in
    let failed (b' : Bot) (fx : list Effect) :=
      (false, b',
       fx ++ [Send MsgSwitchScriptFailed]
          ++ edit_if (pe_editable env) (MsgPollPassedScriptFailed y n)) in
    if negb (pe_statusSend_ok env) then failed b (fx0 ++ [Send MsgExecutingSwitch])
    else if negb (pe_script_ok env)
    then failed b (fx0 ++ [Send MsgExecutingSwitch; RunAhkScript CustomAhkPathTo])
    else
      let b1 := set_consecutiveSkipVotes 0 (set_isCustomModeActive true b) in
      let '(b2, fx2) :=
        if targetVoiceChannel cfg
        then let '(_, b', fx) :=
               updateEventNameInternal cfg currentShow (pe_api env) (Some customChannel) b1 in
             (b', fx)
        else (b1, []) in
      let b3 := startCustomModeTimer cfg b2 in
      let fx3 := fx0 ++ [Send MsgExecutingSwitch; RunAhkScript CustomAhkPathTo] ++ fx2 in
      if pe_report_ok env then (true, b3, fx3 ++ [Send MsgCustomStarted])
      else failed b3 (fx3 ++ [Send MsgCustomStarted])
  else
    (false, b, edit_if (pe_editable env) (MsgPollFailedOrTied y n)).

(** Who called [endCustomMode]: an interaction (its feedback helper
    catches its own errors), a command message or a bare channel (their
    [reply] / [send] can reject). *)
Inductive Initiator := FromInteraction | FromMessage | FromChannel.

Definition feedback (i : Initiator) (m : Msg) : Effect :=
  match i with
  | FromInteraction | FromMessage => Reply m
  | FromChannel => Send m
  end.

Record EndEnv := {
  ee_status_ok : bool;    (* the 'Attempting to switch back' feedback resolves *)
  ee_script_ok : bool;    (* [runAhkScript(customAhkPathBack, ..)] resolves *)
  ee_api : EventApi
}.

Definition starts_with (p s : jsstring) : bool :=
  bool_decide (take (length p) s = p).

(** [endCustomMode(initiatingObject, reason)] *)
Definition endCustomMode (cfg : Config) (currentShow : option jsstring)
    (who : Initiator) (env : EndEnv) (b : Bot) : bool * Bot * list Effect :=
  (* cleanup of timers, interval and prompt *)
  let b0 := stopVlcTitleCheckInterval (set_customModeTimerId false b) in
  let fx0 := if stillWatchingPromptMessage b0 then [DeletePrompt] else [] in
  let b1 := set_stillWatchingPromptMessage false b0 in
  if negb (isCustomModeActive b1)
  then (false, b1, fx0 ++ [feedback who MsgCustomNotActive])
  else
    let status_throws :=
      match who with FromInteraction => false | _ => negb (ee_status_ok env) end in
    if status_throws
    then (false, b1,
          fx0 ++ [feedback who MsgAttemptSwitchBack; feedback who MsgSwitchBackFailed])
    else if negb (ee_script_ok env)
    then (false, b1,
          fx0 ++ [feedback who MsgAttemptSwitchBack; RunAhkScript CustomAhkPathBack;
                  feedback who MsgSwitchBackFailed])
    else
      let b2 := set_consecutiveSkipVotes 0 (set_isCustomModeActive false b1) in
      let fx2 := fx0 ++ [feedback who MsgAttemptSwitchBack; RunAhkScript CustomAhkPathBack;
                         feedback who MsgSwitchedBack] in
      let show_ok := match currentShow with
                     | Some t => negb (bool_decide (t = []))
                     | None => false
                     end in
      if show_ok && targetVoiceChannel cfg
      then let '(_, b3, fx3) :=
             updateEventNameInternal cfg currentShow (ee_api env) currentShow b2 in
           (true, b3, fx2 ++ fx3)
      else
        let stale := match managedGuildEvent b2 with
                     | Some e => starts_with customChannel (ev_name e)
                     | None => false
                     end in
        if targetVoiceChannel cfg && stale
        then let '(_, b3, fx3) :=
               updateEventNameInternal cfg currentShow (ee_api env)
                 (Some streamStartingSoon) b2 in
             (true, b3, fx2 ++ fx3)
        else (true, b2, fx2).

(** The [!toggle] command (and the [remote_toggle] button, which differs
    only in staying silent for a non-admin). *)
Definition toggle (cfg : Config) (currentShow : option jsstring)
    (userIsAdmin : bool) (api : EventApi) (b : Bot) : Bot * list Effect :=
  if negb userIsAdmin then (b, [Reply MsgNoPermission])
  else if negb (customAhkPathTo cfg) || negb (customAhkPathBack cfg)
          || negb (targetVoiceChannel cfg)
  then (b, [Reply MsgToggleNotConfigured])
  else
    let newState := negb (isCustomModeActive b) in
    let b1 := set_isCustomModeActive newState b in
    if isCustomModeActive b1 then
      let b2 := startCustomModeTimer cfg b1 in
      let '(_, b3, fx3) :=
        updateEventNameInternal cfg currentShow api (Some customChannel) b2 in
      (set_consecutiveSkipVotes 0 b3, fx3 ++ [Reply MsgToggledTo])
    else
      let b2 := stopVlcTitleCheckInterval (set_customModeTimerId false b1) in
      let fx2 := if stillWatchingPromptMessage b2 then [DeletePrompt] else [] in
      let b2' := set_stillWatchingPromptMessage false b2 in
      let show_ok := match currentShow with
                     | Some t => negb (bool_decide (t = []))
                     | None => false
                     end in
      let '(_, b3, fx3) :=
        updateEventNameInternal cfg currentShow api
          (if show_ok then currentShow else Some streamStartingSoon) b2' in
      (set_consecutiveSkipVotes 0 b3, fx2 ++ fx3 ++ [Reply MsgToggledFrom]).

(* ===================================================================== *)
(** * Skipping the current item                                           *)
(* ===================================================================== *)

Definition SKIP_POLL_TIMEOUT_MS : Z := 30 * 1000.
Definition SKIP_VOTE_COOLDOWN_MS : Z := 60 * 1000.
Definition MIN_SKIP_POLL_DURATION_MS : Z := 5000.
Definition SKIP_POLL_DECREMENT_MS : Z := 5000.

(** [Math.max(MIN_SKIP_POLL_DURATION_MS,
              SKIP_POLL_TIMEOUT_MS - (consecutiveSkipVotes * SKIP_POLL_DECREMENT_MS))] *)
Definition currentSkipPollTimeoutMs (consecutive : nat) : Z :=
  Z.max MIN_SKIP_POLL_DURATION_MS
        (SKIP_POLL_TIMEOUT_MS - Z.of_nat consecutive * SKIP_POLL_DECREMENT_MS).

(** A member of the voice channel. *)
Record Member := {
  member_id : string;
  is_bot : bool          (* [m.user.bot] *)
}.

(** Outcome of [client.channels.fetch(targetVoiceChannelId)]. *)
Inductive ChannelFetch :=
| FetchRejects
| NotGuildVoice
| GuildVoice (members : list Member).

(** [currentVoiceChannel.members.filter(m => !m.user.bot)] *)
Definition humanMembers (ms : list Member) : list Member :=
  List.filter (fun m => negb (is_bot m)) ms.

Record SkipEnv := {
  sk_now : Z;               (* [const now = Date.now()] *)
  sk_script_exists : bool;  (* [fs.existsSync(skipCustomAhkPath)] *)
  sk_channel : ChannelFetch;
  sk_script_ok : bool;      (* the skip script resolves (bypass) *)
  sk_later : Z;             (* [Date.now()] after the script *)
  sk_pollSend_ok : bool     (* the poll message is sent *)
}.

Inductive SkipOutcome :=
| SkipRefused
| SkipBypassed (scriptOk : bool)
| SkipPollStarted (timeoutMs : Z)   (* a collector with this [time] is created *)
| SkipPollNotSent.

(** The part of [!skip] from 'Start Skip Poll' on. *)
Definition startSkipPoll (env : SkipEnv) (fx : list Effect) (b : Bot)
    : SkipOutcome * Bot * list Effect :=
  let b1 := set_skipVoteCooldownEndTimestamp (sk_now env + SKIP_VOTE_COOLDOWN_MS) b in
  let timeout := currentSkipPollTimeoutMs (consecutiveSkipVotes b1) in
  if sk_pollSend_ok env
  then (SkipPollStarted timeout, b1, fx ++ [Reply (MsgSkipPoll timeout)])
  else (SkipPollNotSent, set_skipVoteCooldownEndTimestamp 0 b1,
        fx ++ [Reply (MsgSkipPoll timeout)]).

(** The [!skip] command (the [remote_skipvote] button has the same guards,
    bypass test, duration and streak updates). *)
Definition skipCommand (cfg : Config) (env : SkipEnv) (b : Bot)
    : SkipOutcome * Bot * list Effect :=
  if negb (isCustomModeActive b) then (SkipRefused, b, [Reply MsgSkipOnlyCustom])
  else if (sk_now env <? skipVoteCooldownEndTimestamp b)%Z
  then (SkipRefused, b, [Reply MsgSkipCooldown])
  else if negb (skipCustomAhkPath cfg) || negb (sk_script_exists env)
  then (SkipRefused, b, [Reply MsgSkipScriptMissing])
  else if negb (targetVoiceChannel cfg)
  then (SkipRefused, b, [Reply MsgSkipNoVoiceChannel])
  else
    match sk_channel env with
    | GuildVoice ms =>
        if (length (humanMembers ms) =? 2)%nat then
          if sk_script_ok env
          then (SkipBypassed true,
                set_skipVoteCooldownEndTimestamp (sk_later env + SKIP_VOTE_COOLDOWN_MS)
                  (set_consecutiveSkipVotes (S (consecutiveSkipVotes b)) b),
                [FetchVoiceChannel; Reply MsgBypass; RunAhkScript SkipCustomAhkPath;
                 Send MsgBypassDone])
          else (SkipBypassed false,
                set_skipVoteCooldownEndTimestamp (sk_later env + SKIP_VOTE_COOLDOWN_MS) b,
                [FetchVoiceChannel; Reply MsgBypass; RunAhkScript SkipCustomAhkPath;
                 Reply MsgBypassFailed])
        else startSkipPoll env [FetchVoiceChannel] b
    | NotGuildVoice => startSkipPoll env [FetchVoiceChannel] b
    | FetchRejects =>
        startSkipPoll env [FetchVoiceChannel; Reply MsgErrorCheckingVoice] b
    end.

Record SkipEndEnv := {
  se_editable : bool;
  se_reason_time : bool;     (* [reason === 'time'] *)
  se_statusSend_ok : bool;
  se_script_ok : bool;
  se_report_ok : bool
}.

(** The ['end'] handler of the skip poll.  Returns the final
    [pollPassed]. *)
Definition skipPollEnd (env : SkipEndEnv) (p : Vote.Poll) (b : Bot)
    : bool * Bot * list Effect :=
  let y := Vote.yesVotes p in
  let n := Vote.noVotes p in
  if Vote.pollPassed p then
    let b1 := set_consecutiveSkipVotes (S (consecutiveSkipVotes b)) b in
    let fx0 := edit_if (se_editable env) (MsgSkipPassed y n) in
    let failed (fx : list Effect) :=
      (false, set_consecutiveSkipVotes 0 b1,
       fx ++ [Send MsgSkipScriptFailed]
          ++ edit_if (se_editable env) (MsgSkipPassedScriptFailed y n)) in
    if negb (se_statusSend_ok env) then failed (fx0 ++ [Send MsgExecutingSkip])
    else if negb (se_script_ok env)
    then failed (fx0 ++ [Send MsgExecutingSkip; RunAhkScript SkipCustomAhkPath])
    else
      let fx1 := fx0 ++ [Send MsgExecutingSkip; RunAhkScript SkipCustomAhkPath;
                         Send MsgSkipDone] in
      if se_report_ok env then (true, b1, fx1) else failed fx1
  else
    (false, set_consecutiveSkipVotes 0 b,
     edit_if (se_editable env)
       (if (y =? 0)%nat && (n =? 0)%nat && se_reason_time env
        then MsgSkipNoVotes else MsgSkipFailedOrTied y n)).

(* ===================================================================== *)
(** * Target sub-folder of a download                                     *)
(* ===================================================================== *)

Definition underscore : N := 95.
Definition dot : N := 46.

(** The character class of [INVALID_PATH_CHARS_REGEX]:
    the code units 0 to 31 and the characters < > : / \ | ? * and the
    double quote. *)
Definition invalid_path_char (c : N) : bool :=
  ((c <=? 31) || (c =? 60) || (c =? 62) || (c =? 58) || (c =? 34) || (c =? 47)
   || (c =? 92) || (c =? 124) || (c =? 63) || (c =? 42))%N.

(** [s.replace(INVALID_PATH_CHARS_REGEX, '_')] with
    [INVALID_PATH_CHARS_REGEX = /[class]|\.\.|\.$|^\./g]:
    scanning from the left, a character of the class, two dots, a dot that
    ends the string, or a dot that starts it, becomes one underscore.
    [at_start] tells whether the scan is at index 0. *)
Fixpoint replaceInvalid (at_start : bool) (s : jsstring) : jsstring :=
  match s with
  | [] => []
  | c :: r =>
      if invalid_path_char c then underscore :: replaceInvalid false r
      else if (c =? dot)%N then
        match r with
        | [] => [underscore]
        | d :: r' =>
            if (d =? dot)%N then underscore :: replaceInvalid false r'
            else if at_start then underscore :: replaceInvalid false r
            else c :: replaceInvalid false r
        end
      else c :: replaceInvalid false r
  end.

(** [s.replace(/\s+/g, '_')]: every maximal run of white space becomes one
    underscore.  [in_run] tells whether the previous character was white
    space. *)
Fixpoint replaceSpaces (in_run : bool) (s : jsstring) : jsstring :=
  match s with
  | [] => []
  | c :: r =>
      if is_js_space c
      then if in_run then replaceSpaces true r else underscore :: replaceSpaces true r
      else c :: replaceSpaces false r
  end.

Definition is_underscore (c : N) : bool := (c =? underscore)%N.

(** [s.replace(/^_+|_+$/g, '')] *)
Definition stripUnderscores (s : jsstring) : jsstring :=
  drop_while_end is_underscore (drop_while is_underscore s).

(** [sanitizeSubfolderName(name)] for a string [name]; [None] is [null]. *)
Definition sanitizeSubfolderName `{NodePath} (name : jsstring) : option jsstring :=
  if bool_decide (name = []) then None
  else
    let cleanName := path_basename name in
    let cleanName := replaceSpaces false (replaceInvalid true cleanName) in
    let cleanName := js_trim (stripUnderscores cleanName) in
    if bool_decide (cleanName = []) then None
    else Some (substring0 50 cleanName).





(** Outcome of [fsp.stat(potentialPath).catch(() => null)] followed by
    [stats.isDirectory()]. *)
Inductive StatResult := StatFails | StatNotDirectory | StatDirectory.

(** What 'Determine and Validate Subfolder' of [processYoutubeQueue]
    leaves in its local variables.  (The [catch] around that block, which
    would also fall back to the root with the warning, has nothing left to
    catch: the stat rejection is turned into [null] and the URL parsing
    has its own [try].) *)
Record SubfolderChoice := {
  finalDownloadPath : jsstring;
  subfolderUsedName : option jsstring;
  subfolderWarningSent : bool;
  subfolderEffects : list Effect
}.

Definition chooseSubfolder `{NodePath} (root : jsstring)
    (requestedSubfolder : option jsstring) (stat : StatResult) : SubfolderChoice :=
  let default := {| finalDownloadPath := root; subfolderUsedName := None;
                    subfolderWarningSent := false; subfolderEffects := [] |} in
  match requestedSubfolder with
  | None => default
  | Some requested =>
      if bool_decide (requested = []) then default
      else
        match sanitizeSubfolderName requested with
        | Some sanitized =>
            let potentialPath := path_join root sanitized in
            match stat with
            | StatDirectory =>
                {| finalDownloadPath := potentialPath;
                   subfolderUsedName := Some sanitized;
                   subfolderWarningSent := false;
                   subfolderEffects := [Stat potentialPath] |}
            | _ =>
                {| finalDownloadPath := root; subfolderUsedName := None;
                   subfolderWarningSent := true;
                   subfolderEffects := [Stat potentialPath] |}
            end
        | None =>
            {| finalDownloadPath := root; subfolderUsedName := None;
               subfolderWarningSent := true; subfolderEffects := [] |}
        end
  end.

(** The second line of [initialStatusText]. *)
Definition subfolderNote (requestedSubfolder : option jsstring) (c : SubfolderChoice)
    : option SubfolderNote :=
  match subfolderUsedName c with
  | Some used => Some (SavingToSubfolder used)
  | None =>
      match requestedSubfolder with
      | Some requested =>
          if subfolderWarningSent c && negb (bool_decide (requested = []))
          then Some (SubfolderNotFound requested) else None
      | None => None
      end
  end.

(** Outcomes of the awaited calls between taking a job and calling
    yt-dlp for the download. *)
Record PrepEnv := {
  prep_stat : StatResult;
  prep_dir_ready : bool    (* the target directory exists, or [mkdir] succeeds *)
}.

(** The calls [processYoutubeQueue] makes for job [j] from 'Determine and
    Validate Subfolder' up to the start of the download, and whether the
    download is started ([false]: the directory could not be created and
    the job fails). *)
Definition prepareDownload `{NodePath} (root : jsstring) (env : PrepEnv) (j : Job)
    : bool * list Effect :=
  let c := chooseSubfolder root (subfolder j) (prep_stat env) in
  let fx := subfolderEffects c
            ++ [YtDlpGetFilename j (finalDownloadPath c);
                Send (MsgDownloadStarting j (subfolderNote (subfolder j) c))] in
  if prep_dir_ready env
  then (true, fx ++ [YtDlpDownload j (finalDownloadPath c)])
  else (false, fx).

(* ===================================================================== *)
(** * The sequential download queue                                       *)
(* ===================================================================== *)

Definition PLAYLIST_VIDEO_LIMIT : nat := 50.

Inductive Terminal := Succeeded | Failed | Cancelled.

(** Where a run of [processYoutubeQueue] that took a job stands: before
    yt-dlp has settled, or after (in its success or [catch] branch, before
    its [finally]). *)
Inductive Phase := Downloading | Settled (t : Terminal).

(** A run of [processYoutubeQueue] that went past the two guards: the job
    it took and the [signal] it captured ([act_signal] is the address of
    its [AbortController]). *)
Record Activation := {
  act_job : Job;
  act_signal : nat;
  act_phase : Phase
}.

(** The process: the globals, the [AbortController] objects created so far
    (their [signal.aborted]), the runs of [processYoutubeQueue] in flight,
    the number of pending [setTimeout(processYoutubeQueue, ..)] callbacks,
    the number of queue items created, and two histories: the jobs taken
    off the queue, and the jobs that reached a terminal state. *)
Record World := {
  bot : Bot;
  controllers : list bool;
  activations : list Activation;
  queueChecks : nat;
  created : nat;
  started : list Job;
  finished : list (Job * Terminal)
}.

Definition initialWorld : World :=
  {| bot := initialBot; controllers := []; activations := []; queueChecks := 0;
     created := 0; started := []; finished := [] |}.

Definition set_bot (b : Bot) (w : World) : World :=
  {| bot := b; controllers := controllers w; activations := activations w;
     queueChecks := queueChecks w; created := created w; started := started w;
     finished := finished w |}.

(** Outcome of the preliminary [ytDlpExec(initialUrl, { print: 'url', .. })]:
    the distinct video URLs it printed, or an error. *)
Inductive PrelimResult :=
| PrelimUrls (extractedUrls : list jsstring)
| PrelimUnsupported     (* 'is not a valid URL' / 'Unsupported URL' *)
| PrelimOtherError.

(** A [!youtube] command. *)
Record YoutubeReq := {
  yt_user : User;
  yt_channel : nat;
  yt_url : jsstring;            (* [args[0]], empty when absent *)
  yt_url_valid : bool;          (* [new URL(initialUrl)] does not throw *)
  yt_explicit_playlist : bool;  (* [initialUrl.includes('list=')] *)
  yt_rest : jsstring;           (* [args.slice(1).join(' ')] *)
  yt_ffmpeg_exists : bool;
  yt_prelim : PrelimResult
}.

(** Fresh queue items for [urls], numbered from [next]. *)
Fixpoint mkJobs (next : nat) (r : YoutubeReq) (sub : option jsstring)
    (urls : list jsstring) : list Job :=
  match urls with
  | [] => []
  | x :: rest =>
      {| job_id := next; url := x; sourceChannel := Some (yt_channel r);
         user := yt_user r; subfolder := sub |} :: mkJobs (S next) r sub rest
  end.

(** [youtubeQueue.push(..)] for each url, then
    [setTimeout(processYoutubeQueue, 250)]. *)
Definition enqueue (r : YoutubeReq) (sub : option jsstring) (urls : list jsstring)
    (w : World) : World :=
  {| bot := set_youtubeQueue (youtubeQueue (bot w) ++ mkJobs (created w) r sub urls) (bot w);
     controllers := controllers w; activations := activations w;
     queueChecks := S (queueChecks w); created := created w + length urls;
     started := started w; finished := finished w |}.

(** The [!youtube] command, as far as the queue is concerned (its replies
    are left out). *)
Definition cmdYoutube (cfg : Config) (r : YoutubeReq) (w : World) : World :=
  match videoDownloadFolder cfg with
  | None => w
  | Some _ =>
      if negb (ffmpegPath cfg) || negb (yt_ffmpeg_exists r) then w
      else if bool_decide (yt_url r = []) || negb (yt_url_valid r) then w
      else
        let potentialSubfolder :=
          let t := js_trim (yt_rest r) in
          if bool_decide (t = []) then None else Some t in
        match yt_prelim r with
        | PrelimUrls extractedUrls =>
            if yt_explicit_playlist r && (0 <? length extractedUrls)
            then enqueue r potentialSubfolder (take PLAYLIST_VIDEO_LIMIT extractedUrls) w
            else enqueue r potentialSubfolder [yt_url r] w
        | PrelimUnsupported => w
        | PrelimOtherError => enqueue r potentialSubfolder [yt_url r] w
        end
  end.

(** A pending [setTimeout(processYoutubeQueue, ..)] fires:
    [processYoutubeQueue()] up to the point where it waits for yt-dlp.
    The lock, the job and the controller are set before the first [await];
    the awaited calls that follow (stat, file-name prediction, status
    message) read and write no global, so a command that arrives between
    them is the same command arriving right after this step. *)
Definition processYoutubeQueue `{NodePath} (cfg : Config) (prep : PrepEnv) (w : World)
    : World * list Effect :=
  match queueChecks w with
  | 0 => (w, [])
  | S pending =>
      let idle (b : Bot) :=
        {| bot := b; controllers := controllers w; activations := activations w;
           queueChecks := pending; created := created w; started := started w;
           finished := finished w |} in
      if isYoutubeDownloadActive (bot w) then (idle (bot w), [])
      else
        match youtubeQueue (bot w) with
        | [] => (idle (bot w), [])
        | j :: rest =>
            (* isYoutubeDownloadActive = true; currentDownloadJob = youtubeQueue.shift();
               currentAbortController = new AbortController() *)
            let c := length (controllers w) in
            let b1 := set_currentAbortController (Some c)
                        (set_currentDownloadJob (Some j)
                           (set_youtubeQueue rest
                              (set_isYoutubeDownloadActive true (bot w)))) in
            match videoDownloadFolder cfg with
            | None =>
                (* the lock is released at once and the job is dropped *)
                ({| bot := set_currentAbortController None
                             (set_currentDownloadJob None
                                (set_isYoutubeDownloadActive false b1));
                    controllers := controllers w ++ [false];
                    activations := activations w;
                    queueChecks := S pending; created := created w;
                    started := started w ++ [j];
                    finished := finished w ++ [(j, Failed)] |},
                 [Send (MsgFolderNotConfigured j)])
            | Some root =>
                let '(go, fx) := prepareDownload root prep j in
                ({| bot := b1;
                    controllers := controllers w ++ [false];
                    activations :=
                      activations w ++
                        [{| act_job := j; act_signal := c;
                            act_phase := if go then Downloading else Settled Failed |}];
                    queueChecks := pending; created := created w;
                    started := started w ++ [j];
                    finished := finished w |},
                 fx)
            end
        end
  end.

Definition aborted (w : World) (c : nat) : bool :=
  match controllers w !! c with Some f => f | None => false end.

Definition set_phase (p : Phase) (a : Activation) : Activation :=
  {| act_job := act_job a; act_signal := act_signal a; act_phase := p |}.

(** yt-dlp settles for the [k]-th run in flight: it resolved ([ok]) or
    rejected.  An aborted signal makes either outcome a cancellation. *)
Definition downloadReturns (k : nat) (ok : bool) (w : World) : World * list Effect :=
  match activations w !! k with
  | Some a =>
      match act_phase a with
      | Downloading =>
          let t := if aborted w (act_signal a) then Cancelled
                   else if ok then Succeeded else Failed in
          ({| bot := bot w; controllers := controllers w;
              activations := <[k := set_phase (Settled t) a]> (activations w);
              queueChecks := queueChecks w; created := created w;
              started := started w; finished := finished w |},
           [EditMessage (match t with
                         | Succeeded => MsgDownloadSucceeded (act_job a)
                         | Failed => MsgDownloadFailed (act_job a)
                         | Cancelled => MsgDownloadCancelled (act_job a)
                         end)])
      | Settled _ => (w, [])
      end
  | None => (w, [])
  end.

(** The [finally] block of the [k]-th run in flight: the lock is released
    and [setTimeout(processYoutubeQueue, 500)] is called. *)
Definition jobFinally (k : nat) (w : World) : World * list Effect :=
  match activations w !! k with
  | Some a =>
      match act_phase a with
      | Settled t =>
          ({| bot := set_currentAbortController None
                       (set_currentDownloadJob None
                          (set_isYoutubeDownloadActive false (bot w)));
              controllers := controllers w;
              activations := delete k (activations w);
              queueChecks := S (queueChecks w); created := created w;
              started := started w;
              finished := finished w ++ [(act_job a, t)] |}, [])
      | Downloading => (w, [])
      end
  | None => (w, [])
  end.

(** [currentAbortController.abort()] *)
Definition abort (c : nat) (w : World) : World :=
  {| bot := bot w; controllers := <[c := true]> (controllers w);
     activations := activations w; queueChecks := queueChecks w;
     created := created w; started := started w; finished := finished w |}.

Definition same_user (userId : string) (j : Job) : bool :=
  bool_decide (uid (user j) = userId).

(** The [!cancel] command of user [userId]. *)
Definition cmdCancel (cfg : Config) (userId : string) (w : World)
    : World * list Effect :=
  if negb (isCustomModeActive (bot w)) then (w, [Reply MsgCancelOnlyCustom])
  else
    match videoDownloadFolder cfg with
    | None => (w, [Reply MsgDownloadsNotConfigured])
    | Some _ =>
        (* the active download *)
        let target :=
          if isYoutubeDownloadActive (bot w)
          then match currentDownloadJob (bot w), currentAbortController (bot w) with
               | Some j, Some c => if same_user userId j then Some c else None
               | _, _ => None
               end
          else None in
        let activeCancelled := bool_decide (is_Some target) in
        let w1 := match target with Some c => abort c w | None => w end in
        let fx1 := match target with Some c => [AbortSignal c] | None => [] end in
        (* the queue *)
        let initialQueueLength := length (youtubeQueue (bot w1)) in
        let newQueue := List.filter (fun job => negb (same_user userId job))
                                    (youtubeQueue (bot w1)) in
        let cancelledQueueCount := initialQueueLength - length newQueue in
        let w2 := set_bot (set_youtubeQueue newQueue (bot w1)) w1 in
        (w2, fx1 ++ [Reply (if activeCancelled && (0 <? cancelledQueueCount)
                            then MsgCancelledActiveAndPending cancelledQueueCount
                            else if activeCancelled then MsgCancelledActive
                            else if (0 <? cancelledQueueCount)
                            then MsgRemovedPending cancelledQueueCount
                            else MsgNothingToCancel)])
    end.

(** The [!cancelall] command. *)
Definition cmdCancelAll (cfg : Config) (userIsAdmin : bool) (w : World)
    : World * list Effect :=
  if negb userIsAdmin then (w, [Reply MsgNoPermission])
  else if negb (isCustomModeActive (bot w)) then (w, [Reply MsgCancelOnlyCustom])
  else
    match videoDownloadFolder cfg with
    | None => (w, [Reply MsgDownloadsNotConfigured])
    | Some _ =>
        let initialQueueLength := length (youtubeQueue (bot w)) in
        let target :=
          if isYoutubeDownloadActive (bot w) then currentAbortController (bot w)
          else None in
        let w1 := match target with Some c => abort c w | None => w end in
        let fx1 := match target with Some c => [AbortSignal c] | None => [] end in
        (set_bot (set_youtubeQueue [] (bot w1)) w1,
         fx1 ++ [Reply (MsgCancelledAll (bool_decide (is_Some target)) initialQueueLength)])
    end.

(** [cleanupAndExit(signal)], the handler of SIGINT and SIGTERM, as far as
    the globals are concerned: the title check is stopped and the signal
    of the download in flight is aborted, unless it is aborted already
    ([customModeTimerId] keeps its value: its timer is cleared, the
    variable is not).  The process exits once the browse sessions are
    cleaned up, five seconds later at the latest; until then the runs in
    flight go on, so any event may still follow. *)
Definition cleanupAndExit (w : World) : World * list Effect :=
  let w0 := set_bot (stopVlcTitleCheckInterval (bot w)) w in
  match currentAbortController (bot w) with
  | Some c => if aborted w c then (w0, []) else (abort c w0, [AbortSignal c])
  | None => (w0, [])
  end.

(** What can happen to the queue. *)
Inductive Event :=
| Youtube (r : YoutubeReq)                  (* [!youtube] *)
| Cancel (userId : string)                  (* [!cancel] *)
| CancelAll (userIsAdmin : bool)            (* [!cancelall] *)
| QueueCheck (prep : PrepEnv)               (* a queue-check timer fires *)
| DownloadReturns (k : nat) (ok : bool)     (* yt-dlp settles *)
| JobFinally (k : nat)                      (* a run reaches its [finally] *)
| ModeChanged (custom : bool)               (* a mode transition sets [isCustomModeActive] *)
| Shutdown.                                 (* SIGINT or SIGTERM: [cleanupAndExit] *)

Definition step `{NodePath} (cfg : Config) (w : World) (e : Event) : World * list Effect :=
  match e with
  | Youtube r => (cmdYoutube cfg r w, [])
  | Cancel userId => cmdCancel cfg userId w
  | CancelAll userIsAdmin => cmdCancelAll cfg userIsAdmin w
  | QueueCheck prep => processYoutubeQueue cfg prep w
  | DownloadReturns k ok => downloadReturns k ok w
  | JobFinally k => jobFinally k w
  | ModeChanged custom => (set_bot (set_isCustomModeActive custom (bot w)) w, [])
  | Shutdown => cleanupAndExit w
  end.

Definition run `{NodePath} (cfg : Config) (es : list Event) (w : World) : World :=
  fold_left (fun w e => fst (step cfg w e)) es w.

(** The effects of a run, in order. *)
Fixpoint trace `{NodePath} (cfg : Config) (es : list Event) (w : World) : list Effect :=
  match es with
  | [] => []
  | e :: r => snd (step cfg w e) ++ trace cfg r (fst (step cfg w e))
  end.

(** The invariant of the download queue: at most one run of
    [processYoutubeQueue] is in flight and the lock flag says whether there
    is one; the globals describe that run; identities grow along the jobs
    taken so far followed by the queue; an idle bot with a non-empty queue
    has a queue check pending; and nothing is queued without a download
    folder. *)
Record queue_inv (cfg : Config) (w : World) : Prop := {
  inv_one : length (activations w) <= 1;
  inv_flag : isYoutubeDownloadActive (bot w) = bool_decide (activations w <> []);
  inv_current : forall a, a ∈ activations w ->
    currentDownloadJob (bot w) = Some (act_job a)
    /\ currentAbortController (bot w) = Some (act_signal a)
    /\ act_signal a < length (controllers w);
  inv_order : StronglySorted lt (job_id <$> (started w ++ youtubeQueue (bot w)));
  inv_created : Forall (fun j => job_id j < created w)
                       (started w ++ youtubeQueue (bot w));
  inv_timer : isYoutubeDownloadActive (bot w) = false ->
              youtubeQueue (bot w) <> [] -> 0 < queueChecks w;
  inv_folder : videoDownloadFolder cfg = None -> youtubeQueue (bot w) = []
}.

(* ===================================================================== *)
(** * Sample data for the examples                                        *)
(* ===================================================================== *)

Fixpoint take_while {A} (p : A -> bool) (l : list A) : list A :=
  match l with
  | [] => []
  | x :: r => if p x then x :: take_while p r else []
  end.

Definition is_separator (c : N) : bool := ((c =? 47) || (c =? 92))%N.

Definition sample_basename (s : jsstring) : jsstring :=
  rev (take_while (fun c => negb (is_separator c)) (rev s)).

Definition sample_extname (s : jsstring) : jsstring :=
  let b := sample_basename s in
  let after := take_while (fun c => negb (c =? dot)%N) (rev b) in
  if (length b <=? S (length after)) then [] else dot :: rev after.

Definition sample_basename_ext (s ext : jsstring) : jsstring :=
  let b := sample_basename s in
  let n := length b - length ext in
  if negb (bool_decide (ext = [])) && bool_decide (drop n b = ext) && (0 <? n)
  then take n b else b.

(** A stand-in for Node's [path] on Windows, to run the examples: the base
    name is what follows the last separator, the extension starts at the
    last dot of the base name, [join] puts a backslash between its
    arguments. *)
Definition samplePath : NodePath :=
  {| path_basename := sample_basename;
     path_basename_ext := sample_basename_ext;
     path_extname := sample_extname;
     path_join := fun a b => a ++ [92%N] ++ b |}.

(** A fully configured bot. *)
Definition sampleConfig : Config :=
  {| customAhkPathTo := true; customAhkPathBack := true; skipCustomAhkPath := true;
     targetVoiceChannel := true; videoDownloadFolder := Some (lit "C:\Videos");
     ffmpegPath := true |}.

(** The bot right after it entered custom mode. *)
Definition customBot : Bot := set_isCustomModeActive true initialBot.

Definition human (id : string) : Member := {| member_id := id; is_bot := false |}.
Definition robot (id : string) : Member := {| member_id := id; is_bot := true |}.

(** A [!skip] at time [t] with the given voice channel; every call
    succeeds. *)
Definition skipAt (t : Z) (ch : ChannelFetch) : SkipEnv :=
  {| sk_now := t; sk_script_exists := true; sk_channel := ch; sk_script_ok := true;
     sk_later := t + 1; sk_pollSend_ok := true |}.

(** The end of a skip poll where every call succeeds. *)
Definition skipEndOk : SkipEndEnv :=
  {| se_editable := true; se_reason_time := true; se_statusSend_ok := true;
     se_script_ok := true; se_report_ok := true |}.

(** A poll with one yes ballot. *)
Definition oneYes (k : Vote.Kind) : Vote.Poll :=
  Vote.collectAll k
    [ {| Vote.user_id := "1"; Vote.customId := Vote.yesButton k;
         Vote.deferUpdate_ok := true |} ].

(** An event API where every call succeeds, at clock [t]. *)
Definition sampleEvent (name : jsstring) (st : EventStatus) (start : Z) : GuildEvent :=
  {| ev_id := 7; ev_name := name; ev_status := st; scheduledStartTimestamp := start |}.

Definition sampleApi (t : Z) : EventApi :=
  {| now := t; guild_cached := true; events_fetch := Some [];
     found_setStatus_ok := true; create_id := Some 7; created_setStatus_ok := true;
     fetch_event := Some (sampleEvent customChannel Active 0);
     edit_error := None; setStatus_error := None;
     refetch := inl (sampleEvent customChannel Active 0) |}.

(** A passed mode-switch poll whose script fails. *)
Definition switchScriptFails : PollEndEnv :=
  {| pe_editable := true; pe_statusSend_ok := true; pe_script_ok := false;
     pe_api := sampleApi 10; pe_report_ok := true |}.

(** A switch back whose script fails. *)
Definition backScriptFails : EndEnv :=
  {| ee_status_ok := true; ee_script_ok := false; ee_api := sampleApi 10 |}.

(** The bot in custom mode, holding an event named 'Custom Channel' that is
    still Scheduled although its start time 0 has passed. *)
Definition customBotPastDue : Bot :=
  set_managedGuildEvent (Some (sampleEvent customChannel Scheduled 0)) customBot.

Definition ann : User := {| uid := "1"; tag := lit "ann" |}.
Definition bob : User := {| uid := "2"; tag := lit "bob" |}.

(** [!youtube link] by [u], a single video. *)
Definition youtubeBy (u : User) (link : string) : YoutubeReq :=
  {| yt_user := u; yt_channel := 5; yt_url := lit link; yt_url_valid := true;
     yt_explicit_playlist := false; yt_rest := []; yt_ffmpeg_exists := true;
     yt_prelim := PrelimUrls [] |}.

Definition prepOk : PrepEnv := {| prep_stat := StatFails; prep_dir_ready := true |}.

(** Scenario 3 of the specification: in custom mode, a download of ann is
    active, one of bob and a second one of ann are queued. *)
Definition scenario3 : list Event :=
  [ ModeChanged true; Youtube (youtubeBy ann "https://a/1"); QueueCheck prepOk;
    Youtube (youtubeBy bob "https://b/1"); Youtube (youtubeBy ann "https://a/2") ].

(* ===================================================================== *)
(** * Observations on effects                                             *)
(* ===================================================================== *)

(** The [name] a call hands to Discord's scheduled-event API. *)
Definition event_name_of (e : Effect) : option jsstring :=
  match e with
  | EventCreate n | EventEdit _ n => Some n
  | _ => None
  end.

(** The scripts a handler ran, in order. *)
Definition scripts_run (fx : list Effect) : list Script :=
  omap (fun e => match e with RunAhkScript s => Some s | _ => None end) fx.
Arguments scripts_run fx : simpl never.


(** Discord's limit on the length of an event name, the [100] of
    [substring(0, 100)]. *)
Definition name_within_limit (e : Effect) : Prop :=
  match event_name_of e with
  | Some n => length n <= 100
  | None => True
  end.

(** The event name [checkAndUpdateVlcEventTitle] derives from the outcome
    of [getVlcTitle()]: [finalPotentialName]. *)
Definition vlcEventName `{NodePath} (vlcTitle : option jsstring) : jsstring :=
  let finalTitleForEvent :=
    match vlcTitle with
    | Some raw =>
        if bool_decide (raw = []) then customChannel
        else js_trim (path_basename_ext raw (path_extname raw))
    | None => customChannel
    end in
  substring0 100
    (if negb (jseq finalTitleForEvent customChannel)
     then customChannelPrefix ++ finalTitleForEvent else customChannel).


(* ===================================================================== *)
(** * Book-keeping of the download queue                                  *)
(* ===================================================================== *)

(** Every job taken off the queue is accounted for: the jobs started so
    far are the jobs that reached a terminal state, in that order, followed
    by the job of the run in flight. *)
Definition accounted (w : World) : Prop :=
  started w = (fst <$> finished w) ++ (act_job <$> activations w).

(** The sub-folder a [!youtube] command asks for: the trimmed rest of the
    command line, [null] when it is empty. *)
Definition requestedSubfolder (r : YoutubeReq) : option jsstring :=
  let t := js_trim (yt_rest r) in
  if bool_decide (t = []) then None else Some t.

(** An event that can abort the download of job [j], given whether the
    bot is in custom mode when it arrives: a [!cancel] of the user who
    queued it or a [!cancelall] of an administrator, both in custom mode
    only, or the shutdown of the process in any mode.  (The buttons
    [remote_cancel] and [remote_cancelall] change the globals as the two
    commands do: they are the same events.) *)
Definition cancels (j : Job) (custom : bool) (e : Event) : bool :=
  match e with
  | Cancel userId => custom && same_user userId j
  | CancelAll userIsAdmin => custom && userIsAdmin
  | Shutdown => true
  | _ => false
  end.


(** Job [j] was the job of the run in flight when one of the events of
    [es] that can abort it arrived. *)
Definition cancelled_while_running `{NodePath} (cfg : Config) (es : list Event)
    (j : Job) : Prop :=
  exists es1 e es2,
    es = es1 ++ e :: es2
    /\ cancels j (isCustomModeActive (bot (run cfg es1 initialWorld))) e = true
    /\ exists a, activations (run cfg es1 initialWorld) = [a] /\ act_job a = j.

(** The run in flight of scenario 3: ann's first download. *)
Definition scenario3_active : Activation :=
  {| act_job := {| job_id := 0; url := lit "https://a/1"; sourceChannel := Some 5;
                   user := ann; subfolder := None |};
     act_signal := 0; act_phase := Downloading |}.


(* ===================================================================== *)
(** * The still-watching timer of custom mode                             *)
(* ===================================================================== *)

(** What the timer callbacks do to the prompt message, next to the calls
    of [endCustomMode]. *)
Inductive PromptAction :=
| SendPrompt               (* [channel.send] of 'timer is up! Still watching?' *)
| EditPromptRestarting     (* 'Okay, restarting the timer!' *)
| EditPromptSwitchingBack  (* 'Okay, switching back to the regular schedule...' *)
| EditPromptNoResponse.    (* 'No response received ... Switching back ...' *)

(** The buttons of the prompt. *)
Inductive PromptButton := StillWatchingYes | StillWatchingNo.

Record TimerEnv := {
  te_promptSend_ok : bool;   (* the prompt is sent and its collector created *)
  te_end : EndEnv            (* outcomes of the calls of [endCustomMode] *)
}.

(** The callback of [setTimeout(.., CUSTOM_MODE_DURATION_MS)] set by
    [startCustomModeTimer].  [clearTimeout] keeps a cleared timer from
    firing and every assignment to [customModeTimerId] clears the previous
    timer first, so the callback runs only while the id is set. *)
Definition customModeTimerFires (cfg : Config) (currentShow : option jsstring)
    (env : TimerEnv) (b : Bot) : Bot * list (PromptAction + Effect) :=
  if negb (customModeTimerId b) then (b, [])
  else
    let b1 := set_customModeTimerId false b in
    let fx1 := if stillWatchingPromptMessage b1 then [inr DeletePrompt] else [] in
    let b2 := if stillWatchingPromptMessage b1
              then set_stillWatchingPromptMessage false b1 else b1 in
    if te_promptSend_ok env
    then (set_stillWatchingPromptMessage true b2, fx1 ++ [inl SendPrompt])
    else
      let '(_, b3, fx3) := endCustomMode cfg currentShow FromChannel (te_end env) b2 in
      (b3, fx1 ++ [inl SendPrompt] ++ (inr <$> fx3)).

(** The ['collect'] handler of the prompt.  [deferUpdate_ok] is the
    outcome of the awaited [i.deferUpdate()]; with no prompt message left,
    [stillWatchingPromptMessage.edit] throws and the handler stops.  The
    rejected edit of the prompt is caught. *)
Definition stillWatchingCollect (cfg : Config) (currentShow : option jsstring)
    (deferUpdate_ok : bool) (button : PromptButton) (env : EndEnv) (b : Bot)
    : Bot * list (PromptAction + Effect) :=
  if negb deferUpdate_ok then (b, [])
  else if negb (stillWatchingPromptMessage b) then (b, [])
  else
    let b1 := set_stillWatchingPromptMessage false b in
    match button with
    | StillWatchingYes =>
        (startCustomModeTimer cfg b1, [inl EditPromptRestarting])
    | StillWatchingNo =>
        let '(_, b2, fx2) := endCustomMode cfg currentShow FromChannel env b1 in
        (b2, inl EditPromptSwitchingBack :: (inr <$> fx2))
    end.

(** The ['end'] handler of the prompt; [reason_time] is
    [reason === 'time']. *)
Definition stillWatchingEnd (cfg : Config) (currentShow : option jsstring)
    (reason_time : bool) (env : EndEnv) (b : Bot)
    : Bot * list (PromptAction + Effect) :=
  if stillWatchingPromptMessage b && reason_time then
    let b1 := set_stillWatchingPromptMessage false b in
    let '(_, b2, fx2) := endCustomMode cfg currentShow FromChannel env b1 in
    (b2, inl EditPromptNoResponse :: (inr <$> fx2))
  else if stillWatchingPromptMessage b
  then (set_stillWatchingPromptMessage false b, [inr DeletePrompt])
  else (b, []).

(** The scripts among the calls of a timer callback. *)
Definition timer_scripts (fx : list (PromptAction + Effect)) : list Script :=
  scripts_run (omap (fun x => match x with inr e => Some e | inl _ => None end) fx).

(** A switch back where every call succeeds. *)
Definition backOk : EndEnv :=
  {| ee_status_ok := true; ee_script_ok := true; ee_api := sampleApi 10 |}.

Definition promptSent : TimerEnv := {| te_promptSend_ok := true; te_end := backOk |}.

(** Custom mode right after [!custom] passed: both timers armed. *)
Definition armedBot : Bot := startCustomModeTimer sampleConfig customBot.


(* ===================================================================== *)
(** * The file browser: pages and selection by number                     *)
(* ===================================================================== *)

Module Browse.

Definition BROWSE_ITEMS_PER_PAGE : Z := 10.

(** An entry of [getDirectoryContents]: [{ name, isDirectory }]. *)
Record Item := {
  name : jsstring;
  isDirectory : bool
}.

(** The pagination fields of [BrowseSessionData].  [currentPage] and
    [totalPages] are JS numbers that only ever hold integers. *)
Record Session := {
  items : list Item;
  currentPage : Z;
  totalPages : Z
}.

(** [initialSessionData] of [startBrowseSequence]. *)
Definition initialSessionData : Session :=
  {| items := []; currentPage := 1; totalPages := 1 |}.

Definition set_currentPage (p : Z) (s : Session) : Session :=
  {| items := items s; currentPage := p; totalPages := totalPages s |}.

(** [l.slice(start, end)]: negative indices count from the end, both are
    clamped to the array. *)
Definition js_slice {A} (l : list A) (start end_ : Z) : list A :=
  let len := Z.of_nat (length l) in
  let k := if (start <? 0)%Z then Z.max (len + start) 0 else Z.min start len in
  let final := if (end_ <? 0)%Z then Z.max (len + end_) 0 else Z.min end_ len in
  take (Z.to_nat (final - k)) (drop (Z.to_nat k) l).


(** [Math.ceil(n / d)] for integers [n] and [d > 0]. *)
Definition ceil_div (n d : Z) : Z := (- ((- n) / d))%Z.

(** [updateBrowseSessionView(sessionData)].  [contents] is the outcome of
    [getDirectoryContents] ([None]: it throws, and so does this function
    after resetting the view); [search] is the test
    [item.name.toLowerCase().includes(queryLower)] of an active search
    query.  Returns whether it returned normally. *)
Definition updateBrowseSessionView (contents : option (list Item))
    (search : option (Item -> bool)) (s : Session) : bool * Session :=
  match contents with
  | Some allDirectoryItems =>
      let itemsToShow :=
        match search with
        | Some q => List.filter q allDirectoryItems
        | None => allDirectoryItems
        end in
      let total :=
        Z.max 1 (ceil_div (Z.of_nat (length itemsToShow)) BROWSE_ITEMS_PER_PAGE) in
      (true, {| items := itemsToShow; totalPages := total;
                currentPage := Z.min (Z.max 1 (currentPage s)) total |})
  | None => (false, {| items := []; totalPages := 1; currentPage := 1 |})
  end.

(** [const pageItems = items.slice(startIndex, endIndex)] *)
Definition pageItems (s : Session) : list Item :=
  let startIndex := ((currentPage s - 1) * BROWSE_ITEMS_PER_PAGE)%Z in
  let endIndex := (startIndex + BROWSE_ITEMS_PER_PAGE)%Z in
  js_slice (items s) startIndex endIndex.

(** The description of the embed: the numbered rows of the page, one of
    the 'empty' texts, or the fallback text 'Error: No items found on this
    page (try going back?).' *)
Inductive Description :=
| Listing (rows : list (Z * Item))
| NoItems
| NoItemsOnPage.

Record UI := {
  description : Description;
  prevDisabled : bool;
  nextDisabled : bool;
  selectDisabled : bool
}.

(** [generateBrowseUI(sessionData)]: what depends on the pagination. *)
Definition generateBrowseUI (s : Session) : UI :=
  let startIndex := ((currentPage s - 1) * BROWSE_ITEMS_PER_PAGE)%Z in
  let rows := imap (fun index item => ((startIndex + Z.of_nat index + 1)%Z, item))
                   (pageItems s) in
  {| description :=
       if (length (items s) =? 0)%nat then NoItems
       else if (length (pageItems s) =? 0)%nat && (1 <? currentPage s)%Z
       then NoItemsOnPage
       else Listing rows;
     prevDisabled := (currentPage s <=? 1)%Z;
     nextDisabled := (totalPages s <=? currentPage s)%Z;
     selectDisabled := (length (items s) =? 0)%nat |}.

Inductive NavButton := BrowsePrev | BrowseNext.

(** The [browse_prev] / [browse_next] case of the button collector;
    [None]: the handler returns without a change. *)
Definition navigate (button : NavButton) (s : Session) : option Session :=
  match button with
  | BrowsePrev =>
      if (1 <? currentPage s)%Z then Some (set_currentPage (currentPage s - 1) s)
      else None
  | BrowseNext =>
      if (currentPage s <? totalPages s)%Z
      then Some (set_currentPage (currentPage s + 1) s)
      else None
  end.





(** What changes the view of a session: a directory is (re)opened on its
    first page (start of the session, Up, a search, entering a directory),
    or a page button is pressed. *)
Inductive Op :=
| Open (contents : option (list Item)) (search : option (Item -> bool))
| Nav (button : NavButton).

Definition apply_op (s : Session) (op : Op) : Session :=
  match op with
  | Open contents search =>
      (updateBrowseSessionView contents search (set_currentPage 1 s)).2
  | Nav button => default s (navigate button s)
  end.


(** The view is on an existing page. *)
Definition on_a_page (s : Session) : Prop :=
  (1 <= currentPage s <= totalPages s)%Z
  /\ totalPages s
     = Z.max 1 (ceil_div (Z.of_nat (length (items s))) BROWSE_ITEMS_PER_PAGE).

End Browse.


(* ===================================================================== *)
(** * Splitting a long message                                            *)
(* ===================================================================== *)

Definition DISCORD_MESSAGE_LIMIT : Z := 2000.

Definition newline : N := 10.

Fixpoint last_index_from (c : N) (l : jsstring) (i found : Z) : Z :=
  match l with
  | [] => found
  | x :: r => last_index_from c r (i + 1) (if (x =? c)%N then i else found)
  end.

(** [s.lastIndexOf(c, fromIndex)] for a one-character [c]: the greatest
    index not above [fromIndex] (a negative [fromIndex] counts as 0) at
    which [c] occurs, or -1. *)
Definition lastIndexOf (c : N) (s : jsstring) (fromIndex : Z) : Z :=
  last_index_from c (take (S (Z.to_nat (Z.max 0 fromIndex))) s) 0 (-1).

(** [s.substring(start, end)]: both indices are clamped to the string and
    swapped when out of order. *)
Definition js_substring (s : jsstring) (start end_ : Z) : jsstring :=
  let len := Z.of_nat (length s) in
  let a := Z.min (Z.max start 0) len in
  let b := Z.min (Z.max end_ 0) len in
  take (Z.to_nat (Z.max a b - Z.min a b)) (drop (Z.to_nat (Z.min a b)) s).

(** [s.substring(start)] *)
Definition js_substring_from (s : jsstring) (start : Z) : jsstring :=
  js_substring s start (Z.of_nat (length s)).

(** [s.trimStart()] *)
Definition js_trimStart (s : jsstring) : jsstring := drop_while is_js_space s.

(** The [while] loop of [sendSplitMessage], with a bound on the number of
    iterations ([None]: the bound is reached).  [send_ok k] is the outcome
    of the [k]-th [channel.send] of the call; [sent] counts the sends made
    so far.  The result lists the chunks handed to [channel.send], the
    rejected one included. *)
Fixpoint sendChunks (fuel : nat) (maxChunkLength : Z) (send_ok : nat -> bool)
    (sent : nat) (remainingContent : jsstring) : option (list jsstring) :=
  match remainingContent with
  | [] => Some []
  | _ :: _ =>
      match fuel with
      | 0 => None
      | S fuel' =>
          let '(chunk, rest) :=
            if (Z.of_nat (length remainingContent) <=? maxChunkLength)%Z
            then (remainingContent, [])
            else
              let found := lastIndexOf newline remainingContent maxChunkLength in
              let splitIndex := if (found <=? 0)%Z then maxChunkLength else found in
              (js_substring remainingContent 0 splitIndex,
               js_trimStart (js_substring_from remainingContent splitIndex)) in
          if send_ok sent
          then cons chunk <$> sendChunks fuel' maxChunkLength send_ok (S sent) rest
          else Some [chunk]
      end
  end.

(** [sendSplitMessage(channel, content, prefix, suffix)]: the messages
    handed to [channel.send], in order; [channel_defined] is the
    truthiness of [channel]. *)
Definition sendSplitMessage (fuel : nat) (channel_defined : bool)
    (content prefix suffix : jsstring) (send_ok : nat -> bool)
    : option (list jsstring) :=
  if negb channel_defined || bool_decide (content = []) then Some []
  else
    let maxChunkLength :=
      (DISCORD_MESSAGE_LIMIT - Z.of_nat (length prefix) - Z.of_nat (length suffix) - 10)%Z in
    match sendChunks fuel maxChunkLength send_ok 0 content with
    | Some chunks => Some (List.map (fun chunk => prefix ++ chunk ++ suffix) chunks)
    | None => None
    end.

(** The characters of a text that are not white space, in order. *)
Definition visible (s : jsstring) : jsstring :=
  List.filter (fun c => negb (is_js_space c)) s.

(** The delimiters of the callers: a code fence before and after. *)
Definition fenceOpen : jsstring := lit "```" ++ [newline].
Definition fenceClose : jsstring := [newline] ++ lit "```".


(* ===================================================================== *)
(** * The schedule: current show and scheduled posts                      *)
(* ===================================================================== *)

(** [a < b] on JS strings: code units are compared from the left, a
    proper prefix is smaller. *)
Fixpoint js_ltb (a b : jsstring) : bool :=
  match a, b with
  | _, [] => false
  | [], _ :: _ => true
  | x :: a', y :: b' => (x <? y)%N || ((x =? y)%N && js_ltb a' b')
  end.

(** The order of [Array.prototype.sort()] without a comparator. *)
Definition js_le (a b : jsstring) : Prop := js_ltb b a = false.

#[export] Instance js_le_dec : RelDecision js_le.
Proof. intros a b. unfold js_le. apply _. Defined.

(** The decimal digits of [n], most significant first. *)
Fixpoint digits (fuel : nat) (n : N) (acc : jsstring) : jsstring :=
  match fuel with
  | 0 => acc
  | S fuel' =>
      let acc' := (48 + n mod 10)%N :: acc in
      if (n <? 10)%N then acc' else digits fuel' (n / 10)%N acc'
  end.

(** [String(n)] for a natural number; [n] has at most [log2 n + 1]
    decimal digits. *)
Definition js_String (n : N) : jsstring := digits (S (N.to_nat (N.log2 n))) n [].

(** [s.padStart(targetLength, c)] for a one-character [c]. *)
Definition padStart (targetLength : nat) (c : N) (s : jsstring) : jsstring :=
  repeat c (targetLength - length s) ++ s.

Definition colon : N := 58.
Definition asterisk : N := 42.

(** [s.replace(/\*+/g, '')] *)
Definition stripAsterisks (s : jsstring) : jsstring :=
  List.filter (fun c => negb (c =? asterisk)%N) s.

Module Guide.

(** An entry of [schedule.js]: a property is [None] when absent. *)
Record ShowData := {
  now : option jsstring;
  next : option jsstring;
  image : option jsstring;
  customMessage : option jsstring
}.

(** Truthiness of a property that holds a string or is absent. *)
Definition truthy (v : option jsstring) : bool :=
  match v with
  | Some (_ :: _) => true
  | _ => false
  end.

(** [showData.now && showData.next]: a standard entry. *)
Definition standard (d : ShowData) : bool := truthy (now d) && truthy (next d).

(** [formatTvGuideMessage(showData)]; [None] is a missing [showData]. *)
Definition formatTvGuideMessage (showData : option ShowData) : jsstring :=
  match showData with
  | None => lit "Error: Schedule data missing."
  | Some d =>
      if truthy (customMessage d) then default [] (customMessage d)
      else if negb (truthy (now d)) || negb (truthy (next d))
      then lit "Schedule information is currently unavailable."
      else
        let message :=
          lit "Now Playing: **" ++ default [] (now d) ++ lit "**" ++ [newline]
          ++ lit "Up Next: **" ++ default [] (next d) ++ lit "**" in
        if truthy (image d) && negb (bool_decide (js_trim (default [] (image d)) = []))
        then message ++ [newline] ++ js_trim (default [] (image d))
        else message
  end.

(** [`${String(now.getHours()).padStart(2, '0')}:${String(now.getMinutes()).padStart(2, '0')}`] *)
Definition currentTimeStr (hours minutes : N) : jsstring :=
  padStart 2 48 (js_String hours) ++ [colon] ++ padStart 2 48 (js_String minutes).

(** [Object.keys(todaysSchedule).sort()] *)
Definition scheduledTimes (todaysSchedule : gmap jsstring ShowData) : list jsstring :=
  merge_sort js_le (map_to_list todaysSchedule).*1.

(** The [for] loop of [getCurrentShowData]. *)
Fixpoint latestValid (todaysSchedule : gmap jsstring ShowData) (current : jsstring)
    (times : list jsstring) (lastValidData : option ShowData) : option ShowData :=
  match times with
  | [] => lastValidData
  | time :: rest =>
      if js_ltb current time then lastValidData
      else
        latestValid todaysSchedule current rest
          match todaysSchedule !! time with
          | Some showData => if standard showData then Some showData else lastValidData
          | None => lastValidData
          end
  end.

(** [getCurrentShowData()]: the schedule maps a day of the week to the
    entries of that day, keyed by their time; [dayOfWeek], [hours] and
    [minutes] are read from the clock. *)
Definition getCurrentShowData (schedule : gmap nat (gmap jsstring ShowData))
    (dayOfWeek : nat) (hours minutes : N) : option ShowData :=
  match schedule !! dayOfWeek with
  | None => None
  | Some todaysSchedule =>
      latestValid todaysSchedule (currentTimeStr hours minutes)
        (scheduledTimes todaysSchedule) None
  end.

(** [getCurrentShowTitle()].  The entry returned by [getCurrentShowData]
    is a standard one, so its [now] is a string. *)
Definition getCurrentShowTitle (schedule : gmap nat (gmap jsstring ShowData))
    (dayOfWeek : nat) (hours minutes : N) : option jsstring :=
  match getCurrentShowData schedule dayOfWeek hours minutes with
  | Some data => Some (js_trim (stripAsterisks (default [] (now data))))
  | None => None
  end.

(** The callback of the cron job of one schedule entry.
    [tvGuideTargetChannel] tells whether the text channel is configured;
    a rejected post is caught and logged.  The result lists the posts to
    that channel ([inl]) and the calls of [updateEventName] ([inr]). *)
Definition cronJob (cfg : Config) (tvGuideTargetChannel : bool)
    (currentShow : option jsstring) (api : EventApi)
    (showDataForThisJob : ShowData) (b : Bot) : Bot * list (jsstring + Effect) :=
  if isCustomModeActive b then (b, [])
  else
    let post :=
      if tvGuideTargetChannel
      then [inl (formatTvGuideMessage (Some showDataForThisJob))] else [] in
    if targetVoiceChannel cfg && truthy (now showDataForThisJob)
       && truthy (next showDataForThisJob)
    then
      let eventName := js_trim (stripAsterisks (default [] (now showDataForThisJob))) in
      if negb (bool_decide (eventName = []))
      then let '(_, b', fx) :=
             updateEventNameInternal cfg currentShow api (Some eventName) b in
           (b', post ++ (inr <$> fx))
      else (b, post)
    else (b, post).

(** [r] is the standard entry with the greatest key among [ts] that is
    not after [current], if there is one. *)
Definition best_of (m : gmap jsstring ShowData) (current : jsstring)
    (ts : list jsstring) (r : option ShowData) : Prop :=
  match r with
  | Some d =>
      exists t, t ∈ ts /\ m !! t = Some d /\ standard d = true
                /\ js_ltb current t = false
                /\ forall t' d', t' ∈ ts -> m !! t' = Some d' -> standard d' = true ->
                      js_ltb current t' = false -> js_ltb t t' = false
  | None =>
      forall t' d', t' ∈ ts -> m !! t' = Some d' -> standard d' = true ->
                    js_ltb current t' = true
  end.

(** The posts and the event calls of a cron job. *)
Definition posts (fx : list (jsstring + Effect)) : list jsstring :=
  omap (fun x => match x with inl m => Some m | inr _ => None end) fx.

Definition calls (fx : list (jsstring + Effect)) : list Effect :=
  omap (fun x => match x with inr e => Some e | inl _ => None end) fx.

(** Wednesday of [schedule.js]. *)
Definition entry (n x : string) : ShowData :=
  {| now := Some (lit n); next := Some (lit x); image := None; customMessage := None |}.

Definition wednesday : gmap jsstring ShowData :=
  {[ lit "12:30" := entry "Scrubs" "South Park";
     lit "13:00" := entry "South Park" "Invader Zim";
     lit "13:30" := {| now := None; next := None; image := None;
                       customMessage := Some (lit "**Reminder:** Server meeting at 2PM!") |};
     lit "14:00" := entry "MOVIE: Spider-Man" "News Update" ]}.

Definition sampleSchedule : gmap nat (gmap jsstring ShowData) := {[ 3 := wednesday ]}.

End Guide.


(* ===================================================================== *)
(** * Twelve-hour times                                                   *)
(* ===================================================================== *)

Definition is_digit (c : N) : bool := ((48 <=? c) && (c <=? 57))%N.

(** The value of the longest prefix of decimal digits; [None] when there
    is no digit. *)
Fixpoint digits_value (s : jsstring) (acc : option Z) : option Z :=
  match s with
  | [] => acc
  | c :: r =>
      if is_digit c
      then digits_value r (Some (10 * default 0 acc + (Z.of_N c - 48)))%Z
      else acc
  end.

(** [parseInt(s, 10)]: leading white space is skipped, a sign is read,
    then decimal digits up to the first other character; [None] is [NaN]. *)
Definition parseInt10 (s : jsstring) : option Z :=
  match drop_while is_js_space s with
  | 45%N :: r => Z.opp <$> digits_value r None
  | 43%N :: r => digits_value r None
  | t => digits_value t None
  end.

(** [String(n)] for an integer. *)
Definition js_String_Z (n : Z) : jsstring :=
  if (n <? 0)%Z then 45%N :: js_String (Z.to_N (- n)) else js_String (Z.to_N n).

Fixpoint split_from (c : N) (s current : jsstring) : list jsstring :=
  match s with
  | [] => [current]
  | x :: r => if (x =? c)%N then current :: split_from c r [] else split_from c r (current ++ [x])
  end.

(** [s.split(c)] for a one-character separator. *)
Definition js_split (c : N) (s : jsstring) : list jsstring := split_from c s [].

(** [formatTime12hr(timeString)] *)
Definition formatTime12hr (timeString : jsstring) : jsstring :=
  if bool_decide (timeString = []) || negb (existsb (N.eqb colon) timeString)
  then timeString
  else
    match js_split colon timeString with
    | hourStr :: minuteStr :: _ =>
        match parseInt10 hourStr, parseInt10 minuteStr with
        | Some hour, Some minute =>
            let ampm := if (12 <=? hour)%Z then lit "PM" else lit "AM" in
            let hour := Z.rem hour 12 in
            let hour := if (hour =? 0)%Z then 12%Z else hour in
            let minutePadded := padStart 2 48 (js_String_Z minute) in
            js_String_Z hour ++ [colon] ++ minutePadded ++ lit " " ++ ampm
        | _, _ => timeString
        end
    | _ => timeString
    end.

(** The hour of the twelve-hour clock for an hour of the day. *)
Definition hour12 (h : N) : N := if (h mod 12 =? 0)%N then 12%N else (h mod 12)%N.


(* ===================================================================== *)
(** * The window title of VLC, read from [tasklist]                       *)
(* ===================================================================== *)

Definition quote : N := 34.
Definition backslash : N := 92.
Definition comma : N := 44.

(** The inner loop of [getVlcTitle] over the characters of one line:
    a double quote that does not follow a backslash toggles [inQuotes], a
    comma outside quotes ends the field, anything else joins the field.
    [prev] is [line[i-1]], absent at index 0. *)
Fixpoint parseCsvFrom (line : jsstring) (prev : option N) (columns : list jsstring)
    (currentField : jsstring) (inQuotes : bool) : list jsstring :=
  match line with
  | [] => columns ++ [js_trim currentField]
  | char :: rest =>
      if (char =? quote)%N && negb (bool_decide (prev = Some backslash))
      then parseCsvFrom rest (Some char) columns currentField (negb inQuotes)
      else if (char =? comma)%N && negb inQuotes
      then parseCsvFrom rest (Some char) (columns ++ [js_trim currentField]) [] inQuotes
      else parseCsvFrom rest (Some char) columns (currentField ++ [char]) inQuotes
  end.

Definition parseCsvLine (line : jsstring) : list jsstring :=
  parseCsvFrom line None [] [] false.

(** [s.replace(/^"|"$/g, '')] *)
Definition stripOuterQuotes (s : jsstring) : jsstring :=
  let s1 := match s with
            | c :: r => if (c =? quote)%N then r else s
            | [] => s
            end in
  match rev s1 with
  | c :: r => if (c =? quote)%N then rev r else s1
  | [] => s1
  end.

(** Lower case of the letters A to Z.  On the comparison with 'vlc media
    player' this agrees with [toLowerCase]: no other character has one of
    the letters of that text as its lower case. *)
Definition ascii_lower (c : N) : N :=
  if ((65 <=? c) && (c <=? 90))%N then (c + 32)%N else c.

(** [potentialTitle && potentialTitle !== 'N/A'
     && potentialTitle.toLowerCase() !== 'vlc media player'] *)
Definition usableTitle (t : jsstring) : bool :=
  negb (bool_decide (t = [])) && negb (bool_decide (t = lit "N/A"))
  && negb (bool_decide (ascii_lower <$> t = lit "vlc media player")).

Definition vlcSuffix : jsstring := lit " - VLC media player".

(** [s.endsWith(suffix)] *)
Definition ends_with (suffix s : jsstring) : bool :=
  bool_decide (drop (length s - length suffix) s = suffix)
  && (length suffix <=? length s).

(** The clean-up of a title that was found. *)
Definition cleanTitle (vlcTitle : jsstring) : jsstring :=
  if ends_with vlcSuffix vlcTitle
  then js_trim (js_substring vlcTitle 0
                  (Z.of_nat (length vlcTitle) - Z.of_nat (length vlcSuffix)))
  else vlcTitle.

(** The title of one line, if it has a ninth column with a usable one. *)
Definition titleOfLine (line : jsstring) : option jsstring :=
  match parseCsvLine line !! 8 with
  | Some column =>
      let potentialTitle := stripOuterQuotes column in
      if usableTitle potentialTitle then Some potentialTitle else None
  | None => None
  end.

(** [getVlcTitle()] from the point where [tasklist] has answered with
    [stdout]: the first line with a usable title decides. *)
Definition vlcTitleFromStdout (stdout : jsstring) : option jsstring :=
  if bool_decide (stdout = []) || bool_decide (js_trim stdout = []) then None
  else
    let lines := js_split newline (js_trim stdout) in
    cleanTitle <$> head (omap titleOfLine lines).

(** [getVlcTitle()]; [tasklist] is the outcome of the command, [None]
    when the promise rejects. *)
Definition getVlcTitle (win32 : bool) (tasklist : option jsstring) : option jsstring :=
  if negb win32 then None
  else match tasklist with
       | Some stdout => vlcTitleFromStdout stdout
       | None => None
       end.

(** A line of [tasklist /fo csv]: every field between double quotes,
    fields separated by commas. *)
Fixpoint csvLine (fields : list jsstring) : jsstring :=
  match fields with
  | [] => []
  | [f] => [quote] ++ f ++ [quote]
  | f :: rest => [quote] ++ f ++ [quote] ++ [comma] ++ csvLine rest
  end.

(** A field that survives the parser: no double quote and no line break
    inside, no backslash at its end, no white space at either end. *)
Definition plain (f : jsstring) : Prop :=
  (quote ∉ f) /\ (newline ∉ f) /\ last f <> Some backslash /\ js_trim f = f.

(** The same, as a test. *)
Definition plainb (f : jsstring) : bool :=
  negb (existsb (N.eqb quote) f) && negb (existsb (N.eqb newline) f)
  && negb (bool_decide (last f = Some backslash)) && bool_decide (js_trim f = f).

(** The eight columns [tasklist /v] prints before the window title. *)
Definition vlcRow (title : string) : list jsstring :=
  [lit "vlc.exe"; lit "4242"; lit "Console"; lit "1"; lit "91,204 K"; lit "Running";
   lit "PC\user"; lit "0:01:02"; lit title].


(* ===================================================================== *)
(** * Refreshing the stream and playing a selected file                   *)
(* ===================================================================== *)

(** The AutoHotkey scripts of [!refresh] and [!browse], named by their
    configuration variable; the open-file script gets the file to play. *)
Inductive PlayerScript :=
| RefreshAhkPath
| CustomRefreshAhkPath
| OpenFileAhkPath (fullFilePath : jsstring).

(** The texts of the two handlers. *)
Inductive Notice :=
(* executeRefreshSequence *)
| SayCustomRefreshing        (* 'Custom Channel mode active. Refreshing custom stream...' *)
| SayCustomScriptMissing
| SayExecutingCustomRefresh
| SayCustomRefreshDone
| SayCustomRefreshFailed
| SayStandardRefresh         (* 'Attempting standard refresh...' *)
| SayUpdatingEventName (name : jsstring)
| SayEventUpdateFailed
| SayNoVoiceChannel
| SayNoCurrentShow
| SayRefreshScriptMissing
| SayExecutingRefresh
| SayRefreshDone
| SayRefreshFailed
| SayRefreshComplete         (* 'Standard refresh sequence complete.' *)
(* the file-selection poll *)
| SayPollPassedOpening (y n : nat)
| SayPollFailedOrTied (y n : nat)
| SayScriptReportedError     (* 'AHK script failed to open file. Script Error: ..' *)
| SayScriptFailed.           (* 'Failed to run the AHK script to open the file.' *)

(** Calls that leave the process, in program order. *)
Inductive PlayerEffect :=
| RunPlayerScript (s : PlayerScript)
| Say (m : Notice)                 (* feedback to the requester or the channel *)
| EventCall (e : Effect)           (* a call made by [updateEventNameInternal] *)
| ScheduleTitleCheck               (* [setTimeout(checkAndUpdateVlcEventTitle, 1500)] *)
| DeleteBrowseMessage              (* [browseMessage.delete()] *)
| DisablePollButtons.              (* the final edit of the poll message *)

(** The scripts among the calls. *)
Definition player_scripts (fx : list PlayerEffect) : list PlayerScript :=
  omap (fun e => match e with RunPlayerScript s => Some s | _ => None end) fx.

(** The calls of the scheduled-event API among the calls. *)
Definition player_event_calls (fx : list PlayerEffect) : list Effect :=
  omap (fun e => match e with EventCall c => Some c | _ => None end) fx.

Record RefreshEnv := {
  rf_customScript_set : bool;   (* [customRefreshAhkPath] is set and the file exists *)
  rf_script_set : bool;         (* [refreshAhkPath] is set and the file exists *)
  rf_script_ok : bool;          (* the script that is run resolves *)
  rf_api : EventApi
}.

(** [executeRefreshSequence(interactionOrMessage)] for a command message
    or an interaction that is already deferred: both feedback helpers
    catch their own errors.  [currentEventName] is
    [getCurrentShowTitle()]. *)
Definition executeRefreshSequence (cfg : Config) (currentEventName : option jsstring)
    (env : RefreshEnv) (b : Bot) : Bot * list PlayerEffect :=
  if isCustomModeActive b then
    if negb (rf_customScript_set env)
    then (b, [Say SayCustomRefreshing; Say SayCustomScriptMissing])
    else
      (b, [Say SayCustomRefreshing; Say SayExecutingCustomRefresh;
           RunPlayerScript CustomRefreshAhkPath;
           Say (if rf_script_ok env then SayCustomRefreshDone else SayCustomRefreshFailed);
           ScheduleTitleCheck])
  else
    let named := match currentEventName with
                 | Some t => negb (bool_decide (t = []))
                 | None => false
                 end in
    let '(b1, fx1) :=
      if named && targetVoiceChannel cfg then
        let name := default [] currentEventName in
        let '(ok, b', fx) :=
          updateEventNameInternal cfg currentEventName (rf_api env) (Some name) b in
        (b', [Say (SayUpdatingEventName name)] ++ (EventCall <$> fx)
             ++ (if ok then [] else [Say SayEventUpdateFailed]))
      else if negb (targetVoiceChannel cfg) then (b, [Say SayNoVoiceChannel])
      else (b, [Say SayNoCurrentShow]) in
    let fx2 :=
      if negb (rf_script_set env) then [Say SayRefreshScriptMissing]
      else [Say SayExecutingRefresh; RunPlayerScript RefreshAhkPath;
            Say (if rf_script_ok env then SayRefreshDone else SayRefreshFailed)] in
    (b1, [Say SayStandardRefresh] ++ fx1 ++ fx2 ++ [Say SayRefreshComplete]).

(** How [runAhkScript] ends for the open-file script. *)
Inductive ScriptOutcome :=
| ScriptClean            (* resolves, nothing about an error on stderr *)
| ScriptReportsError     (* resolves, stderr mentions an error *)
| ScriptRejects.

Inductive StopReason :=
| SelectedPollPassed
| SelectedPollPassedScriptFailed
| SelectedPollFailed.

Record BrowsePollEnv := {
  bp_script : ScriptOutcome;
  bp_errorFollowUp_ok : bool;    (* the follow-up about the reported error is sent *)
  bp_failedFollowUp_ok : bool;   (* the follow-up of the [catch] branch is sent *)
  bp_collector_live : bool;      (* [mainButtonCollector && !mainButtonCollector.ended] *)
  bp_buttons_editable : bool;    (* the poll message can still be edited *)
  bp_api : EventApi
}.

(** The ['end'] handler of the file-selection poll of
    [startBrowseConfirmationPoll].  Returns the reason with which the
    browse session is stopped, if it is, the globals and the calls.  The
    edits and sends of the result text are caught; a rejected follow-up
    in the [catch] branch ends the handler. *)
Definition browsePollEnd `{NodePath} (cfg : Config) (currentShow : option jsstring)
    (root selectedFileName relativeFilePath : jsstring) (env : BrowsePollEnv)
    (p : Vote.Poll) (b : Bot) : option StopReason * Bot * list PlayerEffect :=
  let y := Vote.yesVotes p in
  let n := Vote.noVotes p in
  let stop (r : StopReason) := if bp_collector_live env then Some r else None in
  let disable := if bp_buttons_editable env then [DisablePollButtons] else [] in
  if Vote.pollPassed p then
    let fullFilePath := path_join root relativeFilePath in
    let fileNameForEvent := path_basename_ext selectedFileName (path_extname selectedFileName) in
    let '(_, b1, fx1) :=
      updateEventNameInternal cfg currentShow (bp_api env) (Some fileNameForEvent) b in
    let fx := [Say (SayPollPassedOpening y n)] ++ (EventCall <$> fx1)
              ++ [RunPlayerScript (OpenFileAhkPath fullFilePath)] in
    let caught (fx' : list PlayerEffect) :=
      if bp_failedFollowUp_ok env
      then (stop SelectedPollPassedScriptFailed, b1,
            fx' ++ [Say SayScriptFailed] ++ disable)
      else (None, b1, fx' ++ [Say SayScriptFailed]) in
    match bp_script env with
    | ScriptClean =>
        (stop SelectedPollPassed, b1, fx ++ [DeleteBrowseMessage] ++ disable)
    | ScriptReportsError =>
        if bp_errorFollowUp_ok env
        then (stop SelectedPollPassedScriptFailed, b1,
              fx ++ [Say SayScriptReportedError] ++ disable)
        else caught (fx ++ [Say SayScriptReportedError])
    | ScriptRejects => caught fx
    end
  else
    (stop SelectedPollFailed, b, [Say (SayPollFailedOrTied y n)] ++ disable).

(** A file-selection poll where every call succeeds. *)
Definition browsePollOk : BrowsePollEnv :=
  {| bp_script := ScriptClean; bp_errorFollowUp_ok := true; bp_failedFollowUp_ok := true;
     bp_collector_live := true; bp_buttons_editable := true; bp_api := sampleApi 10 |}.


(* ===================================================================== *)
(** * The schedule views and [!now]                                       *)
(* ===================================================================== *)

Module Listing.
Import Guide.

Definition EPHEMERAL_CONTENT_LIMIT : Z := 2000.

Definition DAY_NAMES : list jsstring :=
  [lit "Sunday"; lit "Monday"; lit "Tuesday"; lit "Wednesday"; lit "Thursday";
   lit "Friday"; lit "Saturday"].

(** [DAY_NAMES[dayIndex]] inside a template literal: a missing element
    reads [undefined]. *)
Definition dayName (dayIndex : nat) : jsstring :=
  default (lit "undefined") (DAY_NAMES !! dayIndex).

(** The loop over the sorted times of a day: one line
    [`${formattedTime} - ${title}\n`] for every entry with a truthy [now]. *)
Definition dayLines (daySchedule : gmap jsstring ShowData) : list jsstring :=
  omap (fun time =>
          match daySchedule !! time with
          | Some showData =>
              if truthy (now showData)
              then Some (formatTime12hr time ++ lit " - "
                         ++ js_trim (stripAsterisks (default [] (now showData)))
                         ++ [newline])
              else None
          | None => None
          end) (scheduledTimes daySchedule).

(** [dayOutput] of the two views of today. *)
Definition todayOutput (schedule : gmap nat (gmap jsstring ShowData)) (today : nat)
    : jsstring :=
  let header := lit "**Schedule for " ++ dayName today ++ lit ":**" ++ [newline] in
  match schedule !! today with
  | None => header ++ lit "No schedule found for today."
  | Some daySchedule =>
      if bool_decide (size daySchedule = 0)
      then header ++ lit "No schedule found for today."
      else
        let lines := dayLines daySchedule in
        if bool_decide (lines = [])
        then header ++ lit "No specific shows listed for today."
        else header ++ concat lines
  end.

(** The code block [scheduleContent] around a title and a listing. *)
Definition codeBlock (titlePrefix body : jsstring) : jsstring :=
  fenceOpen ++ titlePrefix ++ [newline; newline] ++ body ++ fenceClose.

Definition todayTitle : jsstring := lit "--- Schedule for Today ---".

(** [content.substring(0, EPHEMERAL_CONTENT_LIMIT - 20)] followed by the
    note that the text was cut and the closing fence. *)
Definition truncate (content : jsstring) : jsstring :=
  js_substring content 0 (EPHEMERAL_CONTENT_LIMIT - 20)
  ++ [newline] ++ lit "... (Truncated)" ++ fenceClose.

Definition errorReply : jsstring :=
  lit "Sorry, an error occurred while fetching that schedule.".

(** The button [remote_schedule_today], after the click is deferred: the
    contents handed to [i.editReply].  A rejected edit is answered by the
    [catch] block with the error text. *)
Definition remoteToday (schedule : gmap nat (gmap jsstring ShowData)) (today : nat)
    (editReply_ok : bool) : list jsstring :=
  let scheduleContent := codeBlock todayTitle (todayOutput schedule today) in
  let shown :=
    if (EPHEMERAL_CONTENT_LIMIT <? Z.of_nat (length scheduleContent))%Z
    then truncate scheduleContent else scheduleContent in
  shown :: (if editReply_ok then [] else [errorReply]).

(** The heading that replaces the prompt when the listing of
    [cmd_schedule_today] is split; it starts with the calendar emoji
    U+1F4C5. *)
Definition todayHeading (today : nat) : jsstring :=
  [55357; 56517]%N ++ lit " **Today's Schedule (" ++ dayName today ++ lit "):**".

(** The button [cmd_schedule_today] of [!schedule], after the click is
    deferred: the contents handed to [initialMsg.edit] and, for a listing
    that is split, to [channel.send]. *)
Definition cmdToday (fuel : nat) (schedule : gmap nat (gmap jsstring ShowData))
    (today : nat) (edit_ok : bool) (send_ok : nat -> bool) : option (list jsstring) :=
  let dayOutput := todayOutput schedule today in
  let scheduleContent := codeBlock todayTitle dayOutput in
  if (DISCORD_MESSAGE_LIMIT <? Z.of_nat (length scheduleContent))%Z
  then
    match sendSplitMessage fuel true dayOutput fenceOpen fenceClose send_ok with
    | Some sent => Some (todayHeading today :: sent)
    | None => None
    end
  else Some (scheduleContent :: (if edit_ok then [] else [errorReply])).

(** The days of the weekly views, Monday first. *)
Definition dayOrder : list nat := [1; 2; 3; 4; 5; 6; 0].

(** [scheduleChunk] of one day of the weekly views. *)
Definition weekChunk (dayIndex : nat) (dayOutput : jsstring) : jsstring :=
  fenceOpen ++ lit "**" ++ dayName dayIndex ++ lit "**" ++ [newline]
  ++ dayOutput ++ fenceClose.

(** The lines of a day of the weekly views. *)
Definition weekLines (schedule : gmap nat (gmap jsstring ShowData)) (dayIndex : nat)
    : list jsstring :=
  match schedule !! dayIndex with
  | Some daySchedule =>
      if bool_decide (size daySchedule = 0) then [] else dayLines daySchedule
  | None => []
  end.

(** What a day with lines shows: its chunk, cut when it is too long. *)
Definition weekShown (schedule : gmap nat (gmap jsstring ShowData)) (dayIndex : nat)
    : jsstring :=
  let scheduleChunk := weekChunk dayIndex (concat (weekLines schedule dayIndex)) in
  if (EPHEMERAL_CONTENT_LIMIT <? Z.of_nat (length scheduleChunk))%Z
  then truncate scheduleChunk else scheduleChunk.

(** The notice for a day whose follow-up was rejected; it starts with the
    cross mark U+274C. *)
Definition dayError (dayIndex : nat) : jsstring :=
  [10060]%N ++ lit " Error sending schedule for " ++ dayName dayIndex ++ lit ".".

(** The body of the loop over the days: the follow-ups of one day.
    [followUp_ok dayIndex] is the outcome of the follow-up with the
    chunk of that day. *)
Definition weekDay (schedule : gmap nat (gmap jsstring ShowData))
    (followUp_ok : nat -> bool) (dayIndex : nat) : list jsstring :=
  if bool_decide (weekLines schedule dayIndex = []) then []
  else weekShown schedule dayIndex
       :: (if followUp_ok dayIndex then [] else [dayError dayIndex]).

Definition fetchingWeek : jsstring := lit "Fetching weekly schedule (Mon-Sun)...".
Definition noWeekEntries : jsstring :=
  lit "No standard schedule entries found for the entire week.".
(** The closing edit of [!schedule]; it starts with the check mark U+2705. *)
Definition weekSent : jsstring :=
  [9989]%N ++ lit " Weekly schedule sent as separate messages.".

(** The weekly view, after the click is deferred: the contents handed to
    [editReply] and [followUp], in order.  [command] tells the button of
    [!schedule] from that of [!remote], which has no closing edit when
    something was sent.  A rejected first edit is answered by the [catch]
    block with the error text. *)
Definition weekView (command : bool) (schedule : gmap nat (gmap jsstring ShowData))
    (fetching_ok : bool) (followUp_ok : nat -> bool) : list jsstring :=
  if negb fetching_ok then [fetchingWeek; errorReply]
  else
    let entriesFoundTotal :=
      length (List.filter (fun d => negb (bool_decide (weekLines schedule d = [])))
                          dayOrder) in
    [fetchingWeek]
    ++ concat (weekDay schedule followUp_ok <$> dayOrder)
    ++ (if (entriesFoundTotal =? 0)%nat then [noWeekEntries]
        else if command then [weekSent] else []).

Definition nothingScheduled : jsstring :=
  lit "Nothing seems to be scheduled right now according to `schedule.js`.".

(** The reply of [!now] in custom mode with a title; it starts with the
    play button U+25B6 U+FE0F. *)
Definition nowPlayingCustom (baseName : jsstring) : jsstring :=
  [9654; 65039]%N ++ lit " Now Playing (Custom Mode): **" ++ baseName ++ lit "**".

(** The reply without a title; it starts with U+2139 U+FE0F. *)
Definition noVlcTitle : jsstring :=
  [8505; 65039]%N
  ++ lit " Custom Mode: Could not determine the currently playing title via VLC.".

(** The command [!now].  [vlcTitleRaw] is the outcome of [getVlcTitle()],
    [currentShow] the title [findOrCreateManagedEvent] would read.  The
    result lists the replies ([inl]) and the other calls ([inr]); a
    rejected reply is caught and logged. *)
Definition cmdNow `{NodePath} (cfg : Config)
    (schedule : gmap nat (gmap jsstring ShowData)) (dayOfWeek : nat) (hours minutes : N)
    (vlcTitleRaw : option jsstring) (currentShow : option jsstring) (api : EventApi)
    (b : Bot) : Bot * list (jsstring + Effect) :=
  if isCustomModeActive b then
    if truthy vlcTitleRaw then
      let raw := default [] vlcTitleRaw in
      let baseName := path_basename_ext raw (path_extname raw) in
      let '(_, b', fx) :=
        updateEventNameInternal cfg currentShow api (Some baseName) b in
      (b', [inr QueryVlcTitle; inl (nowPlayingCustom baseName)] ++ (inr <$> fx))
    else
      let named :=
        match managedGuildEvent b with
        | Some e => starts_with (lit "Custom Channel:") (ev_name e)
        | None => false
        end in
      if named then
        let '(_, b', fx) :=
          updateEventNameInternal cfg currentShow api (Some customChannel) b in
        (b', [inr QueryVlcTitle; inl noVlcTitle] ++ (inr <$> fx))
      else (b, [inr QueryVlcTitle; inl noVlcTitle])
  else
    match getCurrentShowData schedule dayOfWeek hours minutes with
    | Some showData =>
        let replyMessage := formatTvGuideMessage (Some showData) in
        if truthy (now showData) then
          let '(_, b', fx) :=
            updateEventNameInternal cfg currentShow api
              (Some (js_trim (stripAsterisks (default [] (now showData))))) b in
          (b', [inl replyMessage] ++ (inr <$> fx))
        else (b, [inl replyMessage])
    | None => (b, [inl nothingScheduled])
    end.

End Listing.

(* ===================================================================== *)
(** * [!clear]                                                            *)
(* ===================================================================== *)

Definition FOURTEEN_DAYS_MS : Z := 14 * 24 * 60 * 60 * 1000.

(** A message of the channel, as the filter of [!clear] reads it. *)
Record ChannelMessage := {
  cm_id : nat;
  cm_by_bot : bool;               (* [msg.author.id === client.user.id] *)
  cm_createdTimestamp : Z
}.

(** The texts of [!clear]. *)
Inductive ClearNotice :=
| ClearNoPermission          (* 'You don't have permission to use this command.' *)
| ClearNeedsManageMessages
| ClearNeedsReadHistory
| ClearFetching              (* 'Fetching my messages from the last 12 hours ..' *)
| ClearNothingFound
| ClearDeletedOne
| ClearDeleted (n : nat)     (* 'Successfully deleted n message(s).' *)
| ClearFailed.               (* 'Clear operation finished with errors. ..' *)

(** Calls that leave the process, in program order. *)
Inductive ClearEffect :=
| ClearSay (m : ClearNotice)              (* a reply, or an edit of the reply *)
| FetchMessages                           (* [channel.messages.fetch({ limit: 100 })] *)
| DeleteMessage (m : ChannelMessage)      (* [messagesToDelete.first().delete()] *)
| BulkDelete (ms : list ChannelMessage).  (* [channel.bulkDelete(messagesToDelete, true)] *)

(** The requester, the permissions of the bot in the channel, the clock
    and the outcomes of the awaited calls. *)
Record ClearEnv := {
  cl_userIsAdmin : bool;
  cl_manageMessages : bool;
  cl_readHistory : bool;
  cl_reply_ok : bool;                        (* the first reply resolves *)
  cl_now : Z;                                (* [Date.now()] read for [twelveHoursAgo] *)
  cl_clock : nat -> Z;                       (* [Date.now()] read by the filter at the k-th message *)
  cl_fetched : option (list ChannelMessage); (* [None]: the fetch rejects *)
  cl_bulkDeleted : option nat                (* size of the result of [bulkDelete]; [None]: it rejects *)
}.

(** [fetchedMessages.filter(..)] *)
Definition messagesToDelete (env : ClearEnv) (fetchedMessages : list ChannelMessage)
    : list ChannelMessage :=
  let twelveHoursAgo := (cl_now env - 12 * 60 * 60 * 1000)%Z in
  omap id
    (imap (fun k msg =>
             if cm_by_bot msg
                && (twelveHoursAgo <? cm_createdTimestamp msg)%Z
                && (cl_clock env k - cm_createdTimestamp msg <? FOURTEEN_DAYS_MS)%Z
             then Some msg else None) fetchedMessages).

(** The command [!clear]. *)
Definition cmdClear (env : ClearEnv) : list ClearEffect :=
  if negb (cl_userIsAdmin env) then [ClearSay ClearNoPermission]
  else if negb (cl_manageMessages env) then [ClearSay ClearNeedsManageMessages]
  else if negb (cl_readHistory env) then [ClearSay ClearNeedsReadHistory]
  else if negb (cl_reply_ok env) then [ClearSay ClearFetching]
  else
    match cl_fetched env with
    | None => [ClearSay ClearFetching; FetchMessages; ClearSay ClearFailed]
    | Some fetchedMessages =>
        match messagesToDelete env fetchedMessages with
        | [] => [ClearSay ClearFetching; FetchMessages; ClearSay ClearNothingFound]
        | [m] => [ClearSay ClearFetching; FetchMessages; DeleteMessage m;
                  ClearSay ClearDeletedOne]
        | ms =>
            [ClearSay ClearFetching; FetchMessages; BulkDelete ms;
             ClearSay (match cl_bulkDeleted env with
                       | Some n => ClearDeleted n
                       | None => ClearFailed
                       end)]
        end
    end.

(** The messages [!clear] asks Discord to delete. *)
Definition deletions (fx : list ClearEffect) : list ChannelMessage :=
  concat (List.map (fun e => match e with
                             | DeleteMessage m => [m]
                             | BulkDelete ms => ms
                             | _ => []
                             end) fx).

Definition is_deletion (e : ClearEffect) : bool :=
  match e with DeleteMessage _ | BulkDelete _ => true | _ => false end.

(* ===================================================================== *)
(** * Properties of the vote collectors                                   *)
(* ===================================================================== *)

Section VoteFacts.
Import Vote.

Lemma collect_ignores_repeat (k : Kind) (p : Poll) (i : Interaction) :
  user_id i ∈ votedUsers p -> collect k p i = p.
Proof.
  intros Hin. unfold collect.
  destruct (deferUpdate_ok i); simpl; [|reflexivity].
  destruct (decide (user_id i ∈ votedUsers p)); [reflexivity|contradiction].
Qed.

Lemma collect_voted_mono (k : Kind) (p : Poll) (i : Interaction) :
  votedUsers p ⊆ votedUsers (collect k p i).
Proof.
  unfold collect.
  destruct (deferUpdate_ok i); simpl; [|set_solver].
  destruct (decide (user_id i ∈ votedUsers p)); [set_solver|].
  destruct (String.eqb _ _); simpl; set_solver.
Qed.

Lemma collect_tally_ok (k : Kind) (p : Poll) (i : Interaction) :
  tally_ok p -> tally_ok (collect k p i).
Proof.
  unfold tally_ok, collect. intros Hp.
  destruct (deferUpdate_ok i); simpl; [|exact Hp].
  destruct (decide (user_id i ∈ votedUsers p)) as [|Hnew]; [exact Hp|].
  assert (size ({[user_id i]} ∪ votedUsers p) = S (size (votedUsers p))) as Hs.
  { rewrite size_union by set_solver. rewrite size_singleton. reflexivity. }
  destruct (String.eqb _ _); simpl; rewrite Hs; lia.
Qed.

Lemma fold_collect_tally_ok (k : Kind) (bs : list Interaction) (p : Poll) :
  tally_ok p -> tally_ok (fold_left (collect k) bs p).
Proof.
  revert p. induction bs as [|i bs IH]; intros p Hp; simpl; [exact Hp|].
  apply IH, collect_tally_ok, Hp.
Qed.

Lemma counted_fresh (k : Kind) (bs : list Interaction) (p : Poll) (i : Interaction) :
  i ∈ counted k p bs -> user_id i ∉ votedUsers p.
Proof.
  revert p. induction bs as [|b bs IH]; intros p Hin; simpl in Hin.
  - inversion Hin.
  - destruct (deferUpdate_ok b) eqn:Hd; simpl in Hin; [|eauto].
    destruct (decide (user_id b ∈ votedUsers p)) as [|Hnew]; [eauto|].
    apply elem_of_cons in Hin as [->|Hin]; [exact Hnew|].
    apply IH in Hin. intros Hp. apply Hin.
    eapply collect_voted_mono, Hp.
Qed.

Lemma counted_NoDup (k : Kind) (bs : list Interaction) (p : Poll) :
  NoDup (user_id <$> counted k p bs).
Proof.
  revert p. induction bs as [|b bs IH]; intros p; simpl; [constructor|].
  destruct (deferUpdate_ok b) eqn:Hd; simpl; [|apply IH].
  destruct (decide (user_id b ∈ votedUsers p)) as [|Hnew]; [apply IH|].
  rewrite fmap_cons. constructor; [|apply IH].
  intros Hin. apply list_elem_of_fmap in Hin as (i & Heq & Hin).
  apply counted_fresh in Hin. apply Hin. rewrite <- Heq.
  unfold collect. rewrite Hd. simpl.
  destruct (decide (user_id b ∈ votedUsers p)); [contradiction|].
  destruct (String.eqb _ _); simpl; set_solver.
Qed.

Lemma counted_sublist (k : Kind) (bs : list Interaction) (p : Poll) :
  counted k p bs `sublist_of` bs.
Proof.
  revert p. induction bs as [|b bs IH]; intros p; simpl; [constructor|].
  destruct (deferUpdate_ok b); simpl; [|apply sublist_cons, IH].
  destruct (decide _); [apply sublist_cons, IH|apply sublist_skip, IH].
Qed.

Lemma counted_tallies (k : Kind) (bs : list Interaction) (p : Poll) :
  yesVotes (fold_left (collect k) bs p)
    = yesVotes p + length (List.filter (is_yes k) (counted k p bs))
  /\ noVotes (fold_left (collect k) bs p)
    = noVotes p + length (List.filter (fun i => negb (is_yes k i)) (counted k p bs)).
Proof.
  revert p. induction bs as [|b bs IH]; intros p; simpl; [lia|].
  destruct (IH (collect k p b)) as [IHy IHn]. rewrite IHy, IHn. clear IHy IHn IH.
  destruct (deferUpdate_ok b) eqn:Hd; simpl.
  2:{ unfold collect. rewrite Hd. simpl. lia. }
  destruct (decide (user_id b ∈ votedUsers p)) as [Hold|Hnew].
  { rewrite (collect_ignores_repeat k p b Hold). lia. }
  simpl.
  assert (collect k p b =
          if is_yes k b
          then {| yesVotes := S (yesVotes p); noVotes := noVotes p;
                  votedUsers := {[user_id b]} ∪ votedUsers p |}
          else {| yesVotes := yesVotes p; noVotes := S (noVotes p);
                  votedUsers := {[user_id b]} ∪ votedUsers p |}) as Hc.
  { unfold collect. rewrite Hd. simpl.
    destruct (decide (user_id b ∈ votedUsers p)); [contradiction|reflexivity]. }
  rewrite Hc. clear Hc.
  destruct (is_yes k b); simpl; lia.
Qed.

(** C1. In each of the three polls (mode switch, skip, file play), with the
    ballots applied in arrival order: the poll passes exactly when the yes
    tally is strictly greater than the no tally, so a tie fails and the
    empty poll fails; a ballot from an identity that has already voted
    leaves the poll (both tallies and the set of voters) unchanged; the
    ballots that were counted come from pairwise distinct identities, they
    are the only source of the tallies, and the two tallies add up to the
    number of identities that voted, at most the number of ballots cast. *)
Theorem vote_majority_one_ballot_per_voter (k : Kind) (bs : list Interaction) :
  let p := collectAll k bs in
  let cs := counted k newPoll bs in
  (pollPassed p = true <-> yesVotes p > noVotes p)
  /\ (yesVotes p = noVotes p -> pollPassed p = false)
  /\ pollPassed newPoll = false
  /\ (forall i, user_id i ∈ votedUsers p -> collect k p i = p)
  /\ NoDup (user_id <$> cs)
  /\ cs `sublist_of` bs
  /\ yesVotes p = length (List.filter (is_yes k) cs)
  /\ noVotes p = length (List.filter (fun i => negb (is_yes k i)) cs)
  /\ yesVotes p + noVotes p = size (votedUsers p)
  /\ yesVotes p + noVotes p <= length bs.
Proof.
  intros p cs. subst p cs. unfold collectAll.
  destruct (counted_tallies k bs newPoll) as [Hy Hn]. simpl in Hy, Hn.
  assert (tally_ok (fold_left (collect k) bs newPoll)) as Hok.
  { apply fold_collect_tally_ok. unfold tally_ok. reflexivity. }
  repeat split.
  - unfold pollPassed. intros H. apply Nat.ltb_lt in H. lia.
  - unfold pollPassed. intros H. apply Nat.ltb_lt. lia.
  - unfold pollPassed. intros H. apply Nat.ltb_ge. lia.
  - apply collect_ignores_repeat.
  - apply counted_NoDup.
  - apply counted_sublist.
  - exact Hy.
  - exact Hn.
  - exact Hok.
  - rewrite Hy, Hn.
    pose proof (sublist_length _ _ (counted_sublist k bs newPoll)) as Hlen.
    rewrite <- length_app.
    assert (forall l : list Interaction,
      length (List.filter (is_yes k) l ++ List.filter (fun i => negb (is_yes k i)) l)
      = length l) as Hpart.
    { induction l as [|x l IHl]; simpl; [reflexivity|].
      destruct (is_yes k x); simpl; [lia|].
      rewrite length_app in *. simpl. lia. }
    rewrite Hpart. exact Hlen.
Qed.

(** Scenario 1 of the specification: one yes and one no ballot fail. *)
Example vote_scenario_tie :
  pollPassed (collectAll SkipItem
    [ {| user_id := "1"; customId := "skip_poll_yes"; deferUpdate_ok := true |};
      {| user_id := "2"; customId := "skip_poll_no"; deferUpdate_ok := true |} ]) = false.
Proof. vm_compute. reflexivity. Qed.

(** Scenario 2: yes, yes, no passes. *)
Example vote_scenario_majority :
  pollPassed (collectAll SkipItem
    [ {| user_id := "1"; customId := "skip_poll_yes"; deferUpdate_ok := true |};
      {| user_id := "2"; customId := "skip_poll_yes"; deferUpdate_ok := true |};
      {| user_id := "3"; customId := "skip_poll_no"; deferUpdate_ok := true |} ]) = true.
Proof. vm_compute. reflexivity. Qed.

End VoteFacts.

(* ===================================================================== *)
(** * Properties of the skip command                                      *)
(* ===================================================================== *)

Section SkipFacts.

Lemma startSkipPoll_outcome (env : SkipEnv) (fx : list Effect) (b : Bot) :
  startSkipPoll env fx b
  = (if sk_pollSend_ok env
     then SkipPollStarted (currentSkipPollTimeoutMs (consecutiveSkipVotes b))
     else SkipPollNotSent,
     if sk_pollSend_ok env
     then set_skipVoteCooldownEndTimestamp (sk_now env + SKIP_VOTE_COOLDOWN_MS) b
     else set_skipVoteCooldownEndTimestamp 0
            (set_skipVoteCooldownEndTimestamp (sk_now env + SKIP_VOTE_COOLDOWN_MS) b),
     fx ++ [Reply (MsgSkipPoll (currentSkipPollTimeoutMs (consecutiveSkipVotes b)))]).
Proof. unfold startSkipPoll. destruct (sk_pollSend_ok env); reflexivity. Qed.

Lemma filter_length_Permutation {A} (f : A -> bool) (l l' : list A) :
  l ≡ₚ l' -> length (List.filter f l) = length (List.filter f l').
Proof.
  induction 1 as [|x l l' _ IH|x y l|l l' l'' _ IH1 _ IH2]; cbn.
  - reflexivity.
  - destruct (f x); cbn; rewrite IH; reflexivity.
  - destruct (f x), (f y); reflexivity.
  - rewrite IH1. exact IH2.
Qed.

(** The members the bypass test counts are the members that are not
    bots, however the channel lists them. *)
Lemma humanMembers_count (ms humans bots : list Member) :
  ms ≡ₚ humans ++ bots ->
  Forall (fun m => is_bot m = false) humans ->
  Forall (fun m => is_bot m = true) bots ->
  length (humanMembers ms) = length humans.
Proof.
  intros Hperm Hh Hb. unfold humanMembers.
  rewrite (filter_length_Permutation _ _ _ Hperm), List.filter_app, length_app.
  assert (List.filter (fun m => negb (is_bot m)) humans = humans) as ->.
  { clear Hperm. induction Hh as [|m l Hm _ IH]; [reflexivity|].
    cbn. rewrite Hm. cbn. f_equal. exact IH. }
  assert (List.filter (fun m => negb (is_bot m)) bots = []) as ->.
  { clear Hperm. induction Hb as [|m l Hm _ IH]; [reflexivity|].
    cbn. rewrite Hm. cbn. exact IH. }
  cbn. lia.
Qed.

(** C5. A [!skip] request that reaches the bypass test (custom mode is
    active, the cooldown is over, the skip script and the voice channel are
    configured, and the voice channel is fetched).  Let the members of the
    channel be, in any order, the humans [humans] and the bots [bots].
    The command runs the skip script at once, without any poll, exactly
    when there are two humans, however many bots are present; with any
    other number of humans (none, one, three, more) no script is run by
    the command and the poll message is sent, with the duration computed
    from the streak, and a sent poll is a started poll. *)
Theorem skip_bypass_iff_exactly_two_humans
    (cfg : Config) (env : SkipEnv) (b : Bot) (ms humans bots : list Member) :
  isCustomModeActive b = true ->
  (skipVoteCooldownEndTimestamp b <= sk_now env)%Z ->
  skipCustomAhkPath cfg = true ->
  sk_script_exists env = true ->
  targetVoiceChannel cfg = true ->
  sk_channel env = GuildVoice ms ->
  ms ≡ₚ humans ++ bots ->
  Forall (fun m => is_bot m = false) humans ->
  Forall (fun m => is_bot m = true) bots ->
  let out := skipCommand cfg env b in
  let timeout := currentSkipPollTimeoutMs (consecutiveSkipVotes b) in
  (length humans = 2 ->
     out.1.1 = SkipBypassed (sk_script_ok env)
     /\ RunAhkScript SkipCustomAhkPath ∈ out.2
     /\ (forall t, Reply (MsgSkipPoll t) ∉ out.2))
  /\ (length humans <> 2 ->
     (forall s, RunAhkScript s ∉ out.2)
     /\ Reply (MsgSkipPoll timeout) ∈ out.2
     /\ out.1.1 = (if sk_pollSend_ok env then SkipPollStarted timeout
                   else SkipPollNotSent)).
Proof.
  intros Hmode Hcool Hpath Hexists Hvc Hch Hperm Hhumans Hbots out timeout.
  subst out timeout.
  unfold skipCommand. rewrite Hmode, Hpath, Hexists, Hvc, Hch. simpl.
  assert ((sk_now env <? skipVoteCooldownEndTimestamp b)%Z = false) as ->
    by (apply Z.ltb_ge; exact Hcool).
  rewrite (humanMembers_count ms humans bots Hperm Hhumans Hbots).
  split; intros Hn.
  - rewrite Hn. simpl. destruct (sk_script_ok env); simpl.
    + split; [reflexivity|]. split; [set_solver|]. intros t Hin.
      repeat (apply elem_of_cons in Hin as [Hin|Hin]; [discriminate|]).
      inversion Hin.
    + split; [reflexivity|]. split; [set_solver|]. intros t Hin.
      repeat (apply elem_of_cons in Hin as [Hin|Hin]; [discriminate|]).
      inversion Hin.
  - apply Nat.eqb_neq in Hn. rewrite Hn. rewrite startSkipPoll_outcome. simpl.
    split; [|split; [set_solver|reflexivity]].
    intros s Hin.
    repeat (apply elem_of_cons in Hin as [Hin|Hin]; [discriminate|]).
    inversion Hin.
Qed.

(** With two humans and a bot in the channel, three members in all, the
    script runs and no poll is sent; with a human and two bots, three
    members again, and with three humans, the poll is sent and no script
    runs. *)
Lemma skip_bypass_witness :
  let two := skipCommand sampleConfig
               (skipAt 1000 (GuildVoice [human "1"; robot "9"; human "2"])) customBot in
  let one := skipCommand sampleConfig
               (skipAt 1000 (GuildVoice [robot "8"; human "1"; robot "9"])) customBot in
  let three := skipCommand sampleConfig
                 (skipAt 1000 (GuildVoice [human "1"; human "2"; human "3"])) customBot in
  (two.1.1 = SkipBypassed true
   /\ RunAhkScript SkipCustomAhkPath ∈ two.2
   /\ (forall t, Reply (MsgSkipPoll t) ∉ two.2))
  /\ ((forall s, RunAhkScript s ∉ one.2)
      /\ Reply (MsgSkipPoll 30000) ∈ one.2
      /\ one.1.1 = SkipPollStarted 30000)
  /\ ((forall s, RunAhkScript s ∉ three.2)
      /\ Reply (MsgSkipPoll 30000) ∈ three.2
      /\ three.1.1 = SkipPollStarted 30000).
Proof.
  intros two one three. split; [|split].
  - refine (proj1 (skip_bypass_iff_exactly_two_humans sampleConfig
             (skipAt 1000 (GuildVoice [human "1"; robot "9"; human "2"])) customBot
             [human "1"; robot "9"; human "2"] [human "1"; human "2"] [robot "9"]
             eq_refl _ eq_refl eq_refl eq_refl eq_refl _ _ _) eq_refl).
    + simpl. lia.
    + apply perm_skip, perm_swap.
    + repeat constructor.
    + repeat constructor.
  - refine (proj2 (skip_bypass_iff_exactly_two_humans sampleConfig
             (skipAt 1000 (GuildVoice [robot "8"; human "1"; robot "9"])) customBot
             [robot "8"; human "1"; robot "9"] [human "1"] [robot "8"; robot "9"]
             eq_refl _ eq_refl eq_refl eq_refl eq_refl _ _ _) _).
    + simpl. lia.
    + apply perm_swap.
    + repeat constructor.
    + repeat constructor.
    + simpl. lia.
  - refine (proj2 (skip_bypass_iff_exactly_two_humans sampleConfig
             (skipAt 1000 (GuildVoice [human "1"; human "2"; human "3"])) customBot
             [human "1"; human "2"; human "3"] [human "1"; human "2"; human "3"] []
             eq_refl _ eq_refl eq_refl eq_refl eq_refl _ _ _) _).
    + simpl. lia.
    + reflexivity.
    + repeat constructor.
    + repeat constructor.
    + simpl. lia.
Defined.

Example skip_three_humans_polls :
  (skipCommand sampleConfig
     (skipAt 1000 (GuildVoice [human "1"; human "2"; human "3"])) customBot).1.1
  = SkipPollStarted 30000.
Proof. vm_compute. reflexivity. Qed.

Example skip_one_human_polls :
  (skipCommand sampleConfig (skipAt 1000 (GuildVoice [human "1"; robot "9"])) customBot).1.1
  = SkipPollStarted 30000.
Proof. vm_compute. reflexivity. Qed.

End SkipFacts.

Section SkipStreakFacts.

Lemma skipCommand_poll_duration (cfg : Config) (env : SkipEnv) (b b' : Bot)
    (t : Z) (fx : list Effect) :
  skipCommand cfg env b = (SkipPollStarted t, b', fx) ->
  t = currentSkipPollTimeoutMs (consecutiveSkipVotes b)
  /\ consecutiveSkipVotes b' = consecutiveSkipVotes b.
Proof.
  unfold skipCommand.
  destruct (isCustomModeActive b); simpl; [|discriminate].
  destruct (_ <? _)%Z; [discriminate|].
  destruct (negb (skipCustomAhkPath cfg) || negb (sk_script_exists env)); [discriminate|].
  destruct (targetVoiceChannel cfg); simpl; [|discriminate].
  destruct (sk_channel env) as [| |ms].
  3: destruct (length (humanMembers ms) =? 2);
       [destruct (sk_script_ok env); discriminate|].
  all: rewrite startSkipPoll_outcome; destruct (sk_pollSend_ok env); [|discriminate].
  all: intros [= <- <- _]; split; reflexivity.
Qed.

Lemma skipPollEnd_passed (env : SkipEndEnv) (p : Vote.Poll) (b b' : Bot)
    (fx : list Effect) :
  skipPollEnd env p b = (true, b', fx) ->
  consecutiveSkipVotes b' = S (consecutiveSkipVotes b).
Proof.
  unfold skipPollEnd. destruct (Vote.pollPassed p); [|discriminate].
  destruct (se_statusSend_ok env); simpl; [|discriminate].
  destruct (se_script_ok env); simpl; [|discriminate].
  destruct (se_report_ok env); [|discriminate].
  intros [= <- _]. reflexivity.
Qed.

(** C6, as the specification states it, fails: after entering custom mode
    (streak 0) a first skip vote passes and its script runs, then a second
    skip vote passes too.  The second vote lasted 25000 ms, that is
    base - decrement, not max(floor, base - 2 * decrement) = 20000 ms. *)
Lemma skip_second_vote_duration_counterexample :
  let three := GuildVoice [human "1"; human "2"; human "3"] in
  let first := skipCommand sampleConfig (skipAt 1000 three) customBot in
  let firstEnd := skipPollEnd skipEndOk (oneYes Vote.SkipItem) first.1.2 in
  let second := skipCommand sampleConfig (skipAt 100000 three) firstEnd.1.2 in
  let secondEnd := skipPollEnd skipEndOk (oneYes Vote.SkipItem) second.1.2 in
  first.1.1 = SkipPollStarted 30000
  /\ firstEnd.1.1 = true
  /\ second.1.1 = SkipPollStarted 25000
  /\ secondEnd.1.1 = true
  /\ second.1.1 <> SkipPollStarted
       (Z.max MIN_SKIP_POLL_DURATION_MS
              (SKIP_POLL_TIMEOUT_MS - 2 * SKIP_POLL_DECREMENT_MS)).
Proof. vm_compute. repeat split; discriminate. Qed.

(** The bypass path does not reset the streak when its script fails (the
    poll path does). *)
Example skip_bypass_failure_keeps_streak :
  let two := GuildVoice [human "1"; human "2"] in
  let b := set_consecutiveSkipVotes 3 customBot in
  let env := {| sk_now := 1000; sk_script_exists := true; sk_channel := two;
                sk_script_ok := false; sk_later := 1001; sk_pollSend_ok := true |} in
  (skipCommand sampleConfig env b).1.1 = SkipBypassed false
  /\ consecutiveSkipVotes (skipCommand sampleConfig env b).1.2 = 3.
Proof. vm_compute. split; reflexivity. Qed.

(** C6, amended.  The duration of a skip vote is
    max(floor, base - streak * decrement) for the streak counted when the
    vote starts, with base 30000 ms, decrement 5000 ms and floor 5000 ms: it
    lies between floor and base, does not grow with the streak and is the
    floor from a streak of five on.  When a skip vote passes (script run
    included) twice in a row, the first vote lasted
    max(floor, base - s * decrement) for the streak s it started with, the
    second max(floor, base - (s+1) * decrement), and the vote started next
    lasts max(floor, base - (s+2) * decrement); from s = 0 these are
    30000, 25000 and 20000 ms.  After a passed skip vote whose script
    fails, and after a failed or tied skip vote, the streak is zero. *)
Theorem skip_vote_duration_follows_streak
    (cfg : Config) (c1 c2 c3 : SkipEnv) (e1 e2 : SkipEndEnv) (p1 p2 : Vote.Poll)
    (b b1 b2 b3 b4 b5 : Bot) (t1 t2 t3 : Z) (f1 f2 f3 f4 f5 : list Effect) :
  skipCommand cfg c1 b = (SkipPollStarted t1, b1, f1) ->
  skipPollEnd e1 p1 b1 = (true, b2, f2) ->
  skipCommand cfg c2 b2 = (SkipPollStarted t2, b3, f3) ->
  skipPollEnd e2 p2 b3 = (true, b4, f4) ->
  skipCommand cfg c3 b4 = (SkipPollStarted t3, b5, f5) ->
  let s := Z.of_nat (consecutiveSkipVotes b) in
  let duration (k : Z) :=
    Z.max MIN_SKIP_POLL_DURATION_MS (SKIP_POLL_TIMEOUT_MS - k * SKIP_POLL_DECREMENT_MS) in
  (t1 = duration s /\ t2 = duration (s + 1) /\ t3 = duration (s + 2))%Z
  /\ (s = 0 -> t1 = 30000 /\ t2 = 25000 /\ t3 = 20000)%Z
  /\ (forall n m : nat,
        (MIN_SKIP_POLL_DURATION_MS <= currentSkipPollTimeoutMs n <= SKIP_POLL_TIMEOUT_MS)%Z
        /\ ((n <= m)%nat ->
            (currentSkipPollTimeoutMs m <= currentSkipPollTimeoutMs n)%Z)
        /\ ((5 <= n)%nat -> currentSkipPollTimeoutMs n = MIN_SKIP_POLL_DURATION_MS))
  /\ (forall (e : SkipEndEnv) (p : Vote.Poll) (b0 : Bot),
        Vote.pollPassed p = true -> se_script_ok e = false ->
        consecutiveSkipVotes (skipPollEnd e p b0).1.2 = 0
        /\ (skipPollEnd e p b0).1.1 = false)
  /\ (forall (e : SkipEndEnv) (p : Vote.Poll) (b0 : Bot),
        Vote.pollPassed p = false ->
        consecutiveSkipVotes (skipPollEnd e p b0).1.2 = 0).
Proof.
  intros H1 H2 H3 H4 H5 s duration.
  apply skipCommand_poll_duration in H1 as [-> Hs1].
  apply skipPollEnd_passed in H2.
  apply skipCommand_poll_duration in H3 as [-> Hs3].
  apply skipPollEnd_passed in H4.
  apply skipCommand_poll_duration in H5 as [-> Hs5].
  assert (consecutiveSkipVotes b2 = S (consecutiveSkipVotes b)) as E2 by congruence.
  assert (consecutiveSkipVotes b4 = S (S (consecutiveSkipVotes b))) as E4 by congruence.
  rewrite E2, E4. subst s duration.
  unfold currentSkipPollTimeoutMs, MIN_SKIP_POLL_DURATION_MS, SKIP_POLL_TIMEOUT_MS,
    SKIP_POLL_DECREMENT_MS.
  split; [|split; [|split; [|split]]].
  - repeat split; f_equal; lia.
  - intros H0. rewrite !Nat2Z.inj_succ, H0. repeat split; reflexivity.
  - intros n m. repeat split; try lia.
  - intros e p b0 Hp Hs. unfold skipPollEnd. rewrite Hp, Hs. simpl.
    destruct (se_statusSend_ok e); simpl; split; reflexivity.
  - intros e p b0 Hp. unfold skipPollEnd. rewrite Hp. reflexivity.
Qed.

(** The run of the counterexample, read through the theorem. *)
Lemma skip_vote_duration_witness :
  (30000 = Z.max 5000 (30000 - 0 * 5000)
   /\ 25000 = Z.max 5000 (30000 - (0 + 1) * 5000)
   /\ 20000 = Z.max 5000 (30000 - (0 + 2) * 5000))%Z.
Proof.
  pose (three := GuildVoice [human "1"; human "2"; human "3"]).
  pose (first := skipCommand sampleConfig (skipAt 1000 three) customBot).
  pose (firstEnd := skipPollEnd skipEndOk (oneYes Vote.SkipItem) first.1.2).
  pose (second := skipCommand sampleConfig (skipAt 100000 three) firstEnd.1.2).
  pose (secondEnd := skipPollEnd skipEndOk (oneYes Vote.SkipItem) second.1.2).
  pose (third := skipCommand sampleConfig (skipAt 200000 three) secondEnd.1.2).
  exact (proj1 (skip_vote_duration_follows_streak sampleConfig
           (skipAt 1000 three) (skipAt 100000 three) (skipAt 200000 three)
           skipEndOk skipEndOk (oneYes Vote.SkipItem) (oneYes Vote.SkipItem)
           customBot first.1.2 firstEnd.1.2 second.1.2 secondEnd.1.2 third.1.2
           30000 25000 20000 first.2 firstEnd.2 second.2 secondEnd.2 third.2
           eq_refl eq_refl eq_refl eq_refl eq_refl)).
Defined.

End SkipStreakFacts.

(* ===================================================================== *)
(** * Properties of the event renaming helper                             *)
(* ===================================================================== *)

Section EventFacts.

Lemma set_managedGuildEvent_twice (x y : option GuildEvent) (b : Bot) :
  set_managedGuildEvent x (set_managedGuildEvent y b) = set_managedGuildEvent x b.
Proof. reflexivity. Qed.

Lemma set_managedGuildEvent_same (b : Bot) :
  set_managedGuildEvent (managedGuildEvent b) b = b.
Proof. destruct b; reflexivity. Qed.

Lemma findOrCreate_event_calls (cfg : Config) (show : option jsstring)
    (api : EventApi) (b : Bot) :
  Forall (fun e => is_event_call e = true) (findOrCreateManagedEvent cfg show api b).2.
Proof.
  unfold findOrCreateManagedEvent.
  repeat case_match; simpl; repeat constructor.
Qed.

(** [updateEventNameInternal] writes no global but [managedGuildEvent] and
    calls nothing but the scheduled-event API. *)
Lemma updateEventNameInternal_frame (cfg : Config) (show : option jsstring)
    (api : EventApi) (newName : option jsstring) (b : Bot) :
  let r := updateEventNameInternal cfg show api newName b in
  (exists e, r.1.2 = set_managedGuildEvent e b)
  /\ Forall (fun e => is_event_call e = true) r.2.
Proof.
  pose proof (findOrCreate_event_calls cfg show api b) as Hfc.
  destruct b as [m s c t v p g q a j k].
  unfold updateEventNameInternal. cbn [managedGuildEvent].
  repeat case_match; simplify_eq/=.
  all: split; [eexists; reflexivity|].
  all: rewrite ?Forall_app; repeat split; try assumption.
  all: try (repeat constructor).
Qed.

(** C9, as the specification states it, fails: in custom mode the handle
    caches the name 'Custom Channel' and is still Scheduled past its start
    time; renaming to 'Custom Channel' computes the cached name, and the
    helper still calls the event API twice (activation and re-fetch). *)
Lemma rename_same_name_counterexample :
  let r := updateEventNameInternal sampleConfig None (sampleApi 10)
             (Some customChannel) customBotPastDue in
  finalName true customChannel (Some customChannel) = Some customChannel
  /\ r.2 = [EventSetStatusActive 7; EventFetch 7]
  /\ r.2 <> [].
Proof. vm_compute. repeat split; discriminate. Qed.

(** C9, amended.  When the name computed for the rename (custom-mode prefix
    and truncation included) equals the name cached in a live handle, the
    helper performs no rename and no forced fetch: if the event is not a
    Scheduled event past its start time it performs no call at all, leaves
    every global unchanged and reports success; if it is, its only calls
    are the activation of the event and, when that succeeds, one re-fetch.
    The title poll returns without any event call and without writing a
    global when the name it computes equals the cached name. *)
Theorem rename_skipped_when_name_cached `{NodePath}
    (cfg : Config) (show : option jsstring) (api : EventApi)
    (newName : option jsstring) (b : Bot) (e : GuildEvent) :
  targetVoiceChannel cfg = true ->
  managedGuildEvent b = Some e ->
  is_terminal e = false ->
  finalName (isCustomModeActive b) (ev_name e) newName = Some (ev_name e) ->
  let r := updateEventNameInternal cfg show api newName b in
  (forall id n, EventEdit id n ∉ r.2)
  /\ (past_due api e = false -> r = (true, b, []))
  /\ (past_due api e = true ->
       r.2 = [EventSetStatusActive (ev_id e)]
       \/ r.2 = [EventSetStatusActive (ev_id e); EventFetch (ev_id e)])
  /\ (forall (vlcTitle : option jsstring) (fetched : option GuildEvent),
        let title := match vlcTitle with
                     | Some raw => if bool_decide (raw = []) then customChannel
                                   else js_trim (path_basename_ext raw (path_extname raw))
                     | None => customChannel
                     end in
        ev_name e = substring0 100 (if negb (jseq title customChannel)
                                    then customChannelPrefix ++ title
                                    else customChannel) ->
        let c := checkAndUpdateVlcEventTitle cfg show vlcTitle fetched api b in
        c.1 = b /\ Forall (fun x => is_event_call x = false) c.2).
Proof.
  intros Hvc He Hlive Hfinal r.
  assert (r = if past_due api e
              then match setStatus_error api with
                   | Some UnknownScheduledEvent =>
                       (false, set_managedGuildEvent None b,
                        [EventSetStatusActive (ev_id e)])
                   | Some OtherApiError => (false, b, [EventSetStatusActive (ev_id e)])
                   | None =>
                       match refetch api with
                       | inl f => (true, set_managedGuildEvent (Some f) b,
                                   [EventSetStatusActive (ev_id e); EventFetch (ev_id e)])
                       | inr UnknownScheduledEvent =>
                           (false, set_managedGuildEvent None b,
                            [EventSetStatusActive (ev_id e); EventFetch (ev_id e)])
                       | inr OtherApiError =>
                           (false, b,
                            [EventSetStatusActive (ev_id e); EventFetch (ev_id e)])
                       end
                   end
              else (true, b, [])) as Hr.
  { subst r. unfold updateEventNameInternal.
    rewrite Hvc, He, Hlive, Hfinal. cbn [negb].
    unfold jseq. rewrite !bool_decide_eq_true_2 by reflexivity. cbn [negb].
    rewrite Hlive. rewrite ?bool_decide_eq_true_2 by reflexivity. cbn [negb].
    destruct (past_due api e); [|reflexivity].
    destruct (setStatus_error api) as [[]|]; [reflexivity|reflexivity|].
    destruct (refetch api) as [?|[]]; reflexivity. }
  clearbody r. subst r.
  split; [|split; [|split]].
  - intros id n Hin. destruct (past_due api e).
    + destruct (setStatus_error api) as [[]|]; [| |destruct (refetch api) as [?|[]]];
        simpl in Hin;
        repeat (apply elem_of_cons in Hin as [Hin|Hin]; [discriminate|]);
        inversion Hin.
    + simpl in Hin. inversion Hin.
  - intros ->. reflexivity.
  - intros ->.
    destruct (setStatus_error api) as [[]|]; [| |destruct (refetch api) as [?|[]]];
      simpl; auto.
  - intros vlcTitle fetched title Hname c. subst c.
    unfold checkAndUpdateVlcEventTitle. rewrite He.
    destruct (negb (isCustomModeActive b) || negb (targetVoiceChannel cfg));
      [split; [reflexivity|constructor]|].
    fold title. rewrite <- Hname.
    assert (jseq (ev_name e) (ev_name e) = true) as ->
      by (apply bool_decide_eq_true_2; reflexivity).
    split; [reflexivity|repeat constructor].
Qed.

(** Renaming to 'Custom Channel' an active event that already carries
    that name calls nothing. *)
Lemma rename_skipped_witness :
  updateEventNameInternal sampleConfig None (sampleApi 10) (Some customChannel)
    (set_managedGuildEvent (Some (sampleEvent customChannel Active 0)) customBot)
  = (true, set_managedGuildEvent (Some (sampleEvent customChannel Active 0)) customBot, []).
Proof.
  refine (proj1 (proj2 (rename_skipped_when_name_cached (H := samplePath)
            sampleConfig None (sampleApi 10) (Some customChannel)
            (set_managedGuildEvent (Some (sampleEvent customChannel Active 0)) customBot)
            (sampleEvent customChannel Active 0) eq_refl eq_refl eq_refl _)) eq_refl).
  vm_compute. reflexivity.
Defined.

End EventFacts.

(* ===================================================================== *)
(** * Properties of the mode transitions                                  *)
(* ===================================================================== *)

Section ModeFacts.

(** C3. Vote-driven transitions keep the mode when their script fails.
    Entering: if a switch-to-custom poll passes while the mode is
    Scheduled and the 'enter custom' script throws, no global changes (the
    mode stays Scheduled), the handler reports that the poll did not take
    effect, and the failure text is sent to the channel after the script
    was tried.  Leaving: if the 'exit custom' script throws while the mode
    is Custom, [endCustomMode] returns [false], the mode stays Custom (and
    the streak is kept), and the failure text is sent to the requester
    after the script was tried. *)
Theorem vote_transition_script_failure_keeps_mode
    (cfg : Config) (show : option jsstring) :
  (forall (env : PollEndEnv) (p : Vote.Poll) (b : Bot),
     isCustomModeActive b = false ->
     Vote.pollPassed p = true ->
     pe_statusSend_ok env = true ->
     pe_script_ok env = false ->
     let r := customPollEnd cfg show env p b in
     r.1.2 = b
     /\ isCustomModeActive r.1.2 = false
     /\ r.1.1 = false
     /\ (exists pre post,
           r.2 = pre ++ [RunAhkScript CustomAhkPathTo; Send MsgSwitchScriptFailed] ++ post))
  /\ (forall (who : Initiator) (env : EndEnv) (b : Bot),
     isCustomModeActive b = true ->
     (who = FromInteraction \/ ee_status_ok env = true) ->
     ee_script_ok env = false ->
     let r := endCustomMode cfg show who env b in
     isCustomModeActive r.1.2 = true
     /\ consecutiveSkipVotes r.1.2 = consecutiveSkipVotes b
     /\ r.1.1 = false
     /\ (exists pre,
           r.2 = pre ++ [RunAhkScript CustomAhkPathBack; feedback who MsgSwitchBackFailed])).
Proof.
  split.
  - intros env p b Hmode Hp Hsend Hscript r. subst r.
    unfold customPollEnd. rewrite Hp, Hsend, Hscript. simpl.
    repeat split; try assumption.
    exists (edit_if (pe_editable env)
              (MsgPollPassedSwitching (Vote.yesVotes p) (Vote.noVotes p))
            ++ [Send MsgExecutingSwitch]),
           (edit_if (pe_editable env)
              (MsgPollPassedScriptFailed (Vote.yesVotes p) (Vote.noVotes p))).
    rewrite <- !app_assoc. reflexivity.
  - intros who env b Hmode Hstatus Hscript r. subst r.
    unfold endCustomMode.
    assert (isCustomModeActive
              (set_stillWatchingPromptMessage false
                 (stopVlcTitleCheckInterval (set_customModeTimerId false b)))
            = true) as Hm.
    { unfold stopVlcTitleCheckInterval. simpl.
      destruct (vlcTitleCheckIntervalId b); exact Hmode. }
    rewrite Hm, Hscript. simpl.
    assert (match who with
            | FromInteraction => false
            | _ => negb (ee_status_ok env)
            end = false) as ->.
    { destruct Hstatus as [->| ->]; [reflexivity|destruct who; reflexivity]. }
    simpl. split; [exact Hm|]. split.
    { unfold stopVlcTitleCheckInterval. simpl.
      destruct (vlcTitleCheckIntervalId b); reflexivity. }
    split; [reflexivity|].
    eexists (_ ++ [_]). rewrite <- app_assoc. reflexivity.
Qed.

(** Scenario 4 of the specification, and its counterpart for [!ptv]. *)
Lemma vote_transition_script_failure_witness :
  (let r := customPollEnd sampleConfig None switchScriptFails
              (oneYes Vote.ModeSwitch) initialBot in
   r.1.2 = initialBot /\ isCustomModeActive r.1.2 = false /\ r.1.1 = false
   /\ (exists pre post,
         r.2 = pre ++ [RunAhkScript CustomAhkPathTo; Send MsgSwitchScriptFailed] ++ post))
  /\ (let r := endCustomMode sampleConfig None FromMessage backScriptFails customBot in
      isCustomModeActive r.1.2 = true
      /\ consecutiveSkipVotes r.1.2 = consecutiveSkipVotes customBot
      /\ r.1.1 = false
      /\ (exists pre,
            r.2 = pre ++ [RunAhkScript CustomAhkPathBack;
                          feedback FromMessage MsgSwitchBackFailed])).
Proof.
  split.
  - exact (proj1 (vote_transition_script_failure_keeps_mode sampleConfig None)
             switchScriptFails (oneYes Vote.ModeSwitch) initialBot
             eq_refl eq_refl eq_refl eq_refl).
  - exact (proj2 (vote_transition_script_failure_keeps_mode sampleConfig None)
             FromMessage backScriptFails customBot
             eq_refl (or_intror eq_refl) eq_refl).
Defined.

(** C4, as the specification states it, fails: an admin forces the mode
    from Scheduled to Custom on a fully configured bot; the mode flips, but
    no script is run on the way, and in particular not the 'enter custom'
    script.  The same holds for the way back. *)
Lemma admin_toggle_runs_no_script_counterexample :
  let forth := toggle sampleConfig None true (sampleApi 10) initialBot in
  let back := toggle sampleConfig None true (sampleApi 10) forth.1 in
  isCustomModeActive forth.1 = true
  /\ (RunAhkScript CustomAhkPathTo ∉ forth.2)
  /\ List.filter is_script_run forth.2 = []
  /\ isCustomModeActive back.1 = false
  /\ (RunAhkScript CustomAhkPathBack ∉ back.2)
  /\ List.filter is_script_run back.2 = [].
Proof.
  vm_compute. repeat split; try reflexivity.
  all: intros Hin;
    repeat (apply elem_of_cons in Hin as [Hin|Hin]; [discriminate|]);
    inversion Hin.
Qed.

(** C4, amended.  When an admin forces a mode transition on a bot whose two
    transition scripts and voice channel are configured, the mode flag
    flips to the other mode and the skip streak is reset, whatever the
    event API answers; no transition script (indeed no script at all) is
    run, so no script outcome is involved, and the reply says that the
    scripts were not run. *)
Theorem admin_toggle_flips_mode_without_script
    (cfg : Config) (show : option jsstring) (api : EventApi) (b : Bot) :
  customAhkPathTo cfg = true ->
  customAhkPathBack cfg = true ->
  targetVoiceChannel cfg = true ->
  let r := toggle cfg show true api b in
  isCustomModeActive r.1 = negb (isCustomModeActive b)
  /\ consecutiveSkipVotes r.1 = 0
  /\ (forall s, RunAhkScript s ∉ r.2)
  /\ (exists pre, r.2 = pre ++ [Reply (if isCustomModeActive b then MsgToggledFrom
                                        else MsgToggledTo)]).
Proof.
  intros Hto Hback Hvc r. subst r. unfold toggle.
  rewrite Hto, Hback, Hvc. cbn [negb orb].
  assert (forall fx : list Effect,
            Forall (fun e => is_event_call e = true) fx ->
            forall s, RunAhkScript s ∉ fx) as Hno.
  { intros fx Hfx s Hin. rewrite Forall_forall in Hfx.
    apply Hfx in Hin. discriminate. }
  destruct (isCustomModeActive b) eqn:Hmode; cbn [negb isCustomModeActive set_isCustomModeActive].
  - match goal with
    | |- context [updateEventNameInternal ?c ?s ?a ?n ?x] =>
        pose proof (updateEventNameInternal_frame c s a n x) as Hframe;
        destruct (updateEventNameInternal c s a n x) as [[ok b3] fx3]
    end.
    cbn zeta in Hframe. cbn [fst snd] in Hframe. destruct Hframe as [[e ->] Hfx].
    cbn [fst snd]. split; [|split; [reflexivity|split]].
    + unfold stopVlcTitleCheckInterval. simpl.
      destruct (vlcTitleCheckIntervalId b); reflexivity.
    + intros s Hin. apply elem_of_app in Hin as [Hin|Hin].
      { destruct (stillWatchingPromptMessage _);
          [apply elem_of_cons in Hin as [Hin|Hin]; [discriminate|]|]; inversion Hin. }
      apply elem_of_app in Hin as [Hin|Hin]; [exact (Hno _ Hfx s Hin)|].
      apply elem_of_cons in Hin as [Hin|Hin]; [discriminate|inversion Hin].
    + eexists. rewrite app_assoc. reflexivity.
  - match goal with
    | |- context [updateEventNameInternal ?c ?s ?a ?n ?x] =>
        pose proof (updateEventNameInternal_frame c s a n x) as Hframe;
        destruct (updateEventNameInternal c s a n x) as [[ok b3] fx3]
    end.
    cbn zeta in Hframe. cbn [fst snd] in Hframe. destruct Hframe as [[e ->] Hfx].
    cbn [fst snd]. split; [|split; [reflexivity|split]].
    + unfold startCustomModeTimer, startVlcTitleCheckInterval. simpl.
      destruct (vlcTitleCheckIntervalId b); simpl; rewrite Hvc; reflexivity.
    + intros s Hin. apply elem_of_app in Hin as [Hin|Hin]; [exact (Hno _ Hfx s Hin)|].
      apply elem_of_cons in Hin as [Hin|Hin]; [discriminate|inversion Hin].
    + eexists. reflexivity.
Qed.

(** The forced switch to custom mode of the counterexample. *)
Lemma admin_toggle_witness :
  let r := toggle sampleConfig None true (sampleApi 10) initialBot in
  isCustomModeActive r.1 = true
  /\ consecutiveSkipVotes r.1 = 0
  /\ (forall s, RunAhkScript s ∉ r.2)
  /\ (exists pre, r.2 = pre ++ [Reply MsgToggledTo]).
Proof.
  exact (admin_toggle_flips_mode_without_script sampleConfig None (sampleApi 10)
           initialBot eq_refl eq_refl eq_refl).
Defined.

End ModeFacts.

(* ===================================================================== *)
(** * Properties of the sub-folder sanitiser                              *)
(* ===================================================================== *)

Section SubfolderFacts.
Context `{NodePath}.

Lemma drop_while_suffix {A} (p : A -> bool) (l : list A) :
  exists a, l = a ++ drop_while p l.
Proof.
  induction l as [|x l [a IH]]; simpl.
  - exists []. reflexivity.
  - destruct (p x).
    + exists (x :: a). simpl. f_equal. exact IH.
    + exists []. reflexivity.
Qed.

Lemma drop_while_end_prefix {A} (p : A -> bool) (l : list A) :
  exists a, l = drop_while_end p l ++ a.
Proof.
  unfold drop_while_end.
  destruct (drop_while_suffix p (rev l)) as [a Ha].
  exists (rev a). rewrite <- rev_app_distr, <- Ha. symmetry. apply rev_involutive.
Qed.




















End SubfolderFacts.


Example subfolder_traversal_run :
  let j := {| job_id := 0; url := lit "https://youtu.be/x"; sourceChannel := Some 1;
              user := {| uid := "42"; tag := lit "ann" |};
              subfolder := Some (lit "..\..\My Films?") |} in
  let env := {| prep_stat := StatFails; prep_dir_ready := true |} in
  sanitizeSubfolderName (H := samplePath) (lit "..\..\My Films?") = Some (lit "My_Films")
  /\ (prepareDownload (H := samplePath) (lit "C:\Videos") env j).2
     = [Stat (lit "C:\Videos\My_Films");
        YtDlpGetFilename j (lit "C:\Videos");
        Send (MsgDownloadStarting j (Some (SubfolderNotFound (lit "..\..\My Films?"))));
        YtDlpDownload j (lit "C:\Videos")].
Proof. vm_compute. split; reflexivity. Qed.

(** Leading and trailing dots go, an inner dot stays; a name made of
    separators and dots only is rejected. *)
Example sanitize_examples :
  sanitizeSubfolderName (H := samplePath) (lit ".hidden dir.") = Some (lit "hidden_dir")
  /\ sanitizeSubfolderName (H := samplePath) (lit "a..b") = Some (lit "a_b")
  /\ sanitizeSubfolderName (H := samplePath) (lit "..") = None
  /\ sanitizeSubfolderName (H := samplePath) (lit "_._") = Some (lit ".").
Proof. vm_compute. repeat split; reflexivity. Qed.

(* ===================================================================== *)
(** * Properties of the download queue                                    *)
(* ===================================================================== *)

Section QueueFacts.
Context `{NodePath}.

Lemma filter_elem (f : Job -> bool) (l : list Job) (x : Job) :
  x ∈ List.filter f l <-> x ∈ l /\ f x = true.
Proof. rewrite !list_elem_of_In. apply filter_In. Qed.

Lemma filter_sublist (f : Job -> bool) (l : list Job) :
  List.filter f l `sublist_of` l.
Proof.
  induction l as [|x l IH]; simpl; [constructor|].
  destruct (f x); [apply sublist_skip|apply sublist_cons]; exact IH.
Qed.

Lemma sorted_ids_sublist (l1 l2 : list Job) :
  l1 `sublist_of` l2 ->
  StronglySorted lt (job_id <$> l2) -> StronglySorted lt (job_id <$> l1).
Proof.
  induction 1 as [|x l1 l2 Hsub IH|x l1 l2 Hsub IH]; intros Hs.
  - constructor.
  - rewrite fmap_cons in *. apply StronglySorted_cons in Hs as [Hx Hs].
    apply StronglySorted_cons. split; [|apply IH, Hs].
    rewrite Forall_forall in *. intros y Hy. apply Hx.
    apply list_elem_of_fmap in Hy as (j & -> & Hj).
    apply list_elem_of_fmap. exists j. split; [reflexivity|].
    eapply elem_of_sublist; eassumption.
  - rewrite fmap_cons in Hs. apply StronglySorted_cons in Hs as [_ Hs]. apply IH, Hs.
Qed.

Lemma mkJobs_ids (n : nat) (r : YoutubeReq) (sub : option jsstring) (urls : list jsstring) :
  job_id <$> mkJobs n r sub urls = seq n (length urls).
Proof.
  revert n. induction urls as [|x urls IH]; intros n; [reflexivity|].
  cbn [mkJobs length seq]. rewrite fmap_cons. cbn [job_id]. f_equal. apply IH.
Qed.

Lemma seq_sorted (n k : nat) : StronglySorted lt (seq n k).
Proof.
  revert n. induction k as [|k IH]; intros n; simpl; constructor; [apply IH|].
  apply Forall_forall. intros x Hx. apply list_elem_of_In, in_seq in Hx. lia.
Qed.

Lemma inv_idle (cfg : Config) (w : World) :
  queue_inv cfg w -> isYoutubeDownloadActive (bot w) = false -> activations w = [].
Proof.
  intros Hinv Hf. rewrite (inv_flag _ _ Hinv) in Hf.
  apply bool_decide_eq_false in Hf. destruct (activations w); [reflexivity|].
  exfalso. apply Hf. discriminate.
Qed.

Lemma inv_busy (cfg : Config) (w : World) :
  queue_inv cfg w -> isYoutubeDownloadActive (bot w) = true ->
  exists a, activations w = [a].
Proof.
  intros Hinv Hf. pose proof (inv_one _ _ Hinv) as Hone.
  rewrite (inv_flag _ _ Hinv) in Hf. apply bool_decide_eq_true in Hf.
  destruct (activations w) as [|a [|a' l]]; [contradiction|eauto|simpl in Hone; lia].
Qed.

Lemma inv_initial (cfg : Config) : queue_inv cfg initialWorld.
Proof.
  constructor; simpl.
  - lia.
  - reflexivity.
  - intros a Ha. inversion Ha.
  - constructor.
  - constructor.
  - intros _ Hn. contradiction.
  - reflexivity.
Qed.

Lemma inv_enqueue (cfg : Config) (r : YoutubeReq) (sub : option jsstring)
    (urls : list jsstring) (w : World) :
  videoDownloadFolder cfg <> None ->
  queue_inv cfg w -> queue_inv cfg (enqueue r sub urls w).
Proof.
  intros Hfolder [Hone Hflag Hcur Hord Hcre Htim Hfol].
  destruct w as [b cs acts qc cr st fin]. destruct b. simpl in *.
  constructor; simpl; try assumption.
  - rewrite app_assoc, fmap_app, mkJobs_ids.
    apply StronglySorted_app. split; [|split; [exact Hord|apply seq_sorted]].
    intros x1 x2 H1 H2. apply list_elem_of_In, in_seq in H2.
    apply list_elem_of_fmap in H1 as (j & -> & Hj).
    rewrite Forall_forall in Hcre. specialize (Hcre j Hj). simpl in Hcre. lia.
  - rewrite app_assoc. apply Forall_app. split.
    + eapply Forall_impl; [exact Hcre|]. simpl. intros. lia.
    + apply Forall_forall. intros j Hj.
      assert (job_id j ∈ job_id <$> mkJobs cr r sub urls) as Hid
        by (apply list_elem_of_fmap; eauto).
      rewrite mkJobs_ids in Hid. apply list_elem_of_In, in_seq in Hid. lia.
  - intros. lia.
  - intros Hn. contradiction.
Qed.

Lemma inv_cmdYoutube (cfg : Config) (r : YoutubeReq) (w : World) :
  queue_inv cfg w -> queue_inv cfg (cmdYoutube cfg r w).
Proof.
  intros Hinv. unfold cmdYoutube.
  destruct (videoDownloadFolder cfg) eqn:Hf; [|exact Hinv].
  assert (videoDownloadFolder cfg <> None) as Hne by congruence.
  repeat case_match; try exact Hinv; apply inv_enqueue; assumption.
Qed.

Lemma inv_abort (cfg : Config) (c : nat) (w : World) :
  queue_inv cfg w -> queue_inv cfg (abort c w).
Proof.
  intros [Hone Hflag Hcur Hord Hcre Htim Hfol].
  constructor; simpl; try assumption.
  intros a Ha. rewrite length_insert. apply Hcur, Ha.
Qed.

Lemma inv_set_queue (cfg : Config) (q : list Job) (w : World) :
  q `sublist_of` youtubeQueue (bot w) ->
  queue_inv cfg w -> queue_inv cfg (set_bot (set_youtubeQueue q (bot w)) w).
Proof.
  intros Hsub [Hone Hflag Hcur Hord Hcre Htim Hfol].
  assert ((started w ++ q) `sublist_of` (started w ++ youtubeQueue (bot w))) as Hsub'.
  { apply sublist_app; [reflexivity|exact Hsub]. }
  constructor; simpl; try assumption.
  - eapply sorted_ids_sublist; eassumption.
  - rewrite Forall_forall in *. intros j Hj. apply Hcre.
    eapply elem_of_sublist; eassumption.
  - intros Hf Hq. apply Htim; [exact Hf|]. intros Hnil. rewrite Hnil in Hsub.
    apply sublist_nil_r in Hsub. contradiction.
  - intros Hn. specialize (Hfol Hn). rewrite Hfol in Hsub.
    apply sublist_nil_r in Hsub. exact Hsub.
Qed.

Lemma inv_cmdCancel (cfg : Config) (userId : string) (w : World) :
  queue_inv cfg w -> queue_inv cfg (cmdCancel cfg userId w).1.
Proof.
  intros Hinv. unfold cmdCancel.
  destruct (negb (isCustomModeActive (bot w))); [exact Hinv|].
  destruct (videoDownloadFolder cfg); [|exact Hinv]. cbn [fst].
  match goal with
  | |- queue_inv _ (set_bot (set_youtubeQueue _ (bot ?w1)) ?w1) =>
      apply (inv_set_queue cfg _ w1); [apply filter_sublist|]
  end.
  repeat case_match; try exact Hinv; apply inv_abort, Hinv.
Qed.

Lemma inv_cmdCancelAll (cfg : Config) (userIsAdmin : bool) (w : World) :
  queue_inv cfg w -> queue_inv cfg (cmdCancelAll cfg userIsAdmin w).1.
Proof.
  intros Hinv. unfold cmdCancelAll.
  destruct (negb userIsAdmin); [exact Hinv|].
  destruct (negb (isCustomModeActive (bot w))); [exact Hinv|].
  destruct (videoDownloadFolder cfg); [|exact Hinv]. cbn [fst].
  match goal with
  | |- queue_inv _ (set_bot (set_youtubeQueue _ (bot ?w1)) ?w1) =>
      apply (inv_set_queue cfg _ w1); [apply sublist_nil_l|]
  end.
  repeat case_match; try exact Hinv; apply inv_abort, Hinv.
Qed.

Lemma inv_processYoutubeQueue (cfg : Config) (prep : PrepEnv) (w : World) :
  queue_inv cfg w -> queue_inv cfg (processYoutubeQueue cfg prep w).1.
Proof.
  intros Hinv. pose proof (inv_idle cfg w Hinv) as Hidle.
  destruct Hinv as [Hone Hflag Hcur Hord Hcre Htim Hfol].
  unfold processYoutubeQueue.
  destruct w as [b cs acts qc cr st fin]. simpl in *.
  destruct qc as [|pending]; [constructor; assumption|].
  destruct (isYoutubeDownloadActive b) eqn:Hact.
  { constructor; simpl; rewrite ?Hact; try assumption. intros Hf. discriminate. }
  specialize (Hidle eq_refl). subst acts.
  destruct (youtubeQueue b) as [|j rest] eqn:Hq.
  { constructor; simpl; rewrite ?Hact, ?Hq; try assumption.
    intros _ Hn. contradiction. }
  destruct (videoDownloadFolder cfg) as [root|] eqn:Hfolder.
  2:{ specialize (Hfol eq_refl). discriminate. }
  destruct (prepareDownload root prep j) as [go fx].
  destruct b. simpl in *. subst.
  constructor; simpl.
  - lia.
  - reflexivity.
  - intros a Ha. apply list_elem_of_singleton in Ha. subst a. simpl.
    rewrite length_app. simpl. repeat split; lia.
  - rewrite <- app_assoc. exact Hord.
  - rewrite <- app_assoc. exact Hcre.
  - intros Hf. discriminate.
  - intros Hn. congruence.
Qed.

Lemma inv_downloadReturns (cfg : Config) (k : nat) (ok : bool) (w : World) :
  queue_inv cfg w -> queue_inv cfg (downloadReturns k ok w).1.
Proof.
  intros Hinv. unfold downloadReturns.
  destruct (activations w !! k) as [a|] eqn:Hk; [|exact Hinv].
  destruct (act_phase a); [|exact Hinv].
  destruct Hinv as [Hone Hflag Hcur Hord Hcre Htim Hfol].
  destruct (activations w) as [|a0 [|a1 l]] eqn:Hacts;
    [discriminate| |simpl in Hone; lia].
  destruct k as [|k]; [|discriminate]. injection Hk as ->.
  constructor; simpl; rewrite ?Hacts; simpl; try assumption.
  intros a' Ha'. apply list_elem_of_singleton in Ha'. subst a'. simpl.
  apply Hcur. left.
Qed.

Lemma inv_jobFinally (cfg : Config) (k : nat) (w : World) :
  queue_inv cfg w -> queue_inv cfg (jobFinally k w).1.
Proof.
  intros Hinv. unfold jobFinally.
  destruct (activations w !! k) as [a|] eqn:Hk; [|exact Hinv].
  destruct (act_phase a); [exact Hinv|].
  destruct Hinv as [Hone Hflag Hcur Hord Hcre Htim Hfol].
  destruct (activations w) as [|a0 [|a1 l]] eqn:Hacts;
    [discriminate| |simpl in Hone; lia].
  destruct k as [|k]; [|discriminate]. injection Hk as ->.
  constructor; simpl; rewrite ?Hacts; simpl; try assumption; try lia;
    try reflexivity.
  intros a' Ha'. inversion Ha'.
Qed.

Lemma inv_cleanupAndExit (cfg : Config) (w : World) :
  queue_inv cfg w -> queue_inv cfg (cleanupAndExit w).1.
Proof.
  intros Hinv. unfold cleanupAndExit.
  assert (queue_inv cfg (set_bot (stopVlcTitleCheckInterval (bot w)) w)) as Hinv0.
  { destruct Hinv. unfold stopVlcTitleCheckInterval.
    destruct (vlcTitleCheckIntervalId (bot w)); constructor; assumption. }
  repeat case_match; cbn [fst]; try exact Hinv0. apply inv_abort, Hinv0.
Qed.

Lemma inv_step (cfg : Config) (w : World) (e : Event) :
  queue_inv cfg w -> queue_inv cfg (step cfg w e).1.
Proof.
  intros Hinv. destruct e; simpl.
  - apply inv_cmdYoutube, Hinv.
  - apply inv_cmdCancel, Hinv.
  - apply inv_cmdCancelAll, Hinv.
  - apply inv_processYoutubeQueue, Hinv.
  - apply inv_downloadReturns, Hinv.
  - apply inv_jobFinally, Hinv.
  - destruct Hinv. constructor; assumption.
  - apply inv_cleanupAndExit, Hinv.
Qed.

Lemma inv_run (cfg : Config) (es : list Event) (w : World) :
  queue_inv cfg w -> queue_inv cfg (run cfg es w).
Proof.
  revert w. induction es as [|e es IH]; intros w Hinv; simpl; [exact Hinv|].
  apply IH, inv_step, Hinv.
Qed.

(** C2. After any sequence of [!youtube], [!cancel], [!cancelall], timer,
    download, mode and shutdown events from the start of the process: at
    most one
    run of the queue worker is in flight, and the lock flag is set exactly
    when there is one; the jobs taken off the queue so far, followed by the
    jobs still queued, are in strictly increasing order of creation, so
    jobs start in arrival order and every queued job is younger than every
    started one; a download that returns puts its run in a terminal state;
    and when the run in flight is in a terminal state (succeeded, failed
    or cancelled) with a job [j] at the head of the queue, its [finally]
    block records the outcome, releases the lock and leaves a queue check
    pending, and that check takes [j] off the queue and starts it.  The
    worker does start jobs: whenever no run is in flight and a job [j] is
    at the head of the queue, a queue check is pending, and the check
    that fires takes [j] off the queue, sets the lock and starts [j];
    a check that fires while a run is in flight starts nothing and leaves
    the queue as it is. *)
Theorem download_queue_single_worker_fifo (cfg : Config) (es : list Event) :
  let w := run cfg es initialWorld in
  length (activations w) <= 1
  /\ (isYoutubeDownloadActive (bot w) = true <-> exists a, activations w = [a])
  /\ StronglySorted lt (job_id <$> (started w ++ youtubeQueue (bot w)))
  /\ (forall a ok, activations w = [a] -> act_phase a = Downloading ->
        exists t, activations (downloadReturns 0 ok w).1 = [set_phase (Settled t) a])
  /\ (forall a t j rest prep,
        activations w = [a] -> act_phase a = Settled t ->
        youtubeQueue (bot w) = j :: rest ->
        let w1 := (jobFinally 0 w).1 in
        let w2 := (processYoutubeQueue cfg prep w1).1 in
        activations w1 = []
        /\ isYoutubeDownloadActive (bot w1) = false
        /\ 0 < queueChecks w1
        /\ finished w1 = finished w ++ [(act_job a, t)]
        /\ youtubeQueue (bot w1) = j :: rest
        /\ (exists a', activations w2 = [a'] /\ act_job a' = j)
        /\ isYoutubeDownloadActive (bot w2) = true
        /\ currentDownloadJob (bot w2) = Some j
        /\ youtubeQueue (bot w2) = rest
        /\ started w2 = started w ++ [j])
  /\ (forall j rest prep,
        activations w = [] -> youtubeQueue (bot w) = j :: rest ->
        let w2 := (processYoutubeQueue cfg prep w).1 in
        0 < queueChecks w
        /\ (exists a', activations w2 = [a'] /\ act_job a' = j)
        /\ isYoutubeDownloadActive (bot w2) = true
        /\ currentDownloadJob (bot w2) = Some j
        /\ youtubeQueue (bot w2) = rest
        /\ started w2 = started w ++ [j])
  /\ (forall prep,
        activations w <> [] ->
        let w2 := (processYoutubeQueue cfg prep w).1 in
        activations w2 = activations w
        /\ youtubeQueue (bot w2) = youtubeQueue (bot w)
        /\ started w2 = started w).
Proof.
  intros w. pose proof (inv_run cfg es initialWorld (inv_initial cfg)) as Hinv.
  fold w in Hinv. clearbody w.
  split; [exact (inv_one _ _ Hinv)|].
  split.
  { split; [apply (inv_busy cfg), Hinv|]. intros [a Ha].
    rewrite (inv_flag _ _ Hinv), Ha. reflexivity. }
  split; [exact (inv_order _ _ Hinv)|].
  split.
  { intros a ok Ha Hph. unfold downloadReturns. rewrite Ha. simpl. rewrite Hph.
    eexists. reflexivity. }
  split; [|split].
  - intros a t j rest prep Ha Hph Hq.
    destruct (videoDownloadFolder cfg) as [root|] eqn:Hfolder.
    2:{ rewrite (inv_folder _ _ Hinv Hfolder) in Hq. discriminate. }
    unfold jobFinally. rewrite Ha. simpl. rewrite Hph. cbn [fst].
    unfold processYoutubeQueue. cbn [queueChecks bot isYoutubeDownloadActive
      set_currentAbortController set_currentDownloadJob set_isYoutubeDownloadActive
      youtubeQueue activations started finished controllers created].
    rewrite Hq, Hfolder.
    destruct (prepareDownload root prep j) as [go fx]. cbn.
    repeat split; try reflexivity; try lia.
    eexists. split; reflexivity.
  - intros j rest prep Ha Hq.
    destruct (videoDownloadFolder cfg) as [root|] eqn:Hfolder.
    2:{ rewrite (inv_folder _ _ Hinv Hfolder) in Hq. discriminate. }
    assert (isYoutubeDownloadActive (bot w) = false) as Hidle
      by (rewrite (inv_flag _ _ Hinv), Ha; reflexivity).
    assert (0 < queueChecks w) as Hpending
      by (apply (inv_timer _ _ Hinv Hidle); rewrite Hq; discriminate).
    unfold processYoutubeQueue.
    destruct (queueChecks w) as [|pending]; [lia|].
    rewrite Hidle, Hq, Hfolder.
    destruct (prepareDownload root prep j) as [go fx]. cbn. rewrite Ha.
    repeat split; try reflexivity; try lia.
    eexists. split; reflexivity.
  - intros prep Ha.
    assert (isYoutubeDownloadActive (bot w) = true) as Hbusy
      by (rewrite (inv_flag _ _ Hinv); apply bool_decide_eq_true_2; exact Ha).
    unfold processYoutubeQueue.
    destruct (queueChecks w) as [|pending]; [repeat split; reflexivity|].
    rewrite Hbusy. repeat split; reflexivity.
Qed.

(** C7. In a state reached from the start of the process, in custom mode
    and with a download folder: [!cancel] of a user leaves in the queue
    exactly the jobs of the other users, in their order, keeps the run in
    flight, and aborts its signal if, and only if, its job is the user's;
    [!cancelall] of an admin empties the queue and aborts the signal of
    the run in flight, whoever owns it.  After [!cancelall], once the
    download has returned (a download that had not returned before ends
    Cancelled), its [finally] block has run and any number of queue checks
    have fired, no run is in flight, the lock is free and the queue is
    empty. *)
Theorem cancel_removes_own_jobs_cancelall_clears
    (cfg : Config) (es : list Event) (userId : string) :
  let w := run cfg es initialWorld in
  isCustomModeActive (bot w) = true ->
  videoDownloadFolder cfg <> None ->
  (let r := cmdCancel cfg userId w in
   youtubeQueue (bot r.1)
     = List.filter (fun j => negb (same_user userId j)) (youtubeQueue (bot w))
   /\ (forall j, j ∈ youtubeQueue (bot r.1) <->
                 j ∈ youtubeQueue (bot w) /\ uid (user j) <> userId)
   /\ youtubeQueue (bot r.1) `sublist_of` youtubeQueue (bot w)
   /\ activations r.1 = activations w
   /\ isYoutubeDownloadActive (bot r.1) = isYoutubeDownloadActive (bot w)
   /\ (forall a, activations w = [a] ->
         aborted r.1 (act_signal a)
           = (if same_user userId (act_job a) then true else aborted w (act_signal a))
         /\ (AbortSignal (act_signal a) ∈ r.2 <-> uid (user (act_job a)) = userId))
   /\ (activations w = [] -> controllers r.1 = controllers w))
  /\ (let r := cmdCancelAll cfg true w in
      youtubeQueue (bot r.1) = []
      /\ activations r.1 = activations w
      /\ (forall a, activations w = [a] ->
            aborted r.1 (act_signal a) = true /\ AbortSignal (act_signal a) ∈ r.2)
      /\ (forall a ok preps, activations w = [a] ->
            let settled :=
              run cfg (DownloadReturns 0 ok :: JobFinally 0 :: (QueueCheck <$> preps)) r.1 in
            activations settled = []
            /\ isYoutubeDownloadActive (bot settled) = false
            /\ youtubeQueue (bot settled) = []
            /\ (act_phase a = Downloading ->
                 (act_job a, Cancelled) ∈ finished settled))
      /\ (activations w = [] -> forall preps,
            let settled := run cfg (QueueCheck <$> preps) r.1 in
            activations settled = [] /\ youtubeQueue (bot settled) = [])).
Proof.
  intros w Hmode Hfolder.
  pose proof (inv_run cfg es initialWorld (inv_initial cfg)) as Hinv.
  fold w in Hinv. clearbody w.
  destruct (videoDownloadFolder cfg) as [root|] eqn:Hroot; [clear Hfolder|contradiction].
  assert (forall a, activations w = [a] ->
            isYoutubeDownloadActive (bot w) = true
            /\ currentDownloadJob (bot w) = Some (act_job a)
            /\ currentAbortController (bot w) = Some (act_signal a)
            /\ act_signal a < length (controllers w)) as Hbusy.
  { intros a Ha. split.
    - rewrite (inv_flag _ _ Hinv), Ha. reflexivity.
    - apply (inv_current _ _ Hinv). rewrite Ha. left. }
  assert (activations w = [] -> isYoutubeDownloadActive (bot w) = false) as Hidle.
  { intros Ha. rewrite (inv_flag _ _ Hinv), Ha. reflexivity. }
  (* queue checks on an idle bot with an empty queue do nothing to them *)
  assert (forall preps w0, activations w0 = [] ->
            isYoutubeDownloadActive (bot w0) = false -> youtubeQueue (bot w0) = [] ->
            let s := run cfg (QueueCheck <$> preps) w0 in
            activations s = [] /\ isYoutubeDownloadActive (bot s) = false
            /\ youtubeQueue (bot s) = [] /\ finished s = finished w0) as Hchecks.
  { induction preps as [|p preps IH]; intros w0 Ha Hf Hq; [simpl; auto|].
    rewrite fmap_cons. cbn [run fold_left]. fold (run cfg (QueueCheck <$> preps)).
    assert (let w' := (step cfg w0 (QueueCheck p)).1 in
            activations w' = [] /\ isYoutubeDownloadActive (bot w') = false
            /\ youtubeQueue (bot w') = [] /\ finished w' = finished w0) as Hs.
    { cbn [step]. unfold processYoutubeQueue.
      destruct (queueChecks w0); [auto|]. rewrite Hf, Hq. simpl. auto. }
    cbv zeta in Hs. destruct Hs as (Ha' & Hf' & Hq' & Hfin').
    destruct (IH _ Ha' Hf' Hq') as (? & ? & ? & Hfin). cbv zeta.
    repeat split; try assumption. exact (eq_trans Hfin Hfin'). }
  split.
  - unfold cmdCancel. rewrite Hmode, Hroot. cbn [negb fst snd].
    set (target := if isYoutubeDownloadActive (bot w) then _ else _).
    assert (forall w1 : World,
              w1 = match target with Some c => abort c w | None => w end ->
              youtubeQueue (bot w1) = youtubeQueue (bot w)
              /\ activations w1 = activations w
              /\ isYoutubeDownloadActive (bot w1) = isYoutubeDownloadActive (bot w)) as Hsame.
    { intros w1 ->. destruct target; auto. }
    destruct (Hsame _ eq_refl) as (Hq1 & Ha1 & Hf1).
    cbn [set_bot bot youtubeQueue set_youtubeQueue activations
         isYoutubeDownloadActive]. rewrite Hq1.
    split; [reflexivity|]. split.
    { intros j. rewrite filter_elem. unfold same_user.
      rewrite negb_true_iff, bool_decide_eq_false. reflexivity. }
    split; [apply filter_sublist|].
    split; [exact Ha1|]. split; [exact Hf1|]. split.
    + intros a Ha. destruct (Hbusy a Ha) as (Hf & Hj & Hc & Hlen).
      subst target. rewrite Hf, Hj, Hc.
      unfold aborted, same_user. cbn [controllers set_bot].
      destruct (bool_decide (uid (user (act_job a)) = userId)) eqn:Hu.
      * cbn [abort controllers]. rewrite list_lookup_insert_eq by exact Hlen.
        split; [reflexivity|]. apply bool_decide_eq_true in Hu.
        split; [intros _; exact Hu|]. intros _. cbn. left.
      * split; [reflexivity|]. apply bool_decide_eq_false in Hu.
        split; [|intros; contradiction]. intros Hin. cbn in Hin.
        apply list_elem_of_singleton in Hin. discriminate.
    + intros Ha. subst target. rewrite (Hidle Ha). reflexivity.
  - unfold cmdCancelAll. rewrite Hmode, Hroot. cbn [negb fst snd].
    set (target := if isYoutubeDownloadActive (bot w) then _ else _).
    assert (forall w1 : World,
              w1 = match target with Some c => abort c w | None => w end ->
              activations w1 = activations w
              /\ isYoutubeDownloadActive (bot w1) = isYoutubeDownloadActive (bot w)
              /\ finished w1 = finished w) as Hsame.
    { intros w1 ->. destruct target; auto. }
    destruct (Hsame _ eq_refl) as (Ha1 & Hf1 & Hfin1).
    cbn [set_bot bot youtubeQueue set_youtubeQueue activations].
    split; [reflexivity|]. split; [exact Ha1|].
    assert (forall a, activations w = [a] ->
              aborted (set_bot (set_youtubeQueue []
                         (bot match target with Some c => abort c w | None => w end))
                         match target with Some c => abort c w | None => w end)
                      (act_signal a) = true
              /\ target = Some (act_signal a)) as Habort.
    { intros a Ha. destruct (Hbusy a Ha) as (Hf & Hj & Hc & Hlen).
      subst target. rewrite Hf, Hc. unfold aborted.
      cbn [controllers set_bot abort]. rewrite list_lookup_insert_eq by exact Hlen.
      split; reflexivity. }
    split.
    { intros a Ha. destruct (Habort a Ha) as [Hab Ht]. split; [exact Hab|].
      rewrite Ht. cbn. left. }
    split.
    + intros a ok preps Ha. destruct (Habort a Ha) as [Hab Ht].
      destruct (Hbusy a Ha) as (Hf & _).
      cbn [run fold_left]. fold (run cfg (QueueCheck <$> preps)).
      set (w2 := set_bot _ _) in *.
      assert (activations w2 = [a]) as Ha2 by (subst w2; cbn; congruence).
      assert (youtubeQueue (bot w2) = []) as Hq2 by reflexivity.
      assert (finished w2 = finished w) as Hfin2 by (subst w2; cbn; congruence).
      clearbody w2.
      (* the download returns *)
      assert (exists t, (act_phase a = Downloading -> t = Cancelled)
                /\ activations (step cfg w2 (DownloadReturns 0 ok)).1
                    = [set_phase (Settled t) a]
                /\ youtubeQueue (bot (step cfg w2 (DownloadReturns 0 ok)).1) = []
                /\ finished (step cfg w2 (DownloadReturns 0 ok)).1 = finished w) as Hret.
      { cbn [step]. unfold downloadReturns.
        destruct (act_phase a) as [|t] eqn:Hph.
        - exists Cancelled. rewrite Ha2. cbn [lookup list_lookup].
          rewrite Hph, Hab. cbn. rewrite ?Ha2. cbn. auto.
        - exists t. rewrite Ha2. cbn [lookup list_lookup]. rewrite Hph. cbn [fst].
          rewrite ?Ha2. repeat split; try assumption; try discriminate.
          destruct a; cbn in *; subst; reflexivity. }
      destruct Hret as (t & Ht' & Ha3 & Hq3 & Hfin3).
      set (w3 := (step cfg w2 (DownloadReturns 0 ok)).1) in *. clearbody w3.
      (* the finally block *)
      assert (activations (step cfg w3 (JobFinally 0)).1 = []
              /\ isYoutubeDownloadActive (bot (step cfg w3 (JobFinally 0)).1) = false
              /\ youtubeQueue (bot (step cfg w3 (JobFinally 0)).1) = []
              /\ finished (step cfg w3 (JobFinally 0)).1
                  = finished w ++ [(act_job a, t)]) as Hfinally.
      { cbn [step]. unfold jobFinally. rewrite Ha3. cbn.
        rewrite Hq3, Hfin3. auto. }
      destruct Hfinally as (Ha4 & Hf4 & Hq4 & Hfin4).
      destruct (Hchecks preps _ Ha4 Hf4 Hq4) as (Ha5 & Hf5 & Hq5 & Hfin5).
      cbv zeta. unfold run in *. repeat split; try assumption.
      intros Hph. rewrite Hfin5, Hfin4, (Ht' Hph).
      apply elem_of_app. right. left.
    + intros Ha preps.
      assert (target = None) as Ht by (subst target; rewrite (Hidle Ha); reflexivity).
      rewrite Ht.
      destruct (Hchecks preps (set_bot (set_youtubeQueue [] (bot w)) w)) as (? & ? & ? & ?);
        cbn; auto.
Qed.

End QueueFacts.

Section QueueRuns.

(** The worker at work.  After a first [!youtube] the bot is idle with
    that job queued and a check pending, and the check starts the job.
    In scenario 3, once ann's download has succeeded, its [finally]
    block releases the lock and the next check starts bob's job, the
    oldest one queued, leaving ann's second job in the queue; a check
    that fires while ann's download is still running starts nothing. *)
Lemma download_queue_witness :
  let first := run (H := samplePath) sampleConfig
                 [Youtube (youtubeBy ann "https://a/1")] initialWorld in
  let busy := run (H := samplePath) sampleConfig scenario3 initialWorld in
  let settled := run (H := samplePath) sampleConfig
                   (scenario3 ++ [DownloadReturns 0 true]) initialWorld in
  let next := (processYoutubeQueue (H := samplePath) sampleConfig prepOk
                 (jobFinally 0 settled).1).1 in
  (activations first = []
   /\ (url <$> youtubeQueue (bot first)) = [lit "https://a/1"]
   /\ 0 < queueChecks first
   /\ exists a', activations (processYoutubeQueue (H := samplePath) sampleConfig prepOk
                                first).1 = [a']
                 /\ url (act_job a') = lit "https://a/1")
  /\ ((uid ∘ user <$> (act_job <$> activations busy)) = ["1"]
      /\ activations (processYoutubeQueue (H := samplePath) sampleConfig prepOk busy).1
         = activations busy)
  /\ ((act_phase <$> activations settled) = [Settled Succeeded]
      /\ (uid ∘ user <$> youtubeQueue (bot settled)) = ["2"; "1"]
      /\ (exists a', activations next = [a'] /\ url (act_job a') = lit "https://b/1")
      /\ (url <$> youtubeQueue (bot next)) = [lit "https://a/2"]
      /\ (url <$> started next) = [lit "https://a/1"; lit "https://b/1"]).
Proof.
  intros first busy settled next.
  pose proof (download_queue_single_worker_fifo (H := samplePath) sampleConfig
                [Youtube (youtubeBy ann "https://a/1")]) as Hfirst.
  pose proof (download_queue_single_worker_fifo (H := samplePath) sampleConfig
                scenario3) as Hbusy.
  pose proof (download_queue_single_worker_fifo (H := samplePath) sampleConfig
                (scenario3 ++ [DownloadReturns 0 true])) as Hsettled.
  cbv zeta in Hfirst, Hbusy, Hsettled.
  fold first in Hfirst. fold busy in Hbusy. fold settled in Hsettled.
  destruct Hfirst as (_ & _ & _ & _ & _ & Hstart & _).
  destruct Hbusy as (_ & _ & _ & _ & _ & _ & Hkeep).
  destruct Hsettled as (_ & _ & _ & _ & Hnext & _).
  split; [|split].
  - destruct (youtubeQueue (bot first)) as [|j rest] eqn:Hq; [discriminate Hq|].
    destruct (Hstart j rest prepOk eq_refl eq_refl) as (Hpending & (a' & Ha' & Hj) & _).
    split; [reflexivity|]. split; [rewrite <- Hq; reflexivity|].
    split; [exact Hpending|]. exists a'. split; [exact Ha'|].
    rewrite Hj. assert (url <$> j :: rest = [lit "https://a/1"]) as Hu
      by (rewrite <- Hq; reflexivity).
    injection Hu as Hu _. exact Hu.
  - split; [reflexivity|].
    exact (proj1 (Hkeep prepOk ltac:(discriminate))).
  - destruct (activations settled) as [|a [|a2 l]] eqn:Ha; try discriminate Ha.
    destruct (youtubeQueue (bot settled)) as [|j rest] eqn:Hq; [discriminate Hq|].
    assert (act_phase a = Settled Succeeded) as Hph.
    { assert (act_phase <$> [a] = [Settled Succeeded]) as Hp
        by (rewrite <- Ha; reflexivity).
      injection Hp as Hp. exact Hp. }
    assert (url <$> j :: rest = [lit "https://b/1"; lit "https://a/2"]) as Hu
      by (rewrite <- Hq; reflexivity).
    destruct rest as [|j2 [|j3 rest]]; try discriminate Hu.
    injection Hu as Hj Hj2.
    destruct (Hnext a Succeeded j [j2] prepOk eq_refl Hph eq_refl)
      as (_ & _ & _ & _ & _ & (a' & Ha' & Hja) & _ & _ & Hrest & Hstarted).
    fold next in Ha', Hrest, Hstarted.
    split; [rewrite <- Ha; reflexivity|]. split; [rewrite <- Hq; reflexivity|].
    split; [exists a'; split; [exact Ha'|rewrite Hja; exact Hj]|].
    split; [rewrite Hrest; cbn; rewrite Hj2; reflexivity|].
    rewrite Hstarted, fmap_app. cbn. rewrite Hj. reflexivity.
Defined.

End QueueRuns.

Section CancelFacts.

(** Scenario 3: [!cancel] by ann aborts her active download and leaves
    bob's job alone in the queue. *)
Example cancel_scenario3 :
  let w := run (H := samplePath) sampleConfig scenario3 initialWorld in
  let r := cmdCancel sampleConfig "1" w in
  (uid ∘ user <$> (act_job <$> activations w)) = ["1"]
  /\ (uid ∘ user <$> youtubeQueue (bot w)) = ["2"; "1"]
  /\ (uid ∘ user <$> youtubeQueue (bot r.1)) = ["2"]
  /\ r.2 = [AbortSignal 0; Reply (MsgCancelledActiveAndPending 1)]
  /\ aborted r.1 0 = true.
Proof. vm_compute. repeat split; reflexivity. Qed.

(** The theorem on the state of scenario 3. *)
Lemma cancel_witness :
  let w := run (H := samplePath) sampleConfig scenario3 initialWorld in
  (uid ∘ user <$> youtubeQueue (bot (cmdCancel sampleConfig "1" w).1)) = ["2"]
  /\ youtubeQueue (bot (cmdCancelAll sampleConfig true w).1) = [].
Proof.
  intros w.
  pose proof (cancel_removes_own_jobs_cancelall_clears (H := samplePath)
                sampleConfig scenario3 "1" eq_refl ltac:(discriminate)) as [Hc Ha].
  cbv zeta in Hc, Ha. fold w in Hc, Ha.
  split.
  - destruct Hc as [Hq _]. rewrite Hq. vm_compute. reflexivity.
  - exact (proj1 Ha).
Defined.

(** C10. While the mode is Scheduled, [!cancel] and [!cancelall] change
    nothing: the whole state (queue, run in flight, abort signals) is
    returned as it was, whatever it holds, and the only effect is one
    reply, the refusal 'Downloads can currently only be cancelled while in
    Custom Channel mode.' (for [!cancelall] by someone who is not an admin,
    the permission refusal that precedes the mode test). *)
Theorem cancel_refused_outside_custom_mode
    (cfg : Config) (w : World) (userId : string) (userIsAdmin : bool) :
  isCustomModeActive (bot w) = false ->
  cmdCancel cfg userId w = (w, [Reply MsgCancelOnlyCustom])
  /\ cmdCancelAll cfg userIsAdmin w
     = (w, [Reply (if userIsAdmin then MsgCancelOnlyCustom else MsgNoPermission)]).
Proof.
  intros Hmode. unfold cmdCancel, cmdCancelAll. rewrite Hmode.
  destruct userIsAdmin; split; reflexivity.
Qed.

(** A download queued and started in custom mode, a second one queued,
    then the mode goes back to Scheduled: both commands are refused and
    the active download and the queue stay. *)
Lemma cancel_refused_witness :
  let w := run (H := samplePath) sampleConfig (scenario3 ++ [ModeChanged false])
             initialWorld in
  (isYoutubeDownloadActive (bot w) = true /\ length (youtubeQueue (bot w)) = 2)
  /\ cmdCancel sampleConfig "1" w = (w, [Reply MsgCancelOnlyCustom])
  /\ cmdCancelAll sampleConfig true w = (w, [Reply MsgCancelOnlyCustom]).
Proof.
  intros w. split; [vm_compute; split; reflexivity|].
  exact (cancel_refused_outside_custom_mode sampleConfig w "1" true eq_refl).
Defined.

End CancelFacts.


(* ===================================================================== *)
(** * Further properties of the mode transitions                          *)
(* ===================================================================== *)

Section ModeTimerFacts.

Lemma scripts_run_app (a b : list Effect) :
  scripts_run (a ++ b) = scripts_run a ++ scripts_run b.
Proof. unfold scripts_run. apply omap_app. Qed.

Lemma scripts_run_cons (e : Effect) (fx : list Effect) :
  scripts_run (e :: fx)
  = match e with RunAhkScript s => [s] | _ => [] end ++ scripts_run fx.
Proof. destruct e; reflexivity. Qed.

Lemma scripts_run_event_calls (fx : list Effect) :
  Forall (fun e => is_event_call e = true) fx -> scripts_run fx = [].
Proof.
  induction 1 as [|e fx He _ IH]; [reflexivity|].
  unfold scripts_run in *. destruct e; try discriminate He; simpl; exact IH.
Qed.

Lemma event_calls_no_prompt (fx : list Effect) :
  Forall (fun e => is_event_call e = true) fx -> DeletePrompt ∉ fx.
Proof.
  intros Hall Hin. rewrite Forall_forall in Hall. apply Hall in Hin. discriminate.
Qed.

Lemma scripts_run_edit_if (c : bool) (m : Msg) : scripts_run (edit_if c m) = [].
Proof. destruct c; reflexivity. Qed.

(** Destructs every call of the renaming helper in the goal, keeping what
    the frame lemma says about its result. *)
Ltac rename_calls :=
  repeat match goal with
  | |- context [updateEventNameInternal ?c ?s ?a ?n ?b] =>
      let H := fresh "Hframe" in
      let e := fresh "e" in
      let Hfx := fresh "Hfx" in
      pose proof (updateEventNameInternal_frame c s a n b) as H;
      cbv zeta in H; destruct H as [[e H] Hfx];
      destruct (updateEventNameInternal c s a n b) as [[? ?] ?];
      cbn [fst snd] in H, Hfx; subst
  end.

(** X1. However [endCustomMode] ends (not in custom mode, feedback or
    script failure, success), the still-watching timer and the VLC title
    interval are cleared and the still-watching prompt is forgotten, after
    being deleted first if there was one; the skip cooldown and the
    download globals are left alone. *)
Theorem endCustomMode_clears_timers_and_prompt
    (cfg : Config) (show : option jsstring) (who : Initiator) (env : EndEnv) (b : Bot) :
  let r := endCustomMode cfg show who env b in
  customModeTimerId r.1.2 = false
  /\ vlcTitleCheckIntervalId r.1.2 = false
  /\ stillWatchingPromptMessage r.1.2 = false
  /\ (stillWatchingPromptMessage b = true -> head r.2 = Some DeletePrompt)
  /\ (stillWatchingPromptMessage b = false -> DeletePrompt ∉ r.2)
  /\ skipVoteCooldownEndTimestamp r.1.2 = skipVoteCooldownEndTimestamp b
  /\ youtubeQueue r.1.2 = youtubeQueue b
  /\ isYoutubeDownloadActive r.1.2 = isYoutubeDownloadActive b
  /\ currentDownloadJob r.1.2 = currentDownloadJob b
  /\ currentAbortController r.1.2 = currentAbortController b.
Proof.
  intros r. subst r. unfold endCustomMode, stopVlcTitleCheckInterval.
  rename_calls.
  destruct b as [m s c t v p ev q a j ctl]; cbn.
  destruct v, p, m; cbn; repeat case_match; cbn;
    repeat split; try reflexivity; intros Hp; try discriminate Hp;
    try reflexivity; intros Hin;
    repeat (apply elem_of_cons in Hin as [Hin|Hin];
            [destruct who; discriminate|]);
    try (inversion Hin; fail).
  all: match goal with
       | H : Forall _ ?l, Hin : _ ∈ ?l |- _ => exact (event_calls_no_prompt l H Hin)
       end.
Qed.

(** X2. [endCustomMode] leaves custom mode exactly when the bot was in
    custom mode, the 'attempting to switch back' feedback did not throw
    (the interaction helper never throws) and the switch-back script
    succeeded; that is also when it returns [true], and then the skip
    streak is reset, while in every other case mode and streak are kept.
    The switch-back script is the only script it can run, at most once,
    and only after the feedback went through. *)
Theorem endCustomMode_leaves_mode_iff_script_succeeds
    (cfg : Config) (show : option jsstring) (who : Initiator) (env : EndEnv) (b : Bot) :
  let r := endCustomMode cfg show who env b in
  let statusOk := match who with FromInteraction => true | _ => ee_status_ok env end in
  r.1.1 = isCustomModeActive b && statusOk && ee_script_ok env
  /\ isCustomModeActive r.1.2 = isCustomModeActive b && negb r.1.1
  /\ consecutiveSkipVotes r.1.2 = (if r.1.1 then 0 else consecutiveSkipVotes b)
  /\ scripts_run r.2 = (if isCustomModeActive b && statusOk
                        then [CustomAhkPathBack] else []).
Proof.
  intros r statusOk. subst r statusOk.
  unfold endCustomMode, stopVlcTitleCheckInterval.
  rename_calls.
  destruct b as [m s c t v p ev q a j ctl]; cbn.
  destruct who, v, p, m; cbn; repeat case_match; subst; cbn in *;
    try discriminate; rewrite ?scripts_run_app, ?scripts_run_cons;
    repeat match goal with
    | H : Forall _ ?l |- _ => rewrite (scripts_run_event_calls l H); clear H
    end;
    unfold scripts_run; cbn;
    repeat split; try reflexivity;
    repeat match goal with
    | H : negb ?x = _ |- _ => destruct x; try discriminate H; clear H
    end; try reflexivity; try discriminate.
Qed.

(** X3. The end of a mode-switch poll enters custom mode exactly when the
    poll passed (more yes than no), the status message was sent and the
    switch script succeeded.  Then the skip streak is reset, the
    still-watching timer is armed and the VLC title interval runs if a
    voice channel is configured; otherwise no global changes at all.  The
    value returned is [false] although the mode was switched when the
    closing success message cannot be sent.  The switch script is the only
    script run, at most once, and never for a failed or tied poll. *)
Theorem customPollEnd_enters_mode_iff_script_succeeds
    (cfg : Config) (show : option jsstring) (env : PollEndEnv) (p : Vote.Poll) (b : Bot) :
  let r := customPollEnd cfg show env p b in
  let switched := Vote.pollPassed p && pe_statusSend_ok env && pe_script_ok env in
  isCustomModeActive r.1.2 = isCustomModeActive b || switched
  /\ r.1.1 = switched && pe_report_ok env
  /\ (switched = true ->
        consecutiveSkipVotes r.1.2 = 0
        /\ customModeTimerId r.1.2 = true
        /\ vlcTitleCheckIntervalId r.1.2 = targetVoiceChannel cfg)
  /\ (switched = false -> r.1.2 = b)
  /\ scripts_run r.2 = (if Vote.pollPassed p && pe_statusSend_ok env
                        then [CustomAhkPathTo] else []).
Proof.
  intros r switched. subst r switched.
  unfold customPollEnd, startCustomModeTimer, startVlcTitleCheckInterval.
  rename_calls.
  destruct (Vote.pollPassed p), (pe_statusSend_ok env), (pe_script_ok env);
    cbn [negb andb orb];
    try (rewrite ?scripts_run_app, ?scripts_run_edit_if; unfold scripts_run; cbn;
         rewrite ?orb_false_r; repeat split; try reflexivity;
         intros; discriminate).
  all: destruct (targetVoiceChannel cfg) eqn:Hvc; cbn [negb andb orb].
  all: destruct (pe_report_ok env); cbn [fst snd].
  all: rewrite ?scripts_run_app, ?scripts_run_edit_if.
  all: repeat match goal with
       | H : Forall _ ?l |- _ => rewrite (scripts_run_event_calls l H); clear H
       end.
  all: destruct b as [m s c t v pr ev q a j ctl]; unfold scripts_run; cbn.
  all: rewrite ?orb_true_r, ?orb_false_r.
  all: repeat split; try reflexivity; try (intros; discriminate).
  all: destruct v; cbn; rewrite ?Hvc; reflexivity.
Qed.

End ModeTimerFacts.


(* ===================================================================== *)
(** * Further properties of the event helpers                             *)
(* ===================================================================== *)

Section EventNameFacts.
Context `{NodePath}.

Ltac names_ok :=
  repeat first
    [ apply Forall_nil_2
    | apply Forall_cons_2; [unfold name_within_limit; cbn [event_name_of];
                          try exact I|] ].

Lemma substring0_length (n : nat) (s : jsstring) : length (substring0 n s) <= n.
Proof. unfold substring0. rewrite length_take. lia. Qed.

Lemma finalName_length (custom : bool) (cached : jsstring) (newName : option jsstring)
    (final : jsstring) :
  finalName custom cached newName = Some final -> length final <= 100.
Proof.
  unfold finalName. cbv zeta.
  match goal with
  | |- match ?x with _ => _ end = _ -> _ => destruct x as [n|]
  end; [|discriminate].
  intros Heq.
  assert (final = substring0 100
            (js_trim (if custom && negb (jseq n customChannel)
                      then customChannelPrefix ++ n else n))) as -> by congruence.
  apply substring0_length.
Qed.

Lemma findOrCreate_names (cfg : Config) (show : option jsstring)
    (api : EventApi) (b : Bot) :
  Forall name_within_limit (findOrCreateManagedEvent cfg show api b).2.
Proof.
  unfold findOrCreateManagedEvent.
  repeat case_match; cbn [snd]; names_ok; apply substring0_length.
Qed.

Lemma updateEventNameInternal_names (cfg : Config) (show : option jsstring)
    (api : EventApi) (newName : option jsstring) (b : Bot) :
  Forall name_within_limit (updateEventNameInternal cfg show api newName b).2.
Proof.
  pose proof (findOrCreate_names cfg show api b) as Hfc.
  destruct b as [m s c t v p g q a j k].
  unfold updateEventNameInternal. cbn [managedGuildEvent].
  repeat case_match; simplify_eq/=.
  all: rewrite ?Forall_app; repeat split; try assumption.
  all: names_ok.
  all: eapply finalName_length; eassumption.
Qed.

(** X4. Whatever name a caller asks for, whatever the mode and whatever
    Discord answers, every name the renaming helper hands to Discord, when
    it creates the managed event or edits it, has at most 100 UTF-16 code
    units; the same holds for the periodic VLC title check, whose names
    come from window titles. *)
Theorem event_names_never_exceed_100_code_units
    (cfg : Config) (show : option jsstring) (api : EventApi) (b : Bot) :
  (forall newName : option jsstring,
     Forall name_within_limit (updateEventNameInternal cfg show api newName b).2)
  /\ (forall vlcTitle : option jsstring, forall fetched : option GuildEvent,
        Forall name_within_limit
          (checkAndUpdateVlcEventTitle cfg show vlcTitle fetched api b).2).
Proof.
  split; [intros newName; apply updateEventNameInternal_names|].
  intros vlcTitle fetched. unfold checkAndUpdateVlcEventTitle.
  repeat match goal with
  | |- context [updateEventNameInternal ?c ?s ?a ?n ?b] =>
      pose proof (updateEventNameInternal_names c s a n b);
      destruct (updateEventNameInternal c s a n b) as [[? ?] ?]
  end.
  repeat case_match; cbn [snd] in *; rewrite ?Forall_app; repeat split;
    try assumption; names_ok; try assumption.
  all: match goal with
       | E : updateEventNameInternal ?c ?s ?a ?n ?b = _ |- _ =>
           pose proof (updateEventNameInternal_names c s a n b) as Hn;
           rewrite E in Hn; exact Hn
       end.
Qed.

Ltac done_frame :=
  repeat split; intros; simplify_eq; try reflexivity; try tauto;
  try congruence; try discriminate; try (intuition discriminate).

(** X5. The periodic VLC title check never changes the mode, the skip
    streak or cooldown, the still-watching timer and prompt, or the
    download globals, runs no script and never arms its own interval.
    Outside custom mode, without a voice channel or without an event handle
    it does nothing at all.  In custom mode with a handle: when the name
    derived from VLC's title equals the cached name, VLC is queried and
    Discord is not called; when it differs and the event cannot be
    fetched, or is fetched as completed or cancelled, the handle is dropped
    and the check stops its own interval. *)
Theorem vlc_title_check_stays_in_its_lane
    (cfg : Config) (show : option jsstring) (vlcTitle : option jsstring)
    (fetched : option GuildEvent) (api : EventApi) (b : Bot) :
  let r := checkAndUpdateVlcEventTitle cfg show vlcTitle fetched api b in
  (isCustomModeActive r.1 = isCustomModeActive b
   /\ consecutiveSkipVotes r.1 = consecutiveSkipVotes b
   /\ skipVoteCooldownEndTimestamp r.1 = skipVoteCooldownEndTimestamp b
   /\ customModeTimerId r.1 = customModeTimerId b
   /\ stillWatchingPromptMessage r.1 = stillWatchingPromptMessage b
   /\ youtubeQueue r.1 = youtubeQueue b
   /\ isYoutubeDownloadActive r.1 = isYoutubeDownloadActive b
   /\ currentDownloadJob r.1 = currentDownloadJob b
   /\ currentAbortController r.1 = currentAbortController b)
  /\ scripts_run r.2 = []
  /\ (vlcTitleCheckIntervalId r.1 = true -> vlcTitleCheckIntervalId b = true)
  /\ (isCustomModeActive b = false \/ targetVoiceChannel cfg = false
      \/ managedGuildEvent b = None -> r = (b, []))
  /\ (forall e, managedGuildEvent b = Some e ->
      isCustomModeActive b = true -> targetVoiceChannel cfg = true ->
      (ev_name e = vlcEventName vlcTitle -> r = (b, [QueryVlcTitle]))
      /\ (ev_name e <> vlcEventName vlcTitle ->
          fetched = None \/ guild_cached api = false
          \/ (exists cur, fetched = Some cur /\ is_terminal cur = true) ->
          managedGuildEvent r.1 = None /\ vlcTitleCheckIntervalId r.1 = false
          /\ forall id n, EventEdit id n ∉ r.2)).
Proof.
  intros r. subst r.
  unfold checkAndUpdateVlcEventTitle, vlcEventName, stopVlcTitleCheckInterval.
  cbv zeta.
  set (title := match vlcTitle with
                | Some raw => if bool_decide (raw = []) then customChannel
                              else js_trim (path_basename_ext raw (path_extname raw))
                | None => customChannel
                end).
  set (name := substring0 100 (if negb (jseq title customChannel)
                               then customChannelPrefix ++ title else customChannel)).
  clearbody name. 
  destruct (managedGuildEvent b) as [e|] eqn:Hev.
  2: { cbn. done_frame. }
  destruct (isCustomModeActive b) eqn:Hm; cbn [negb orb].
  2: { cbn. done_frame. }
  destruct (targetVoiceChannel cfg) eqn:Hvc; cbn [negb orb].
  2: { cbn. done_frame. }
  destruct (jseq (ev_name e) name) eqn:Hname; unfold jseq in Hname.
  { apply bool_decide_eq_true in Hname. cbn. done_frame. }
  apply bool_decide_eq_false in Hname.
  pose proof (updateEventNameInternal_frame cfg show api (Some title)) as Hframe.
  clearbody title.
  destruct (guild_cached api) eqn:Hg; [destruct fetched as [cur|]|];
    [destruct (is_terminal cur) eqn:Hterm| |].
  2: { specialize (Hframe (set_managedGuildEvent (Some cur) b)).
       cbv zeta in Hframe. destruct Hframe as [[e' Hb'] Hfx].
       destruct (updateEventNameInternal cfg show api (Some title)
                   (set_managedGuildEvent (Some cur) b)) as [[ok b'] fx].
       cbn [fst snd] in *. subst b'.
       rewrite scripts_run_app, (scripts_run_event_calls fx Hfx).
       destruct b; cbn in *.
       repeat split; intros; simplify_eq; try reflexivity; try assumption;
         try (intuition discriminate).
       all: exfalso;
         match goal with
         | Hor : _ \/ _ \/ _ |- _ =>
             destruct Hor as [?|[?|[c [? ?]]]]; simplify_eq; congruence
         end. }
  all: destruct b as [m s c t v p ev q a j ctl]; cbn in *; destruct v; cbn.
  all: repeat split; intros; simplify_eq; try reflexivity; try assumption;
         try (intuition discriminate); try contradiction.
  all: intros Hin;
       repeat (apply elem_of_cons in Hin as [Hin|Hin]; [discriminate|]);
       inversion Hin.
Qed.

End EventNameFacts.


(* ===================================================================== *)
(** * The skip cooldown                                                   *)
(* ===================================================================== *)

Section SkipCooldownFacts.

Lemma skipCommand_keeps_mode (cfg : Config) (env : SkipEnv) (b : Bot) :
  isCustomModeActive (skipCommand cfg env b).1.2 = isCustomModeActive b.
Proof.
  unfold skipCommand, startSkipPoll. repeat case_match; reflexivity.
Qed.

Lemma skipCommand_accepted_in_custom_mode (cfg : Config) (env : SkipEnv) (b : Bot) :
  (skipCommand cfg env b).1.1 <> SkipRefused -> isCustomModeActive b = true.
Proof.
  unfold skipCommand. destruct (isCustomModeActive b); [reflexivity|].
  intros Hne. exfalso. apply Hne. reflexivity.
Qed.

Lemma skipPollEnd_keeps_cooldown (env : SkipEndEnv) (p : Vote.Poll) (b : Bot) :
  skipVoteCooldownEndTimestamp (skipPollEnd env p b).1.2 = skipVoteCooldownEndTimestamp b
  /\ isCustomModeActive (skipPollEnd env p b).1.2 = isCustomModeActive b.
Proof.
  unfold skipPollEnd. repeat case_match; split; reflexivity.
Qed.

(** X6. The skip cooldown.  Once a [!skip] started a poll at time t, a
    [!skip] that arrives before t + 60000 ms is refused with the cooldown
    message, runs nothing and changes nothing, whether the poll is still
    open or has ended, passed or not.  After a bypass the 60000 ms count
    from the moment the script returned, whether it succeeded or not.  A
    poll whose message could not be sent leaves no cooldown behind, and a
    refused request changes no global. *)
Theorem skip_cooldown_blocks_the_next_request
    (cfg : Config) (env1 env2 : SkipEnv) (b : Bot) :
  let r1 := skipCommand cfg env1 b in
  let refused (b' : Bot) :=
    skipCommand cfg env2 b' = (SkipRefused, b', [Reply MsgSkipCooldown]) in
  (forall t, r1.1.1 = SkipPollStarted t ->
     (sk_now env2 < sk_now env1 + SKIP_VOTE_COOLDOWN_MS)%Z ->
     refused r1.1.2
     /\ forall (e : SkipEndEnv) (p : Vote.Poll), refused (skipPollEnd e p r1.1.2).1.2)
  /\ (forall ok, r1.1.1 = SkipBypassed ok ->
        (sk_now env2 < sk_later env1 + SKIP_VOTE_COOLDOWN_MS)%Z ->
        refused r1.1.2)
  /\ (r1.1.1 = SkipPollNotSent -> skipVoteCooldownEndTimestamp r1.1.2 = 0%Z)
  /\ (r1.1.1 = SkipRefused -> r1.1.2 = b /\ scripts_run r1.2 = []).
Proof.
  intros r1 refused.
  assert (Hcool : forall b', isCustomModeActive b' = true ->
            (sk_now env2 <? skipVoteCooldownEndTimestamp b')%Z = true -> refused b').
  { intros b' Hm Hc. unfold refused, skipCommand. rewrite Hm, Hc. reflexivity. }
  pose proof (skipCommand_keeps_mode cfg env1 b) as Hmode.
  pose proof (skipCommand_accepted_in_custom_mode cfg env1 b) as Hacc.
  fold r1 in Hmode, Hacc.
  assert (Hstate :
    match r1.1.1 with
    | SkipPollStarted _ =>
        skipVoteCooldownEndTimestamp r1.1.2 = (sk_now env1 + SKIP_VOTE_COOLDOWN_MS)%Z
    | SkipBypassed _ =>
        skipVoteCooldownEndTimestamp r1.1.2 = (sk_later env1 + SKIP_VOTE_COOLDOWN_MS)%Z
    | SkipPollNotSent => skipVoteCooldownEndTimestamp r1.1.2 = 0%Z
    | SkipRefused => r1.1.2 = b /\ scripts_run r1.2 = []
    end).
  { subst r1. unfold skipCommand. rewrite !startSkipPoll_outcome.
    repeat case_match; simplify_eq/=; try reflexivity; try (split; reflexivity);
      destruct (sk_pollSend_ok env1); simplify_eq; reflexivity. }
  clearbody r1. destruct r1 as [[o b1] fx1]. cbn [fst snd] in *.
  split; [|split; [|split]].
  - intros t ->. intros Hlt.
    assert (isCustomModeActive b1 = true) as Hm1 by (rewrite Hmode; apply Hacc; discriminate).
    split.
    + apply Hcool; [exact Hm1|]. rewrite Hstate. apply Z.ltb_lt. exact Hlt.
    + intros e p. destruct (skipPollEnd_keeps_cooldown e p b1) as [Hc Hm].
      apply Hcool; [congruence|]. rewrite Hc, Hstate. apply Z.ltb_lt. exact Hlt.
  - intros ok ->. intros Hlt.
    apply Hcool; [rewrite Hmode; apply Hacc; discriminate|].
    rewrite Hstate. apply Z.ltb_lt. exact Hlt.
  - intros ->. exact Hstate.
  - intros ->. exact Hstate.
Qed.

(** Two requests ten seconds apart: the first starts a poll, the second is
    refused. *)
Example skip_cooldown_run :
  let three := GuildVoice [human "1"; human "2"; human "3"] in
  let first := skipCommand sampleConfig (skipAt 1000 three) customBot in
  first.1.1 = SkipPollStarted 30000
  /\ skipCommand sampleConfig (skipAt 11000 three) first.1.2
     = (SkipRefused, first.1.2, [Reply MsgSkipCooldown])
  /\ (skipCommand sampleConfig (skipAt 61000 three) first.1.2).1.1
     = SkipPollStarted 30000.
Proof. vm_compute. repeat split; reflexivity. Qed.

End SkipCooldownFacts.


(* ===================================================================== *)
(** * Further properties of the download queue                            *)
(* ===================================================================== *)

Section QueueAccounting.
Context `{NodePath}.

Lemma single_activation (cfg : Config) (w : World) (k : nat) (a : Activation) :
  queue_inv cfg w -> activations w !! k = Some a -> activations w = [a] /\ k = 0.
Proof.
  intros Hinv Hk. pose proof (inv_one _ _ Hinv) as Hone.
  destruct (activations w) as [|a0 [|a1 l]]; [discriminate| |simpl in Hone; lia].
  destruct k; [|discriminate]. simpl in Hk. split; [congruence|reflexivity].
Qed.

Lemma accounted_step (cfg : Config) (w : World) (e : Event) :
  queue_inv cfg w -> accounted w -> accounted (step cfg w e).1.
Proof.
  intros Hinv Hacc. unfold accounted in *. destruct e; cbn [step fst].
  - unfold cmdYoutube, enqueue. repeat case_match; cbn; exact Hacc.
  - unfold cmdCancel. repeat case_match; cbn; exact Hacc.
  - unfold cmdCancelAll. repeat case_match; cbn; exact Hacc.
  - unfold processYoutubeQueue.
    destruct (queueChecks w); [exact Hacc|].
    destruct (isYoutubeDownloadActive (bot w)) eqn:Hf; [exact Hacc|].
    pose proof (inv_idle cfg w Hinv Hf) as Hidle.
    destruct (youtubeQueue (bot w)) as [|j rest]; [exact Hacc|].
    rewrite Hidle in *. cbn in Hacc. rewrite app_nil_r in Hacc.
    destruct (videoDownloadFolder cfg) as [root|].
    + destruct (prepareDownload root prep j) as [go fx]. cbn. congruence.
    + cbn. rewrite fmap_app, app_nil_r. cbn. congruence.
  - unfold downloadReturns.
    destruct (activations w !! k) as [a|] eqn:Hk; [|exact Hacc].
    destruct (act_phase a); [|exact Hacc].
    destruct (single_activation cfg w k a Hinv Hk) as [Ha ->].
    cbn. rewrite Ha in *. exact Hacc.
  - unfold jobFinally.
    destruct (activations w !! k) as [a|] eqn:Hk; [|exact Hacc].
    destruct (act_phase a); [exact Hacc|].
    destruct (single_activation cfg w k a Hinv Hk) as [Ha ->].
    cbn. rewrite Ha in *. cbn in *. rewrite fmap_app, app_nil_r. exact Hacc.
  - exact Hacc.
  - unfold cleanupAndExit. repeat case_match; cbn; exact Hacc.
Qed.

Lemma accounted_run (cfg : Config) (es : list Event) (w : World) :
  queue_inv cfg w -> accounted w -> accounted (run cfg es w).
Proof.
  revert w. induction es as [|e es IH]; intros w Hinv Hacc; [exact Hacc|].
  cbn [run fold_left]. apply IH; [apply inv_step, Hinv|apply accounted_step; assumption].
Qed.

Lemma sorted_lt_NoDup (l : list nat) : StronglySorted lt l -> NoDup l.
Proof.
  induction 1 as [|x l _ IH Hx]; constructor; [|exact IH].
  intros Hin. rewrite Forall_forall in Hx. specialize (Hx _ Hin). lia.
Qed.

(** X7. After any sequence of events from the start of the process, the
    jobs taken off the queue are exactly the jobs with a recorded outcome,
    in start order, followed by the job of the run in flight (if any): a
    job gets its outcome before the next one starts and no started job is
    lost.  Finished, running and queued jobs are pairwise distinct queue
    items: no item is downloaded twice and none is both running and
    queued. *)
Theorem every_started_job_is_accounted_for_once (cfg : Config) (es : list Event) :
  let w := run cfg es initialWorld in
  started w = (fst <$> finished w) ++ (act_job <$> activations w)
  /\ length (started w) = length (finished w) + length (activations w)
  /\ NoDup (job_id <$>
            ((fst <$> finished w) ++ (act_job <$> activations w)
             ++ youtubeQueue (bot w))).
Proof.
  intros w.
  pose proof (inv_run cfg es initialWorld (inv_initial cfg)) as Hinv.
  assert (accounted w) as Hacc.
  { apply accounted_run; [apply inv_initial|reflexivity]. }
  fold w in Hinv. clearbody w. unfold accounted in Hacc.
  split; [exact Hacc|]. split.
  - rewrite Hacc, length_app, !length_fmap. reflexivity.
  - rewrite app_assoc, <- Hacc. apply sorted_lt_NoDup, (inv_order _ _ Hinv).
Qed.

End QueueAccounting.


Section QueueCommands.
Context `{NodePath}.





End QueueCommands.


Section CancelOutcome.
Context `{NodePath}.

Lemma run_snoc (cfg : Config) (es : list Event) (e : Event) (w : World) :
  run cfg (es ++ [e]) w = (step cfg (run cfg es w) e).1.
Proof. unfold run. rewrite fold_left_app. reflexivity. Qed.

Lemma busy_globals (cfg : Config) (w : World) (a : Activation) :
  queue_inv cfg w -> activations w = [a] ->
  isYoutubeDownloadActive (bot w) = true
  /\ currentDownloadJob (bot w) = Some (act_job a)
  /\ currentAbortController (bot w) = Some (act_signal a)
  /\ act_signal a < length (controllers w).
Proof.
  intros Hinv Ha. split.
  - rewrite (inv_flag _ _ Hinv), Ha. reflexivity.
  - apply (inv_current _ _ Hinv). rewrite Ha. left.
Qed.

(** [!cancel] on a busy bot, in custom mode and with a folder. *)
Lemma cmdCancel_busy (cfg : Config) (userId : string) (w : World) (a : Activation) :
  queue_inv cfg w -> activations w = [a] ->
  isCustomModeActive (bot w) = true -> videoDownloadFolder cfg <> None ->
  let w1 := (cmdCancel cfg userId w).1 in
  activations w1 = [a]
  /\ aborted w1 (act_signal a) = same_user userId (act_job a) || aborted w (act_signal a)
  /\ finished w1 = finished w
  /\ queueChecks w1 = queueChecks w
  /\ youtubeQueue (bot w1)
     = List.filter (fun j => negb (same_user userId j)) (youtubeQueue (bot w)).
Proof.
  intros Hinv Ha Hmode Hfolder.
  destruct (busy_globals cfg w a Hinv Ha) as (Hf & Hj & Hc & Hlen).
  destruct (videoDownloadFolder cfg) as [root|] eqn:Hroot; [|contradiction].
  unfold cmdCancel. rewrite Hmode, Hroot, Hf, Hj, Hc. cbn [negb fst].
  destruct (same_user userId (act_job a)) eqn:Hu; cbn [orb].
  - unfold aborted. cbn. rewrite list_lookup_insert_eq by exact Hlen.
    repeat split; try reflexivity; assumption.
  - cbn. repeat split; try reflexivity; assumption.
Qed.

(** X9. In a state reached from the start of the process, in custom mode
    and with a download folder, while a download is running: after a
    [!cancel], whatever yt-dlp then reports (success included), the job
    ends Cancelled if the command came from the user who queued it; a
    [!cancel] of anybody else leaves the outcome to yt-dlp (Succeeded or
    Failed), unless the download had been aborted before.  Either way the
    outcome is recorded once, the lock is released, a queue check is
    pending, and the queue holds the other users' jobs. *)
Theorem cancel_by_owner_ends_the_download_cancelled
    (cfg : Config) (es : list Event) (userId : string) (ok : bool) (a : Activation) :
  let w := run cfg es initialWorld in
  isCustomModeActive (bot w) = true ->
  videoDownloadFolder cfg <> None ->
  activations w = [a] ->
  act_phase a = Downloading ->
  let w' := run cfg [Cancel userId; DownloadReturns 0 ok; JobFinally 0] w in
  finished w'
    = finished w ++ [(act_job a,
                      if same_user userId (act_job a) || aborted w (act_signal a)
                      then Cancelled else if ok then Succeeded else Failed)]
  /\ activations w' = []
  /\ isYoutubeDownloadActive (bot w') = false
  /\ currentDownloadJob (bot w') = None
  /\ 0 < queueChecks w'
  /\ youtubeQueue (bot w')
     = List.filter (fun j => negb (same_user userId j)) (youtubeQueue (bot w)).
Proof.
  intros w Hmode Hfolder Ha Hph.
  pose proof (inv_run cfg es initialWorld (inv_initial cfg)) as Hinv.
  fold w in Hinv. clearbody w.
  pose proof (cmdCancel_busy cfg userId w a Hinv Ha Hmode Hfolder) as Hc.
  cbv zeta in Hc. destruct Hc as (Ha1 & Hab1 & Hfin1 & Hqc1 & Hq1).
  cbn [run fold_left step].
  set (w1 := (cmdCancel cfg userId w).1) in *. clearbody w1.
  unfold downloadReturns. rewrite Ha1. cbn [lookup list_lookup]. rewrite Hph, Hab1.
  cbn [fst]. unfold jobFinally.
  cbn [activations lookup list_lookup list_insert insert act_phase set_phase].
  cbn. rewrite Hfin1, Hq1.
  repeat split; try reflexivity; lia.
Qed.

Lemma cancelled_while_running_snoc (cfg : Config) (es : list Event) (e : Event)
    (j : Job) :
  cancelled_while_running cfg es j -> cancelled_while_running cfg (es ++ [e]) j.
Proof.
  intros (es1 & e0 & es2 & -> & Hc & Ha).
  exists es1, e0, (es2 ++ [e]). rewrite <- app_assoc. auto.
Qed.

Lemma cancelled_while_running_now (cfg : Config) (es : list Event) (e : Event)
    (a : Activation) :
  activations (run cfg es initialWorld) = [a] ->
  cancels (act_job a) (isCustomModeActive (bot (run cfg es initialWorld))) e = true ->
  cancelled_while_running cfg (es ++ [e]) (act_job a).
Proof.
  intros Ha Hc. exists es, e, []. repeat split; try assumption.
  exists a. split; [exact Ha|reflexivity].
Qed.

Lemma aborted_abort (c c' : nat) (w : World) :
  aborted (abort c w) c' = true -> c' = c \/ aborted w c' = true.
Proof.
  unfold aborted, abort. cbn [controllers].
  destruct (decide (c = c')) as [->|Hne]; [left; reflexivity|].
  rewrite list_lookup_insert_ne by exact Hne. right. assumption.
Qed.

Lemma aborted_set_bot (b : Bot) (w : World) (c : nat) :
  aborted (set_bot b w) c = aborted w c.
Proof. reflexivity. Qed.

(** What a cancel command and the shutdown can abort. *)
Lemma cancel_aborts_only_the_run_in_flight (cfg : Config) (e : Event) (w : World) :
  match e with Cancel _ | CancelAll _ | Shutdown => True | _ => False end ->
  let w' := (step cfg w e).1 in
  activations w' = activations w /\ finished w' = finished w
  /\ forall c, aborted w' c = true ->
       aborted w c = true
       \/ (currentAbortController (bot w) = Some c
           /\ forall j, currentDownloadJob (bot w) = Some j ->
                 cancels j (isCustomModeActive (bot w)) e = true).
Proof.
  destruct e as [|userId|userIsAdmin| | | | |]; try contradiction; intros _; cbn [step].
  - unfold cmdCancel.
    destruct (isCustomModeActive (bot w)) eqn:Hm; cbn [negb fst]; [|auto].
    destruct (videoDownloadFolder cfg); [|auto].
    destruct (isYoutubeDownloadActive (bot w)); [|cbn; auto].
    destruct (currentDownloadJob (bot w)) as [j|]; [|cbn; auto].
    destruct (currentAbortController (bot w)) as [c|]; [|cbn; auto].
    destruct (same_user userId j) eqn:Hu; [|cbn; auto].
    cbn. repeat split; try reflexivity. intros c' Hab.
    change (aborted (abort c w) c' = true) in Hab.
    apply aborted_abort in Hab as [->|Hab]; [right|left; exact Hab].
    repeat split; try reflexivity. intros j' [= <-]. exact Hu.
  - unfold cmdCancelAll.
    destruct userIsAdmin; cbn [negb fst]; [|auto].
    destruct (isCustomModeActive (bot w)) eqn:Hm; cbn [negb fst]; [|auto].
    destruct (videoDownloadFolder cfg); [|auto].
    destruct (isYoutubeDownloadActive (bot w)); [|cbn; auto].
    destruct (currentAbortController (bot w)) as [c|]; [|cbn; auto].
    cbn. repeat split; try reflexivity. intros c' Hab.
    change (aborted (abort c w) c' = true) in Hab.
    apply aborted_abort in Hab as [->|Hab]; [right|left; exact Hab].
    repeat split; reflexivity.
  - unfold cleanupAndExit.
    destruct (currentAbortController (bot w)) as [c|]; [|cbn; auto].
    destruct (aborted w c); [cbn; auto|].
    cbn [fst]. repeat split; try reflexivity. intros c' Hab.
    apply aborted_abort in Hab as [->|Hab]; [right|left; exact Hab].
    split; reflexivity.
Qed.

(** X10. A download is recorded as Cancelled only if it was aborted
    while it was running: in any history from the start of the process,
    shutdown signals included, for every job with outcome Cancelled there
    is a moment at which that job was the one in flight and the next
    event was a [!cancel] of the user who queued it or a [!cancelall] of
    an administrator (or the button of [!remote] that does the same),
    with the bot in custom mode, or the shutdown of the process (SIGINT
    or SIGTERM), in any mode; the same holds for the run
    in flight as soon as its signal is aborted or its download has
    settled as cancelled.  Aborting one download therefore never cancels
    a later one (each run starts with a fresh, unaborted signal), and
    commands refused outside custom mode cancel nothing. *)
Theorem cancelled_only_if_cancelled_while_running (cfg : Config) (es : list Event) :
  let w := run cfg es initialWorld in
  (forall a, a ∈ activations w ->
     aborted w (act_signal a) = true \/ act_phase a = Settled Cancelled ->
     cancelled_while_running cfg es (act_job a))
  /\ (forall j, (j, Cancelled) ∈ finished w -> cancelled_while_running cfg es j).
Proof.
  induction es as [|e es IH] using rev_ind.
  { cbn. split; intros ? Hin; inversion Hin. }
  cbv zeta in *. rewrite run_snoc.
  pose proof (inv_run cfg es initialWorld (inv_initial cfg)) as Hinv.
  destruct IH as [IHa IHf].
  set (w := run cfg es initialWorld) in *.
  assert (Hkeep : forall w' : World,
            activations w' = activations w -> finished w' = finished w ->
            (forall c, aborted w' c = aborted w c) ->
    (forall a, a ∈ activations w' ->
       aborted w' (act_signal a) = true \/ act_phase a = Settled Cancelled ->
       cancelled_while_running cfg (es ++ [e]) (act_job a))
    /\ (forall j, (j, Cancelled) ∈ finished w' ->
          cancelled_while_running cfg (es ++ [e]) j)).
  { intros w' Ha Hf Hab. rewrite Ha, Hf. split.
    - intros a Hin Hor. rewrite Hab in Hor.
      apply cancelled_while_running_snoc, IHa; assumption.
    - intros j Hin. apply cancelled_while_running_snoc, IHf; assumption. }
  destruct e as [r|userId|userIsAdmin|prep|k ok|k|custom|].
  - (* !youtube *)
    apply Hkeep; cbn [step fst]; unfold cmdYoutube, enqueue;
      repeat case_match; reflexivity.
  - (* !cancel *)
    destruct (cancel_aborts_only_the_run_in_flight cfg (Cancel userId) w I)
      as (Ha & Hf & Hab).
    rewrite Ha, Hf. split.
    + intros a Hin [Hor|Hor].
      * apply Hab in Hor as [Hor|(Hc & Hj)].
        -- apply cancelled_while_running_snoc, IHa; auto.
        -- assert (activations w = [a]) as Hone.
           { pose proof (inv_one _ _ Hinv) as Hlen.
             destruct (activations w) as [|a0 [|a1 l]];
               [inversion Hin| |simpl in Hlen; lia].
             apply list_elem_of_singleton in Hin. congruence. }
           destruct (busy_globals cfg w a Hinv Hone) as (_ & Hjob & _).
           apply cancelled_while_running_now; auto.
      * apply cancelled_while_running_snoc, IHa; auto.
    + intros j Hin. apply cancelled_while_running_snoc, IHf; assumption.
  - (* !cancelall *)
    destruct (cancel_aborts_only_the_run_in_flight cfg (CancelAll userIsAdmin) w I)
      as (Ha & Hf & Hab).
    rewrite Ha, Hf. split.
    + intros a Hin [Hor|Hor].
      * apply Hab in Hor as [Hor|(Hc & Hj)].
        -- apply cancelled_while_running_snoc, IHa; auto.
        -- assert (activations w = [a]) as Hone.
           { pose proof (inv_one _ _ Hinv) as Hlen.
             destruct (activations w) as [|a0 [|a1 l]];
               [inversion Hin| |simpl in Hlen; lia].
             apply list_elem_of_singleton in Hin. congruence. }
           destruct (busy_globals cfg w a Hinv Hone) as (_ & Hjob & _).
           apply cancelled_while_running_now; auto.
      * apply cancelled_while_running_snoc, IHa; auto.
    + intros j Hin. apply cancelled_while_running_snoc, IHf; assumption.
  - (* a queue check fires *)
    cbn [step]. unfold processYoutubeQueue.
    destruct (queueChecks w) as [|pending] eqn:Hqc.
    { apply Hkeep; reflexivity. }
    destruct (isYoutubeDownloadActive (bot w)) eqn:Hflag.
    { apply Hkeep; reflexivity. }
    pose proof (inv_idle cfg w Hinv Hflag) as Hidle.
    destruct (youtubeQueue (bot w)) as [|j rest] eqn:Hq.
    { apply Hkeep; reflexivity. }
    destruct (videoDownloadFolder cfg) as [root|].
    + destruct (prepareDownload root prep j) as [go fx]. cbn [fst activations finished].
      rewrite Hidle. split.
      * intros a Hin Hor. exfalso. cbn in Hin. apply list_elem_of_singleton in Hin.
        subst a. cbn [act_signal act_phase] in Hor. destruct Hor as [Hor|Hor].
        -- unfold aborted in Hor. cbn [controllers] in Hor.
           rewrite lookup_app_r in Hor by lia. rewrite Nat.sub_diag in Hor.
           discriminate Hor.
        -- destruct go; discriminate Hor.
      * intros j' Hin. apply cancelled_while_running_snoc, IHf; assumption.
    + cbn [fst activations finished]. rewrite Hidle. split.
      * intros a Hin. inversion Hin.
      * intros j' Hin. apply elem_of_app in Hin as [Hin|Hin].
        -- apply cancelled_while_running_snoc, IHf; assumption.
        -- apply list_elem_of_singleton in Hin. discriminate Hin.
  - (* yt-dlp settles *)
    cbn [step]. unfold downloadReturns.
    destruct (activations w !! k) as [a|] eqn:Hk.
    2:{ apply Hkeep; reflexivity. }
    destruct (act_phase a) eqn:Hph.
    2:{ apply Hkeep; reflexivity. }
    destruct (single_activation cfg w k a Hinv Hk) as [Ha ->].
    cbn [fst activations finished]. rewrite Ha. cbn. split.
    + intros a' Hin Hor. apply list_elem_of_singleton in Hin. subst a'.
      cbn [act_job act_signal act_phase set_phase] in *.
      apply cancelled_while_running_snoc, IHa; [rewrite Ha; left|].
      left. destruct Hor as [Hor|Hor]; [exact Hor|].
      unfold aborted in *. cbn [controllers] in *.
      destruct (match controllers w !! act_signal a with Some f => f | None => false end);
        [reflexivity|destruct ok; discriminate Hor].
    + intros j Hin. apply cancelled_while_running_snoc, IHf; assumption.
  - (* the finally block *)
    cbn [step]. unfold jobFinally.
    destruct (activations w !! k) as [a|] eqn:Hk.
    2:{ apply Hkeep; reflexivity. }
    destruct (act_phase a) as [|t] eqn:Hph.
    { apply Hkeep; reflexivity. }
    destruct (single_activation cfg w k a Hinv Hk) as [Ha ->].
    cbn [fst activations finished]. rewrite Ha. cbn. split.
    + intros a' Hin. inversion Hin.
    + intros j Hin. apply elem_of_app in Hin as [Hin|Hin].
      * apply cancelled_while_running_snoc, IHf; assumption.
      * apply list_elem_of_singleton in Hin. injection Hin as Hj Ht. subst j t.
        apply cancelled_while_running_snoc, IHa; [rewrite Ha; left|].
        right. exact Hph.
  - (* mode change *)
    apply Hkeep; reflexivity.
  - (* shutdown *)
    destruct (cancel_aborts_only_the_run_in_flight cfg Shutdown w I)
      as (Ha & Hf & Hab).
    rewrite Ha, Hf. split.
    + intros a Hin [Hor|Hor].
      * apply Hab in Hor as [Hor|(Hc & Hj)].
        -- apply cancelled_while_running_snoc, IHa; auto.
        -- assert (activations w = [a]) as Hone.
           { pose proof (inv_one _ _ Hinv) as Hlen.
             destruct (activations w) as [|a0 [|a1 l]];
               [inversion Hin| |simpl in Hlen; lia].
             apply list_elem_of_singleton in Hin. congruence. }
           destruct (busy_globals cfg w a Hinv Hone) as (_ & Hjob & _).
           apply cancelled_while_running_now; auto.
      * apply cancelled_while_running_snoc, IHa; auto.
    + intros j Hin. apply cancelled_while_running_snoc, IHf; assumption.
Qed.

End CancelOutcome.

Section CancelOutcomeRuns.

(** Scenario 3 continued: ann cancels, yt-dlp still reports success, and
    her download is recorded as Cancelled; bob's job stays queued. *)
Lemma cancel_by_owner_witness :
  let w := run (H := samplePath) sampleConfig scenario3 initialWorld in
  let w' := run (H := samplePath) sampleConfig
              [Cancel "1"; DownloadReturns 0 true; JobFinally 0] w in
  finished w' = [(act_job scenario3_active, Cancelled)]
  /\ (uid ∘ user <$> youtubeQueue (bot w')) = ["2"].
Proof.
  intros w w'.
  pose proof (cancel_by_owner_ends_the_download_cancelled (H := samplePath)
                sampleConfig scenario3 "1" true scenario3_active
                eq_refl ltac:(discriminate) eq_refl eq_refl) as Hthm.
  cbv zeta in Hthm. fold w in Hthm. fold w' in Hthm.
  destruct Hthm as (Hfin & _ & _ & _ & _ & Hq). split.
  - rewrite Hfin. vm_compute. reflexivity.
  - rewrite Hq. vm_compute. reflexivity.
Defined.

(** The same history, read backwards: the Cancelled outcome of ann's
    download is explained by a cancel command that reached it.  And when
    the process is shut down while her download runs, the download ends
    Cancelled without any command, which the shutdown explains. *)
Lemma cancelled_only_if_cancelled_witness :
  cancelled_while_running (H := samplePath) sampleConfig
    (scenario3 ++ [Cancel "1"; DownloadReturns 0 true; JobFinally 0])
    (act_job scenario3_active)
  /\ finished (run (H := samplePath) sampleConfig
                 (scenario3 ++ [Shutdown; DownloadReturns 0 true; JobFinally 0])
                 initialWorld)
     = [(act_job scenario3_active, Cancelled)]
  /\ cancelled_while_running (H := samplePath) sampleConfig
       (scenario3 ++ [Shutdown; DownloadReturns 0 true; JobFinally 0])
       (act_job scenario3_active).
Proof.
  assert (finished (run (H := samplePath) sampleConfig
                      (scenario3 ++ [Cancel "1"; DownloadReturns 0 true; JobFinally 0])
                      initialWorld)
          = [(act_job scenario3_active, Cancelled)]) as Hcancel
    by (vm_compute; reflexivity).
  assert (finished (run (H := samplePath) sampleConfig
                      (scenario3 ++ [Shutdown; DownloadReturns 0 true; JobFinally 0])
                      initialWorld)
          = [(act_job scenario3_active, Cancelled)]) as Hshutdown
    by (vm_compute; reflexivity).
  split; [|split; [exact Hshutdown|]].
  - apply (proj2 (cancelled_only_if_cancelled_while_running (H := samplePath)
                    sampleConfig
                    (scenario3 ++ [Cancel "1"; DownloadReturns 0 true; JobFinally 0]))).
    rewrite Hcancel. left.
  - apply (proj2 (cancelled_only_if_cancelled_while_running (H := samplePath)
                    sampleConfig
                    (scenario3 ++ [Shutdown; DownloadReturns 0 true; JobFinally 0]))).
    rewrite Hshutdown. left.
Defined.

End CancelOutcomeRuns.


Section QueueTrace.
Context `{NodePath}.

Lemma prepareDownload_effects (root : jsstring) (prep : PrepEnv) (j j' : Job) :
  (Send (MsgFolderNotConfigured j') ∉ (prepareDownload root prep j).2).
Proof.
  unfold prepareDownload, chooseSubfolder.
  repeat case_match; cbn; intros Hin;
    repeat (apply elem_of_cons in Hin as [Hin|Hin]; [discriminate|]);
    inversion Hin.
Qed.

Lemma step_never_reports_missing_folder (cfg : Config) (w : World) (e : Event)
    (j : Job) :
  queue_inv cfg w -> (Send (MsgFolderNotConfigured j) ∉ (step cfg w e).2).
Proof.
  intros Hinv Hin. destruct e; cbn [step snd] in Hin.
  - inversion Hin.
  - unfold cmdCancel in Hin. repeat case_match; cbn in Hin;
      repeat (apply elem_of_cons in Hin as [Hin|Hin]; [discriminate|]);
      inversion Hin.
  - unfold cmdCancelAll in Hin. repeat case_match; cbn in Hin;
      repeat (apply elem_of_cons in Hin as [Hin|Hin]; [discriminate|]);
      inversion Hin.
  - unfold processYoutubeQueue in Hin.
    destruct (queueChecks w); [inversion Hin|].
    destruct (isYoutubeDownloadActive (bot w)); [inversion Hin|].
    destruct (youtubeQueue (bot w)) as [|j0 rest] eqn:Hq; [inversion Hin|].
    destruct (videoDownloadFolder cfg) as [root|] eqn:Hroot.
    + pose proof (prepareDownload_effects root prep j0 j) as Hno.
      destruct (prepareDownload root prep j0) as [go fx]. cbn in *. contradiction.
    + rewrite (inv_folder _ _ Hinv Hroot) in Hq. discriminate.
  - unfold downloadReturns in Hin. repeat case_match; cbn in Hin;
      repeat (apply elem_of_cons in Hin as [Hin|Hin]; [discriminate|]);
      inversion Hin.
  - unfold jobFinally in Hin. repeat case_match; cbn in Hin; inversion Hin.
  - inversion Hin.
  - unfold cleanupAndExit in Hin. repeat case_match; cbn in Hin;
      repeat (apply elem_of_cons in Hin as [Hin|Hin]; [discriminate|]);
      inversion Hin.
Qed.

(** X11. The branch of the queue worker that drops a job with the
    message that the download folder is not configured is never taken:
    [!youtube] queues nothing without a folder, so in no history from the
    start of the process is that message sent, and without a folder
    nothing is ever queued, started or finished. *)
Theorem folder_not_configured_is_never_reported
    (cfg : Config) (es : list Event) (j : Job) :
  (Send (MsgFolderNotConfigured j) ∉ trace cfg es initialWorld)
  /\ (videoDownloadFolder cfg = None ->
      let w := run cfg es initialWorld in
      youtubeQueue (bot w) = [] /\ started w = [] /\ finished w = []
      /\ activations w = []).
Proof.
  split.
  - pose proof (inv_initial cfg) as Hinv. revert Hinv.
    generalize initialWorld as w.
    induction es as [|e es IH]; intros w Hinv Hin; [inversion Hin|].
    cbn [trace] in Hin. apply elem_of_app in Hin as [Hin|Hin].
    + exact (step_never_reports_missing_folder cfg w e j Hinv Hin).
    + exact (IH _ (inv_step cfg w e Hinv) Hin).
  - intros Hnone.
    assert (forall w, queue_inv cfg w -> started w = [] -> finished w = [] ->
              activations w = [] ->
              started (run cfg es w) = [] /\ finished (run cfg es w) = []
              /\ activations (run cfg es w) = [] /\ queue_inv cfg (run cfg es w)) as Hrun.
    { induction es as [|e es IH]; intros w Hinv Hs Hf Ha; [cbn; auto|].
      cbn [run fold_left]. apply IH; [apply inv_step, Hinv| | |].
      all: pose proof (inv_folder _ _ Hinv Hnone) as Hq.
      all: destruct e; cbn [step fst];
        unfold cmdYoutube, cmdCancel, cmdCancelAll, processYoutubeQueue,
          downloadReturns, jobFinally, cleanupAndExit;
        rewrite ?Hnone, ?Hq, ?Ha; repeat case_match; cbn;
        try assumption; try reflexivity;
        try match goal with Hk : [] !! _ = Some _ |- _ => discriminate Hk end. }
    destruct (Hrun initialWorld (inv_initial cfg) eq_refl eq_refl eq_refl)
      as (Hs & Hf & Ha & Hinv).
    cbv zeta. repeat split; try assumption. exact (inv_folder _ _ Hinv Hnone).
Qed.

End QueueTrace.


(* ===================================================================== *)
(** * Properties of the still-watching timer                              *)
(* ===================================================================== *)

Section TimerFacts.

Lemma omap_inr_fmap (fx : list Effect) :
  omap (fun x : PromptAction + Effect =>
          match x with inr e => Some e | inl _ => None end) (inr <$> fx) = fx.
Proof. induction fx as [|e fx IH]; [reflexivity|]. cbn. f_equal. exact IH. Qed.

(** What [endCustomMode] leaves behind when called from a channel. *)
Lemma endCustomMode_summary (cfg : Config) (show : option jsstring) (env : EndEnv)
    (b : Bot) :
  let r := endCustomMode cfg show FromChannel env b in
  let done := isCustomModeActive b && ee_status_ok env && ee_script_ok env in
  isCustomModeActive r.1.2 = isCustomModeActive b && negb done
  /\ customModeTimerId r.1.2 = false
  /\ vlcTitleCheckIntervalId r.1.2 = false
  /\ stillWatchingPromptMessage r.1.2 = false
  /\ consecutiveSkipVotes r.1.2 = (if done then 0 else consecutiveSkipVotes b)
  /\ scripts_run r.2 = (if isCustomModeActive b && ee_status_ok env
                        then [CustomAhkPathBack] else []).
Proof.
  intros r done. subst r done.
  unfold endCustomMode, stopVlcTitleCheckInterval.
  repeat match goal with
  | |- context [updateEventNameInternal ?c ?s ?a ?n ?b] =>
      let Hf := fresh "Hframe" in
      let e := fresh "e" in
      let Hfx := fresh "Hfx" in
      pose proof (updateEventNameInternal_frame c s a n b) as Hf;
      cbv zeta in Hf; destruct Hf as [[e Hf] Hfx];
      destruct (updateEventNameInternal c s a n b) as [[? ?] ?];
      cbn [fst snd] in Hf, Hfx; subst
  end.
  destruct b as [m s c t v p ev q a j ctl]; cbn.
  destruct v, p, m; cbn; destruct (ee_status_ok env), (ee_script_ok env); cbn;
    repeat case_match; cbn; rewrite ?scripts_run_cons;
    repeat match goal with
    | Hl : Forall _ ?l |- _ => rewrite (scripts_run_event_calls l Hl); clear Hl
    end; repeat split; reflexivity.
Qed.

(** X12. An unanswered still-watching prompt ends custom mode.  In custom
    mode with the timer armed: when the timer fires the prompt is sent (an
    older prompt is deleted first) and the timer is no longer armed; when
    the prompt then times out, or somebody answers No, or the prompt could
    not be sent at all, [endCustomMode] runs: the switch-back script is
    run, once, exactly when the status message that announces it is
    delivered, and not at all when that message is rejected; the bot is
    back in scheduled mode if, and only if, the status message and the
    script both succeed, and then the skip streak is zero; in every case
    no timer, interval or prompt is left. *)
Theorem unanswered_prompt_ends_custom_mode
    (cfg : Config) (show : option jsstring) (env : TimerEnv) (b : Bot) :
  isCustomModeActive b = true ->
  customModeTimerId b = true ->
  let fired := customModeTimerFires cfg show env b in
  let back := ee_status_ok (te_end env) && ee_script_ok (te_end env) in
  let ended (r : Bot * list (PromptAction + Effect)) :=
    isCustomModeActive r.1 = negb back
    /\ customModeTimerId r.1 = false
    /\ vlcTitleCheckIntervalId r.1 = false
    /\ stillWatchingPromptMessage r.1 = false
    /\ (back = true -> consecutiveSkipVotes r.1 = 0)
    /\ timer_scripts r.2 = (if ee_status_ok (te_end env) then [CustomAhkPathBack] else []) in
  (te_promptSend_ok env = true ->
     isCustomModeActive fired.1 = true
     /\ customModeTimerId fired.1 = false
     /\ stillWatchingPromptMessage fired.1 = true
     /\ last fired.2 = Some (inl SendPrompt)
     /\ timer_scripts fired.2 = []
     /\ ended (stillWatchingEnd cfg show true (te_end env) fired.1)
     /\ ended (stillWatchingCollect cfg show true StillWatchingNo (te_end env) fired.1))
  /\ (te_promptSend_ok env = false -> ended fired).
Proof.
  intros Hmode Htimer fired back ended. subst fired.
  unfold customModeTimerFires. rewrite Htimer. cbn [negb].
  set (b2 := if stillWatchingPromptMessage (set_customModeTimerId false b)
             then set_stillWatchingPromptMessage false (set_customModeTimerId false b)
             else set_customModeTimerId false b).
  assert (isCustomModeActive b2 = true) as Hm2.
  { subst b2. destruct (stillWatchingPromptMessage _); exact Hmode. }
  assert (forall b', isCustomModeActive b' = true ->
            forall head : list (PromptAction + Effect), timer_scripts head = [] ->
            let r := endCustomMode cfg show FromChannel (te_end env) b' in
            ended (r.1.2, head ++ (inr <$> r.2))) as Hend.
  { intros b' Hm' head Hhead r.
    pose proof (endCustomMode_summary cfg show (te_end env) b') as Hs.
    cbv zeta in Hs. fold r in Hs. rewrite Hm' in Hs. cbn [andb] in Hs.
    destruct Hs as (Hm & Ht & Hv & Hp & Hc & Hscr).
    subst ended. cbn [fst snd]. fold back in Hm, Hc. 
    repeat split; try assumption.
    - intros Hb. rewrite Hc, Hb. reflexivity.
    - unfold timer_scripts in *. rewrite omap_app, scripts_run_app, Hhead.
      rewrite omap_inr_fmap. exact Hscr. }
  split; intros Hsend; rewrite Hsend.
  - cbn [fst snd].
    assert (stillWatchingPromptMessage (set_stillWatchingPromptMessage true b2) = true)
      as Hp by reflexivity.
    assert (isCustomModeActive (set_stillWatchingPromptMessage true b2) = true)
      as Hm3 by exact Hm2.
    split; [exact Hm3|]. split; [subst b2; destruct (stillWatchingPromptMessage _); reflexivity|].
    split; [reflexivity|]. split; [rewrite last_snoc; reflexivity|].
    split; [destruct (stillWatchingPromptMessage _); reflexivity|].
    split.
    + unfold stillWatchingEnd. rewrite Hp. cbn [andb].
      specialize (Hend (set_stillWatchingPromptMessage false
                          (set_stillWatchingPromptMessage true b2))
                       Hm2 [inl EditPromptNoResponse] eq_refl).
      cbv zeta in Hend.
      destruct (endCustomMode cfg show FromChannel (te_end env) _) as [[ok b3] fx3].
      exact Hend.
    + unfold stillWatchingCollect. rewrite Hp. cbn [negb].
      specialize (Hend (set_stillWatchingPromptMessage false
                          (set_stillWatchingPromptMessage true b2))
                       Hm2 [inl EditPromptSwitchingBack] eq_refl).
      cbv zeta in Hend.
      destruct (endCustomMode cfg show FromChannel (te_end env) _) as [[ok b3] fx3].
      exact Hend.
  - specialize (Hend b2 Hm2
      ((if stillWatchingPromptMessage (set_customModeTimerId false b)
        then [inr DeletePrompt] else []) ++ [inl SendPrompt])
      ltac:(destruct (stillWatchingPromptMessage _); reflexivity)).
    cbv zeta in Hend.
    destruct (endCustomMode cfg show FromChannel (te_end env) b2) as [[ok b3] fx3].
    cbn [fst snd] in *. rewrite <- app_assoc in Hend. exact Hend.
Qed.

(** Scenario: the timer fires, nobody answers, the script works. *)
Lemma unanswered_prompt_witness :
  let fired := customModeTimerFires sampleConfig None promptSent armedBot in
  let timedOut := stillWatchingEnd sampleConfig None true backOk fired.1 in
  stillWatchingPromptMessage fired.1 = true
  /\ isCustomModeActive timedOut.1 = false
  /\ customModeTimerId timedOut.1 = false
  /\ timer_scripts timedOut.2 = [CustomAhkPathBack].
Proof.
  intros fired timedOut.
  pose proof (proj1 (unanswered_prompt_ends_custom_mode sampleConfig None promptSent
                       armedBot eq_refl eq_refl) eq_refl) as Hthm.
  cbv zeta in Hthm. fold fired in Hthm. fold timedOut in Hthm.
  destruct Hthm as (_ & _ & Hp & _ & _ & (Hm & Ht & _ & _ & _ & Hs) & _).
  repeat split; assumption.
Defined.

(** X13. Answering Yes keeps custom mode going.  In custom mode with the
    timer armed and the prompt sent: a Yes click restarts the timer (and
    the VLC title interval when a voice channel is configured), forgets the
    prompt, runs no script, calls nothing but the edit of the prompt and
    leaves mode, skip streak, cooldown, event handle and downloads as they
    were; the ['end'] handler that the stopped collector then runs does
    nothing, and so does any further click on the answered prompt or a
    click whose acknowledgement fails. *)
Theorem answering_yes_restarts_the_timer
    (cfg : Config) (show : option jsstring) (env : TimerEnv) (e : EndEnv) (b : Bot) :
  isCustomModeActive b = true ->
  customModeTimerId b = true ->
  te_promptSend_ok env = true ->
  let fired := customModeTimerFires cfg show env b in
  let r := stillWatchingCollect cfg show true StillWatchingYes e fired.1 in
  r.2 = [inl EditPromptRestarting]
  /\ isCustomModeActive r.1 = true
  /\ customModeTimerId r.1 = true
  /\ vlcTitleCheckIntervalId r.1 = targetVoiceChannel cfg
  /\ stillWatchingPromptMessage r.1 = false
  /\ consecutiveSkipVotes r.1 = consecutiveSkipVotes b
  /\ skipVoteCooldownEndTimestamp r.1 = skipVoteCooldownEndTimestamp b
  /\ managedGuildEvent r.1 = managedGuildEvent b
  /\ youtubeQueue r.1 = youtubeQueue b
  /\ currentDownloadJob r.1 = currentDownloadJob b
  /\ (forall reason_time, stillWatchingEnd cfg show reason_time e r.1 = (r.1, []))
  /\ (forall button, stillWatchingCollect cfg show true button e r.1 = (r.1, []))
  /\ (forall button, stillWatchingCollect cfg show false button e fired.1 = (fired.1, [])).
Proof.
  intros Hmode Htimer Hsend fired r. subst r fired.
  unfold customModeTimerFires, stillWatchingCollect, stillWatchingEnd,
    startCustomModeTimer, startVlcTitleCheckInterval.
  rewrite Htimer, Hsend.
  destruct b as [m s c t v p ev q a j ctl]; cbn in *. subst m t.
  destruct p, v, (targetVoiceChannel cfg); cbn; repeat split; reflexivity.
Qed.

Lemma answering_yes_witness :
  let fired := customModeTimerFires sampleConfig None promptSent armedBot in
  let r := stillWatchingCollect sampleConfig None true StillWatchingYes backOk fired.1 in
  customModeTimerId fired.1 = false
  /\ customModeTimerId r.1 = true
  /\ isCustomModeActive r.1 = true.
Proof.
  intros fired r.
  pose proof (answering_yes_restarts_the_timer sampleConfig None promptSent backOk
                armedBot eq_refl eq_refl eq_refl) as Hthm.
  cbv zeta in Hthm. fold fired in Hthm. fold r in Hthm.
  destruct Hthm as (_ & Hm & Ht & _).
  split; [reflexivity|]. split; assumption.
Defined.

End TimerFacts.


(* ===================================================================== *)
(** * Properties of the file browser                                      *)
(* ===================================================================== *)

Section BrowseFacts.
Import Browse.

Lemma ceil_div_bounds (n : Z) :
  (0 <= n)%Z ->
  (n <= 10 * ceil_div n 10 /\ 10 * ceil_div n 10 < n + 10)%Z.
Proof. intros Hn. unfold ceil_div. Z.div_mod_to_equations. lia. Qed.

Lemma slice_page {A} (l : list A) (k : nat) :
  js_slice l (Z.of_nat k * 10) (Z.of_nat k * 10 + 10) = take 10 (drop (k * 10) l).
Proof.
  unfold js_slice.
  assert ((Z.of_nat k * 10 <? 0)%Z = false) as -> by (apply Z.ltb_ge; lia).
  assert ((Z.of_nat k * 10 + 10 <? 0)%Z = false) as -> by (apply Z.ltb_ge; lia).
  destruct (le_lt_dec (k * 10) (length l)) as [Hle|Hgt].
  - rewrite (Z.min_l (Z.of_nat k * 10)) by lia.
    replace (Z.to_nat (Z.of_nat k * 10)) with (k * 10) by lia.
    destruct (le_lt_dec (k * 10 + 10) (length l)) as [Hle2|Hgt2].
    + rewrite Z.min_l by lia. f_equal. lia.
    + rewrite Z.min_r by lia.
      replace (Z.to_nat (Z.of_nat (length l) - Z.of_nat k * 10))
        with (length l - k * 10) by lia.
      rewrite (take_ge (drop (k * 10) l) 10) by (rewrite length_drop; lia).
      apply take_ge. rewrite length_drop. lia.
  - rewrite !Z.min_r by lia. rewrite Z.sub_diag. cbn [Z.to_nat take].
    rewrite (drop_ge l (k * 10)) by lia. reflexivity.
Qed.

Lemma pageItems_chunk (s : Session) :
  (1 <= currentPage s)%Z ->
  pageItems s = take 10 (drop (Z.to_nat (currentPage s - 1) * 10) (items s)).
Proof.
  intros Hp. unfold pageItems, BROWSE_ITEMS_PER_PAGE. cbv zeta.
  rewrite <- slice_page. f_equal; lia.
Qed.

Lemma chunks_concat {A} (l : list A) (n : nat) :
  concat ((fun k => take 10 (drop (k * 10) l)) <$> seq 0 n) = take (n * 10) l.
Proof.
  induction n as [|n IH]; [reflexivity|].
  rewrite seq_S, fmap_app, concat_app, IH. cbn [fmap list_fmap concat plus].
  rewrite app_nil_r.
  replace (S n * 10) with (n * 10 + 10) by lia.
  rewrite <- take_take_drop. reflexivity.
Qed.

Lemma on_a_page_update (contents : option (list Item)) (search : option (Item -> bool))
    (s : Session) :
  on_a_page (updateBrowseSessionView contents search s).2.
Proof.
  unfold updateBrowseSessionView, on_a_page.
  destruct contents as [all|]; cbn; [|split; [lia|reflexivity]].
  split; [lia|reflexivity].
Qed.

Lemma on_a_page_apply (s : Session) (op : Op) : on_a_page s -> on_a_page (apply_op s op).
Proof.
  intros [Hp Ht]. destruct op as [contents search|button]; cbn [apply_op].
  - apply on_a_page_update.
  - unfold navigate, on_a_page. destruct button.
    + destruct (1 <? currentPage s)%Z eqn:Hc; cbn; [|auto].
      apply Z.ltb_lt in Hc. split; [lia|exact Ht].
    + destruct (currentPage s <? totalPages s)%Z eqn:Hc; cbn; [|auto].
      apply Z.ltb_lt in Hc. split; [lia|exact Ht].
Qed.

Lemma on_a_page_reachable (ops : list Op) :
  on_a_page (fold_left apply_op ops initialSessionData).
Proof.
  assert (on_a_page initialSessionData) as H0 by (split; [cbn; lia|reflexivity]).
  revert H0. generalize initialSessionData as s.
  induction ops as [|op ops IH]; intros s Hs; [exact Hs|].
  cbn [fold_left]. apply IH, on_a_page_apply, Hs.
Qed.

Lemma page_within_items (s : Session) :
  on_a_page s -> items s <> [] ->
  Z.to_nat (currentPage s - 1) * 10 < length (items s).
Proof.
  intros [Hp Ht] Hne.
  assert (0 < length (items s)) as Hlen by (destruct (items s); [contradiction|cbn; lia]).
  pose proof (ceil_div_bounds (Z.of_nat (length (items s))) ltac:(lia)) as Hc.
  unfold BROWSE_ITEMS_PER_PAGE in Ht. lia.
Qed.

(** X14. The pages of the file browser.  In every state a browse session
    can reach from its start by opening directories or searches (whatever
    the directory holds and whether reading it fails) and by pressing the
    page buttons: the page shown is one of the pages 1..totalPages; the
    pages 1..totalPages, taken in order, hold every item of the listing
    exactly once and in order; unless the listing is empty every page
    holds between 1 and 10 items, so the fallback text for a page without
    items is never shown; Previous is disabled exactly on page 1 and Next
    exactly on the last page; and a page button never leaves the range. *)
Theorem browse_pages_partition_the_listing (ops : list Op) :
  let s := fold_left apply_op ops initialSessionData in
  (1 <= currentPage s <= totalPages s)%Z
  /\ concat ((fun p => pageItems (set_currentPage p s))
             <$> seqZ 1 (totalPages s)) = items s
  /\ (items s <> [] -> forall p, (1 <= p <= totalPages s)%Z ->
        1 <= length (pageItems (set_currentPage p s)) <= 10)
  /\ description (generateBrowseUI s) <> NoItemsOnPage
  /\ (prevDisabled (generateBrowseUI s) = true <-> currentPage s = 1%Z)
  /\ (nextDisabled (generateBrowseUI s) = true <-> currentPage s = totalPages s)
  /\ (forall button, navigate button s = None <->
        match button with
        | BrowsePrev => prevDisabled (generateBrowseUI s) = true
        | BrowseNext => nextDisabled (generateBrowseUI s) = true
        end).
Proof.
  intros s. pose proof (on_a_page_reachable ops) as Hok. fold s in Hok.
  clearbody s. destruct Hok as [Hp Ht].
  assert (Hpages : forall p, (1 <= p <= totalPages s)%Z ->
            on_a_page (set_currentPage p s)) by (intros p Hp'; split; assumption).
  split; [exact Hp|]. split; [|split; [|split; [|split; [|split]]]].
  - unfold seqZ. rewrite <- list_fmap_compose.
    transitivity (concat ((fun k => take 10 (drop (k * 10) (items s)))
                          <$> seq 0 (Z.to_nat (totalPages s)))).
    + f_equal. apply list_fmap_ext. intros i k Hk. cbn.
      rewrite pageItems_chunk by (cbn; lia). cbn [currentPage items set_currentPage].
      do 2 f_equal. lia.
    + rewrite chunks_concat. apply take_ge.
      pose proof (ceil_div_bounds (Z.of_nat (length (items s))) ltac:(lia)) as Hc.
      unfold BROWSE_ITEMS_PER_PAGE in Ht. lia.
  - intros Hne p Hp'.
    pose proof (page_within_items (set_currentPage p s) (Hpages p Hp') Hne) as Hlt.
    rewrite pageItems_chunk by (cbn; lia).
    cbn [currentPage items set_currentPage] in *.
    rewrite length_take, length_drop. lia.
  - unfold generateBrowseUI. cbn [description].
    destruct (length (items s) =? 0)%nat eqn:Hlen; [discriminate|].
    apply Nat.eqb_neq in Hlen.
    assert (items s <> []) as Hne by (intros E; rewrite E in Hlen; contradiction).
    pose proof (page_within_items s (conj Hp Ht) Hne) as Hlt.
    rewrite pageItems_chunk by lia.
    assert ((length (take 10 (drop (Z.to_nat (currentPage s - 1) * 10) (items s))) =? 0)%nat
            = false) as ->.
    { apply Nat.eqb_neq. rewrite length_take, length_drop. lia. }
    discriminate.
  - cbn. rewrite Z.leb_le. lia.
  - cbn. rewrite Z.leb_le. lia.
  - intros [|]; cbn; unfold navigate.
    + destruct (1 <? currentPage s)%Z eqn:Hc.
      * apply Z.ltb_lt in Hc. split; [discriminate|]. rewrite Z.leb_le. lia.
      * apply Z.ltb_ge in Hc. split; [|reflexivity]. intros _. apply Z.leb_le. lia.
    + destruct (currentPage s <? totalPages s)%Z eqn:Hc.
      * apply Z.ltb_lt in Hc. split; [discriminate|]. rewrite Z.leb_le. lia.
      * apply Z.ltb_ge in Hc. split; [|reflexivity]. intros _. apply Z.leb_le. lia.
Qed.



End BrowseFacts.


(* ===================================================================== *)
(** * Properties of the message splitter                                  *)
(* ===================================================================== *)

Section SplitFacts.

Lemma last_index_from_range (c : N) (l : jsstring) (i found : Z) :
  let r := last_index_from c l i found in
  r = found \/ (i <= r < i + Z.of_nat (length l))%Z.
Proof.
  revert i found. induction l as [|x l IH]; intros i found; cbn; [left; reflexivity|].
  specialize (IH (i + 1)%Z (if (x =? c)%N then i else found)). cbv zeta in IH.
  destruct IH as [IH|IH]; [|right; lia].
  rewrite IH. destruct (x =? c)%N; [right; lia|left; reflexivity].
Qed.

Lemma lastIndexOf_range (c : N) (s : jsstring) (fromIndex : Z) :
  (-1 <= lastIndexOf c s fromIndex <= Z.max 0 fromIndex)%Z.
Proof.
  unfold lastIndexOf.
  pose proof (last_index_from_range c
                (take (S (Z.to_nat (Z.max 0 fromIndex))) s) 0 (-1)) as Hr.
  cbv zeta in Hr. rewrite length_take in Hr. lia.
Qed.

Lemma substring_prefix (s : jsstring) (n : Z) :
  (0 <= n <= Z.of_nat (length s))%Z -> js_substring s 0 n = take (Z.to_nat n) s.
Proof.
  intros Hn. unfold js_substring. cbv zeta.
  rewrite (Z.max_l 0 0) by lia. rewrite (Z.min_l 0) by lia.
  rewrite (Z.max_l n 0) by lia. rewrite (Z.min_l n) by lia.
  rewrite (Z.max_r 0 n) by lia. rewrite (Z.min_l 0 n) by lia.
  cbn [Z.to_nat drop]. f_equal. lia.
Qed.

Lemma substring_from_suffix (s : jsstring) (n : Z) :
  (0 <= n <= Z.of_nat (length s))%Z -> js_substring_from s n = drop (Z.to_nat n) s.
Proof.
  intros Hn. unfold js_substring_from, js_substring. cbv zeta.
  rewrite (Z.max_l n 0) by lia. rewrite (Z.min_l n) by lia.
  rewrite (Z.max_l (Z.of_nat (length s)) 0) by lia. rewrite Z.min_id.
  rewrite (Z.max_r n) by lia. rewrite (Z.min_l n) by lia.
  apply take_ge. rewrite length_drop. lia.
Qed.

Lemma substring_nonpositive (s : jsstring) (n : Z) :
  (n <= 0)%Z -> js_substring s 0 n = [] /\ js_substring_from s n = s.
Proof.
  intros Hn. unfold js_substring_from, js_substring. cbv zeta.
  rewrite (Z.max_l 0 0) by lia. rewrite (Z.max_r n 0) by lia.
  rewrite (Z.max_l (Z.of_nat (length s)) 0) by lia. rewrite Z.min_id.
  rewrite !(Z.min_l 0) by lia. rewrite Z.max_id, Z.sub_diag.
  rewrite Z.max_r by lia. rewrite Z.sub_0_r. cbn [Z.to_nat take drop].
  split; [reflexivity|]. apply take_ge. lia.
Qed.

Lemma drop_while_length {A} (p : A -> bool) (l : list A) :
  length (drop_while p l) <= length l.
Proof.
  induction l as [|x l IH]; cbn; [lia|]. destruct (p x); cbn; lia.
Qed.

Lemma visible_app (a b : jsstring) : visible (a ++ b) = visible a ++ visible b.
Proof. unfold visible. apply List.filter_app. Qed.

Lemma visible_trimStart (s : jsstring) : visible (js_trimStart s) = visible s.
Proof.
  unfold visible, js_trimStart. induction s as [|x s IH]; cbn; [reflexivity|].
  destruct (is_js_space x) eqn:Hx; cbn; [exact IH|]. rewrite Hx. reflexivity.
Qed.

Lemma sendChunks_step (fuel : nat) (maxChunkLength : Z) (send_ok : nat -> bool)
    (sent : nat) (remaining : jsstring) :
  remaining <> [] ->
  sendChunks (S fuel) maxChunkLength send_ok sent remaining
  = let '(chunk, rest) :=
      if (Z.of_nat (length remaining) <=? maxChunkLength)%Z
      then (remaining, [])
      else
        let found := lastIndexOf newline remaining maxChunkLength in
        let splitIndex := if (found <=? 0)%Z then maxChunkLength else found in
        (js_substring remaining 0 splitIndex,
         js_trimStart (js_substring_from remaining splitIndex)) in
    if send_ok sent
    then cons chunk <$> sendChunks fuel maxChunkLength send_ok (S sent) rest
    else Some [chunk].
Proof. destruct remaining; [contradiction|reflexivity]. Qed.

Lemma sendChunks_spec (maxChunkLength : Z) (send_ok : nat -> bool) :
  (1 <= maxChunkLength)%Z ->
  forall (fuel : nat) (remaining : jsstring) (sent : nat),
    length remaining <= fuel ->
    exists chunks,
      sendChunks fuel maxChunkLength send_ok sent remaining = Some chunks
      /\ Forall (fun c => (1 <= Z.of_nat (length c) <= maxChunkLength)%Z) chunks
      /\ ((forall k, send_ok k = true) -> visible (concat chunks) = visible remaining)
      /\ (forall k, sent <= k -> send_ok k = false -> sent + length chunks <= S k)
      /\ (remaining <> [] -> chunks <> [])
      /\ length chunks <= length remaining.
Proof.
  intros Hmax. induction fuel as [|fuel IH]; intros remaining sent Hlen.
  { destruct remaining; [|cbn in Hlen; lia]. exists []. cbn.
    repeat split; try constructor; try lia. intros Hne. contradiction. }
  destruct remaining as [|x r] eqn:Hrem.
  { exists []. cbn. repeat split; try constructor; try lia. intros Hne. contradiction. }
  rewrite <- Hrem in *. 
  assert (1 <= length remaining) as Hpos by (rewrite Hrem; cbn; lia).
  assert (exists chunk rest,
            (if (Z.of_nat (length remaining) <=? maxChunkLength)%Z
             then (remaining, [])
             else
               let found := lastIndexOf newline remaining maxChunkLength in
               let splitIndex := if (found <=? 0)%Z then maxChunkLength else found in
               (js_substring remaining 0 splitIndex,
                js_trimStart (js_substring_from remaining splitIndex)))
            = (chunk, rest)
            /\ (1 <= Z.of_nat (length chunk) <= maxChunkLength)%Z
            /\ length rest < length remaining
            /\ visible (chunk ++ rest) = visible remaining) as (chunk & rest & Hsplit & Hc & Hr & Hv).
  { destruct (Z.of_nat (length remaining) <=? maxChunkLength)%Z eqn:Hfit.
    - apply Z.leb_le in Hfit. exists remaining, []. rewrite app_nil_r.
      repeat split; cbn [length]; lia.
    - apply Z.leb_gt in Hfit. cbv zeta.
      pose proof (lastIndexOf_range newline remaining maxChunkLength) as Hrange.
      set (splitIndex := if (lastIndexOf newline remaining maxChunkLength <=? 0)%Z
                         then maxChunkLength
                         else lastIndexOf newline remaining maxChunkLength) in *.
      assert (1 <= splitIndex <= maxChunkLength)%Z as Hs.
      { subst splitIndex. destruct (_ <=? 0)%Z eqn:Hf; [lia|].
        apply Z.leb_gt in Hf. lia. }
      clearbody splitIndex.
      rewrite substring_prefix, substring_from_suffix by lia.
      eexists _, _. split; [reflexivity|].
      rewrite length_take. split; [lia|]. split.
      + unfold js_trimStart.
        pose proof (drop_while_length is_js_space (drop (Z.to_nat splitIndex) remaining)).
        rewrite length_drop in *. lia.
      + rewrite visible_app, visible_trimStart, <- visible_app, take_drop. reflexivity. }
  assert (sendChunks (S fuel) maxChunkLength send_ok sent remaining
          = if send_ok sent
            then cons chunk <$> sendChunks fuel maxChunkLength send_ok (S sent) rest
            else Some [chunk]) as Heq.
  { rewrite sendChunks_step by (rewrite Hrem; discriminate).
    rewrite Hsplit. reflexivity. }
  rewrite Heq. clear Heq Hsplit.
  destruct (send_ok sent) eqn:Hok.
  - destruct (IH rest (S sent) ltac:(lia)) as (chunks & Hrun & Hall & Hvis & Hfail & _ & Hcount).
    exists (chunk :: chunks). rewrite Hrun. cbn [fmap option_fmap option_map].
    split; [reflexivity|]. split; [constructor; assumption|]. split; [|split; [|split]].
    + intros Hallok. cbn [concat]. rewrite visible_app, (Hvis Hallok), <- visible_app.
      exact Hv.
    + intros k Hk Hko. destruct (decide (k = sent)) as [->|Hne]; [congruence|].
      specialize (Hfail k ltac:(lia) Hko). cbn [length]. lia.
    + discriminate.
    + cbn [length]. lia.
  - exists [chunk]. split; [reflexivity|]. split; [repeat constructor; lia|].
    split; [|split; [|split]].
    + intros Hallok. rewrite Hallok in Hok. discriminate.
    + intros k Hk _. cbn. lia.
    + discriminate.
    + cbn. lia.
Qed.

(** X16. Splitting a long message.  When prefix and suffix leave room for
    at least one character per chunk, [sendSplitMessage] finishes within
    as many iterations as the content has code units.  Every message it
    hands to Discord is prefix + chunk + suffix with a chunk of at least
    one and at most 2000 - 10 - |prefix| - |suffix| code units, so no
    message exceeds 1990 code units.  When every send succeeds, the chunks
    carry all the characters of the content that are not white space, in
    their order: only white space at split points is dropped.  After a
    send that fails nothing more is sent. *)
Theorem split_message_chunks_are_bounded_and_complete
    (content prefix suffix : jsstring) (send_ok : nat -> bool) :
  (Z.of_nat (length prefix) + Z.of_nat (length suffix) < 1990)%Z ->
  content <> [] ->
  let maxChunkLength :=
    (DISCORD_MESSAGE_LIMIT - Z.of_nat (length prefix) - Z.of_nat (length suffix) - 10)%Z in
  exists chunks : list jsstring,
    sendSplitMessage (length content) true content prefix suffix send_ok
      = Some (List.map (fun chunk => prefix ++ chunk ++ suffix) chunks)
    /\ chunks <> []
    /\ Forall (fun c => (1 <= Z.of_nat (length c) <= maxChunkLength)%Z) chunks
    /\ Forall (fun m => (Z.of_nat (length m) <= DISCORD_MESSAGE_LIMIT - 10)%Z)
              (List.map (fun chunk => prefix ++ chunk ++ suffix) chunks)
    /\ ((forall k, send_ok k = true) -> visible (concat chunks) = visible content)
    /\ (forall k, send_ok k = false -> length chunks <= S k).
Proof.
  intros Hroom Hne maxChunkLength.
  assert (1 <= maxChunkLength)%Z as Hmax
    by (subst maxChunkLength; unfold DISCORD_MESSAGE_LIMIT; lia).
  destruct (sendChunks_spec maxChunkLength send_ok Hmax (length content) content 0
              ltac:(lia)) as (chunks & Hrun & Hall & Hvis & Hfail & Hsome & _).
  exists chunks. unfold sendSplitMessage. cbn [negb orb].
  rewrite bool_decide_eq_false_2 by exact Hne. fold maxChunkLength. rewrite Hrun.
  split; [reflexivity|]. split; [exact (Hsome Hne)|]. split; [exact Hall|].
  split; [|split; [exact Hvis|]].
  - change (Forall (fun m => (Z.of_nat (length m) <= DISCORD_MESSAGE_LIMIT - 10)%Z)
              ((fun chunk => prefix ++ chunk ++ suffix) <$> chunks)).
    apply Forall_fmap. eapply Forall_impl; [exact Hall|].
    intros c Hc. cbn. rewrite !length_app. subst maxChunkLength.
    unfold DISCORD_MESSAGE_LIMIT in *. lia.
  - intros k Hk. apply (Hfail k); [lia|exact Hk].
Qed.

(** A short listing between code fences goes out as one message. *)
Lemma split_message_witness :
  exists chunks : list jsstring,
    sendSplitMessage 7 true (lit "Mon 9am") fenceOpen fenceClose (fun _ => true)
      = Some (List.map (fun chunk => fenceOpen ++ chunk ++ fenceClose) chunks)
    /\ visible (concat chunks) = lit "Mon9am".
Proof.
  destruct (split_message_chunks_are_bounded_and_complete (lit "Mon 9am")
              fenceOpen fenceClose (fun _ => true)
              ltac:(vm_compute; reflexivity) ltac:(discriminate))
    as (chunks & Hrun & _ & _ & _ & Hvis & _).
  exists chunks. split; [exact Hrun|]. rewrite Hvis by reflexivity.
  vm_compute. reflexivity.
Defined.

(** 3000 letters between code fences go out as chunks of 1982 and 1018
    letters. *)
Example split_message_two_chunks :
  option_map (List.map (@length N))
    (sendChunks 3000 (DISCORD_MESSAGE_LIMIT - 4 - 4 - 10) (fun _ => true) 0
       (repeat 97%N 3000))
  = Some [1982; 1018].
Proof. vm_compute. reflexivity. Qed.

(** X17. Without room for a chunk the splitter does not finish.  When
    prefix and suffix together take 1990 code units or more, the content
    has a character that is not white space and every send succeeds, the
    loop of [sendSplitMessage] does not end within any number of
    iterations: each round cuts an empty chunk and leaves the content as
    it was, up to leading white space. *)
Theorem split_message_needs_room_for_a_chunk
    (content prefix suffix : jsstring) (fuel : nat) :
  (1990 <= Z.of_nat (length prefix) + Z.of_nat (length suffix))%Z ->
  visible content <> [] ->
  sendSplitMessage fuel true content prefix suffix (fun _ => true) = None.
Proof.
  intros Hroom Hvis. unfold sendSplitMessage. cbn [negb orb].
  assert (content <> []) as Hne by (intros E; rewrite E in Hvis; contradiction).
  rewrite bool_decide_eq_false_2 by exact Hne.
  set (maxChunkLength := (DISCORD_MESSAGE_LIMIT - _ - _ - 10)%Z).
  assert (maxChunkLength <= 0)%Z as Hmax
    by (subst maxChunkLength; unfold DISCORD_MESSAGE_LIMIT; lia).
  clearbody maxChunkLength.
  assert (forall sent remaining, visible remaining <> [] ->
            sendChunks fuel maxChunkLength (fun _ => true) sent remaining = None) as Hloop.
  { clear content Hvis Hne. induction fuel as [|fuel IH]; intros sent remaining Hvis.
    - destruct remaining; [contradiction|reflexivity].
    - assert (remaining <> []) as Hne by (intros E; rewrite E in Hvis; contradiction).
      rewrite sendChunks_step by exact Hne.
      assert ((Z.of_nat (length remaining) <=? maxChunkLength)%Z = false) as ->.
      { apply Z.leb_gt. destruct remaining; [contradiction|cbn [length]; lia]. }
      cbv zeta.
      pose proof (lastIndexOf_range newline remaining maxChunkLength) as Hrange.
      assert ((lastIndexOf newline remaining maxChunkLength <=? 0)%Z = true) as ->
        by (apply Z.leb_le; lia).
      destruct (substring_nonpositive remaining maxChunkLength Hmax) as [-> ->].
      rewrite IH; [reflexivity|]. rewrite visible_trimStart. exact Hvis. }
  rewrite Hloop by exact Hvis. reflexivity.
Qed.

Lemma split_message_needs_room_witness :
  sendSplitMessage 100 true (lit "Mon 9am") (repeat 96%N 1990) [] (fun _ => true) = None.
Proof.
  apply split_message_needs_room_for_a_chunk.
  - rewrite repeat_length. cbn. lia.
  - vm_compute. discriminate.
Defined.

End SplitFacts.


(* ===================================================================== *)
(** * Properties of the schedule helpers                                  *)
(* ===================================================================== *)

Section ScheduleFacts.
Import Guide.

Lemma js_ltb_irrefl (a : jsstring) : js_ltb a a = false.
Proof.
  induction a as [|x a IH]; [reflexivity|]. cbn.
  rewrite N.ltb_irrefl, N.eqb_refl, IH. reflexivity.
Qed.

Lemma js_ltb_cotrans (a b c : jsstring) :
  js_ltb a c = true -> js_ltb a b = true \/ js_ltb b c = true.
Proof.
  revert b c. induction a as [|x a IH]; intros b c Hac.
  - destruct c as [|y c]; [discriminate|]. destruct b; [right|left]; reflexivity.
  - destruct c as [|y c]; [discriminate|]. destruct b as [|z b]; [right; reflexivity|].
    cbn in *.
    destruct (N.ltb_spec x y), (N.ltb_spec x z), (N.ltb_spec z y),
             (N.eqb_spec x y), (N.eqb_spec x z), (N.eqb_spec z y);
      cbn in *; try lia; try discriminate; auto.
Qed.

Lemma js_ltb_asym (a b : jsstring) : js_ltb a b = true -> js_ltb b a = false.
Proof.
  revert b. induction a as [|x a IH]; intros b Hab.
  - destruct b; [discriminate|reflexivity].
  - destruct b as [|y b]; [discriminate|]. cbn in *.
    destruct (N.ltb_spec x y), (N.ltb_spec y x), (N.eqb_spec x y), (N.eqb_spec y x);
      cbn in *; try lia; try discriminate; auto.
Qed.

#[local] Instance js_le_trans : Transitive js_le.
Proof.
  intros a b c Hab Hbc. unfold js_le in *.
  destruct (js_ltb c a) eqn:Hca; [|reflexivity].
  destruct (js_ltb_cotrans c b a Hca); congruence.
Qed.

#[local] Instance js_le_total : Total js_le.
Proof.
  intros a b. unfold js_le.
  destruct (js_ltb b a) eqn:Hba; [right; apply js_ltb_asym, Hba|left; reflexivity].
Qed.

Lemma latestValid_spec (m : gmap jsstring ShowData) (current : jsstring)
    (times pre : list jsstring) (acc : option ShowData) :
  StronglySorted js_le (pre ++ times) ->
  best_of m current pre acc ->
  best_of m current (pre ++ times) (latestValid m current times acc).
Proof.
  revert pre acc. induction times as [|t times IH]; intros pre acc Hsorted Hacc.
  { rewrite app_nil_r. exact Hacc. }
  cbn [latestValid].
  pose proof (StronglySorted_app_1_r _ _ _ Hsorted) as Htail.
  apply StronglySorted_cons in Htail as [Hafter _].
  assert (Hbefore : forall p, p ∈ pre -> js_le p t).
  { intros p Hp.
    apply (StronglySorted_app_1_elem_of _ _ _ _ _ Hsorted Hp). left. }
  destruct (js_ltb current t) eqn:Hct.
  - (* every remaining key is after the current time *)
    assert (Hlate : forall t', t' ∈ t :: times -> js_ltb current t' = true).
    { intros t' Hin. apply elem_of_cons in Hin as [->|Hin]; [exact Hct|].
      rewrite Forall_forall in Hafter. specialize (Hafter _ Hin). unfold js_le in Hafter.
      destruct (js_ltb_cotrans current t' t Hct); congruence. }
    destruct acc as [d|]; cbn [best_of] in *.
    + destruct Hacc as (t0 & Hin & Hm & Hs & Hc & Hmax).
      exists t0. repeat split; try assumption; [apply elem_of_app; left; exact Hin|].
      intros t' d' Hin' Hm' Hs' Hc'. apply elem_of_app in Hin' as [Hin'|Hin'].
      * eapply Hmax; eassumption.
      * rewrite (Hlate _ Hin') in Hc'. discriminate.
    + intros t' d' Hin' Hm' Hs'. apply elem_of_app in Hin' as [Hin'|Hin'].
      * eapply Hacc; eassumption.
      * apply Hlate, Hin'.
  - replace (pre ++ t :: times) with ((pre ++ [t]) ++ times)
      by (rewrite <- app_assoc; reflexivity).
    apply IH; [rewrite <- app_assoc; exact Hsorted|].
    destruct (m !! t) as [sd|] eqn:Hmt; [destruct (standard sd) eqn:Hstd|].
    + (* the entry at [t] is the new candidate *)
      cbn [best_of]. exists t. repeat split; try assumption.
      { apply elem_of_app. right. left. }
      intros t' d' Hin' _ _ _. apply elem_of_app in Hin' as [Hin'|Hin'].
      * apply (Hbefore _ Hin').
      * apply list_elem_of_singleton in Hin'. subst t'. apply js_ltb_irrefl.
    + destruct acc as [d|]; cbn [best_of] in *.
      * destruct Hacc as (t0 & Hin & Hm & Hs & Hc & Hmax).
        exists t0. repeat split; try assumption; [apply elem_of_app; left; exact Hin|].
        intros t' d' Hin' Hm' Hs' Hc'. apply elem_of_app in Hin' as [Hin'|Hin'].
        -- eapply Hmax; eassumption.
        -- apply list_elem_of_singleton in Hin'. subst t'. congruence.
      * intros t' d' Hin' Hm' Hs'. apply elem_of_app in Hin' as [Hin'|Hin'].
        -- eapply Hacc; eassumption.
        -- apply list_elem_of_singleton in Hin'. subst t'. congruence.
    + destruct acc as [d|]; cbn [best_of] in *.
      * destruct Hacc as (t0 & Hin & Hm & Hs & Hc & Hmax).
        exists t0. repeat split; try assumption; [apply elem_of_app; left; exact Hin|].
        intros t' d' Hin' Hm' Hs' Hc'. apply elem_of_app in Hin' as [Hin'|Hin'].
        -- eapply Hmax; eassumption.
        -- apply list_elem_of_singleton in Hin'. subst t'. congruence.
      * intros t' d' Hin' Hm' Hs'. apply elem_of_app in Hin' as [Hin'|Hin'].
        -- eapply Hacc; eassumption.
        -- apply list_elem_of_singleton in Hin'. subst t'. congruence.
Qed.

Lemma scheduledTimes_keys (m : gmap jsstring ShowData) (t : jsstring) :
  t ∈ scheduledTimes m <-> is_Some (m !! t).
Proof.
  unfold scheduledTimes. rewrite merge_sort_Permutation.
  rewrite list_elem_of_fmap. split.
  - intros ([k d] & -> & Hin). apply elem_of_map_to_list in Hin. eauto.
  - intros [d Hd]. exists (t, d). split; [reflexivity|].
    apply elem_of_map_to_list. exact Hd.
Qed.

Lemma getCurrentShowData_best (schedule : gmap nat (gmap jsstring ShowData))
    (dayOfWeek : nat) (hours minutes : N) (m : gmap jsstring ShowData) :
  schedule !! dayOfWeek = Some m ->
  best_of m (currentTimeStr hours minutes) (scheduledTimes m)
    (getCurrentShowData schedule dayOfWeek hours minutes).
Proof.
  intros Hday. unfold getCurrentShowData. rewrite Hday.
  apply (latestValid_spec m _ (scheduledTimes m) [] None).
  - apply StronglySorted_merge_sort; apply _.
  - intros t' d' Hin. inversion Hin.
Qed.

Lemma getCurrentShowData_standard (schedule : gmap nat (gmap jsstring ShowData))
    (dayOfWeek : nat) (hours minutes : N) (d : ShowData) :
  getCurrentShowData schedule dayOfWeek hours minutes = Some d -> standard d = true.
Proof.
  intros Hd. destruct (schedule !! dayOfWeek) as [m|] eqn:Hday.
  - pose proof (getCurrentShowData_best schedule dayOfWeek hours minutes m Hday) as Hb.
    rewrite Hd in Hb. destruct Hb as (t & _ & _ & Hs & _). exact Hs.
  - unfold getCurrentShowData in Hd. rewrite Hday in Hd. discriminate.
Qed.

(** X18. The current show.  [getCurrentShowData] returns the entry of
    today's schedule that has both [now] and [next] and whose key is the
    greatest one, in the order of JS strings, that is not after the
    current 'HH:MM' string; entries that only carry a custom message are
    never returned.  It returns [null] exactly when the day has no
    schedule or no such entry. *)
Theorem current_show_is_the_latest_standard_entry
    (schedule : gmap nat (gmap jsstring ShowData)) (dayOfWeek : nat) (hours minutes : N) :
  let current := currentTimeStr hours minutes in
  match getCurrentShowData schedule dayOfWeek hours minutes with
  | Some d =>
      exists todaysSchedule t,
        schedule !! dayOfWeek = Some todaysSchedule
        /\ todaysSchedule !! t = Some d
        /\ truthy (now d) = true /\ truthy (next d) = true
        /\ js_ltb current t = false
        /\ forall t' d', todaysSchedule !! t' = Some d' -> standard d' = true ->
              js_ltb current t' = false -> js_ltb t t' = false
  | None =>
      forall todaysSchedule t d,
        schedule !! dayOfWeek = Some todaysSchedule ->
        todaysSchedule !! t = Some d -> standard d = true ->
        js_ltb current t = true
  end.
Proof.
  intros current.
  destruct (schedule !! dayOfWeek) as [m|] eqn:Hday.
  2:{ unfold getCurrentShowData. rewrite Hday. intros; discriminate. }
  pose proof (getCurrentShowData_best schedule dayOfWeek hours minutes m Hday) as Hspec.
  fold current in Hspec.
  destruct (getCurrentShowData schedule dayOfWeek hours minutes) as [d|];
    cbn [best_of] in Hspec.
  - destruct Hspec as (t & Hin & Hm & Hs & Hc & Hmax).
    exists m, t. apply andb_prop in Hs as [Hnow Hnext].
    repeat split; try assumption.
    intros t' d' Hm' Hs' Hc'. apply (Hmax t' d'); try assumption.
    apply scheduledTimes_keys. eauto.
  - intros m' t d [= <-] Hm Hs. apply (Hspec t d); try assumption.
    apply scheduledTimes_keys. eauto.
Qed.

(** Wednesday at 13:45: the reminder of 13:30 is passed over and South
    Park, on since 13:00, is the current show; before 12:30 there is
    none. *)
Example current_show_wednesday :
  (now <$> getCurrentShowData sampleSchedule 3 13 45) = Some (Some (lit "South Park"))
  /\ getCurrentShowTitle sampleSchedule 3 13 45 = Some (lit "South Park")
  /\ getCurrentShowData sampleSchedule 3 9 5 = None
  /\ getCurrentShowData sampleSchedule 4 13 45 = None.
Proof. vm_compute. repeat split; reflexivity. Qed.

Lemma pad2_digits (n : N) :
  (n < 100)%N ->
  padStart 2 48 (js_String n) = [(48 + n / 10)%N; (48 + n mod 10)%N].
Proof.
  intros Hn.
  assert (forallb (fun k =>
            match padStart 2 48 (js_String (N.of_nat k)) with
            | [a; b] => ((a =? 48 + N.of_nat k / 10) && (b =? 48 + N.of_nat k mod 10))%N
            | _ => false
            end) (seq 0 100) = true) as Hall by (vm_compute; reflexivity).
  rewrite forallb_forall in Hall. specialize (Hall (N.to_nat n)).
  rewrite N2Nat.id in Hall.
  assert (In (N.to_nat n) (seq 0 100)) as Hin by (apply in_seq; lia).
  specialize (Hall Hin).
  destruct (padStart 2 48 (js_String n)) as [|a [|b [|c l]]]; try discriminate.
  apply andb_prop in Hall as [Ha Hb].
  apply N.eqb_eq in Ha, Hb. congruence.
Qed.

Lemma two_digit_order (a b : N) (rest : bool) :
  (a < 100)%N -> (b < 100)%N ->
  ((48 + a / 10 <? 48 + b / 10) || (48 + a / 10 =? 48 + b / 10)
    && ((48 + a mod 10 <? 48 + b mod 10)
        || (48 + a mod 10 =? 48 + b mod 10) && rest))%N
  = ((a <? b) || (a =? b) && rest)%N.
Proof.
  intros Ha Hb.
  assert (forallb (fun x => forallb (fun y => forallb (fun r =>
            Bool.eqb
              ((48 + N.of_nat x / 10 <? 48 + N.of_nat y / 10)
               || (48 + N.of_nat x / 10 =? 48 + N.of_nat y / 10)
                  && ((48 + N.of_nat x mod 10 <? 48 + N.of_nat y mod 10)
                      || (48 + N.of_nat x mod 10 =? 48 + N.of_nat y mod 10) && r))%N
              ((N.of_nat x <? N.of_nat y) || (N.of_nat x =? N.of_nat y) && r)%N)
            [true; false]) (seq 0 100)) (seq 0 100) = true) as Hall
    by (vm_compute; reflexivity).
  rewrite forallb_forall in Hall.
  specialize (Hall (N.to_nat a) ltac:(apply in_seq; lia)).
  rewrite forallb_forall in Hall.
  specialize (Hall (N.to_nat b) ltac:(apply in_seq; lia)).
  rewrite forallb_forall in Hall.
  specialize (Hall rest ltac:(destruct rest; cbn; auto)).
  rewrite !N2Nat.id in Hall. apply Bool.eqb_prop in Hall. exact Hall.
Qed.

(** X19. Zero-padded times sort chronologically.  For hours and minutes
    below 100, written with two digits as the clock string of
    [getCurrentShowData] is, the order of JS strings on 'HH:MM' is the
    order of time: one string is smaller than the other exactly when its
    hour is smaller, or the hours are equal and its minute is smaller.  So
    for a schedule keyed by zero-padded times the current show is the
    standard entry that started last. *)
Theorem padded_times_sort_chronologically (h m h' m' : N) :
  (h < 100)%N -> (m < 100)%N -> (h' < 100)%N -> (m' < 100)%N ->
  js_ltb (currentTimeStr h m) (currentTimeStr h' m')
  = ((h <? h') || (h =? h') && (m <? m'))%N.
Proof.
  intros Hh Hm Hh' Hm'. unfold currentTimeStr.
  rewrite !pad2_digits by assumption. cbn [app js_ltb].
  rewrite (two_digit_order m m' false) by assumption.
  unfold colon. rewrite N.ltb_irrefl, N.eqb_refl. cbn [orb andb].
  rewrite andb_false_r, orb_false_r.
  apply (two_digit_order h h' _ Hh Hh').
Qed.

(** 09:05 is before 13:45; written without the leading zero, '9:00' sorts
    after '10:00'. *)
Lemma padded_times_witness :
  js_ltb (currentTimeStr 9 5) (currentTimeStr 13 45) = true
  /\ currentTimeStr 9 5 = lit "09:05"
  /\ js_ltb (lit "10:00") (lit "9:00") = true.
Proof.
  split; [|split; vm_compute; reflexivity].
  rewrite (padded_times_sort_chronologically 9 5 13 45) by (cbn; lia).
  reflexivity.
Defined.

Lemma drop_while_idem {A} (p : A -> bool) (l : list A) :
  drop_while p (drop_while p l) = drop_while p l.
Proof.
  induction l as [|x l IH]; [reflexivity|]. cbn. destruct (p x) eqn:Hx; [exact IH|].
  cbn. rewrite Hx. reflexivity.
Qed.

Lemma drop_while_snoc_keep {A} (p : A -> bool) (l : list A) (x : A) :
  p x = false -> drop_while p (l ++ [x]) = drop_while p l ++ [x].
Proof.
  intros Hx. induction l as [|y l IH]; cbn; [rewrite Hx; reflexivity|].
  destruct (p y); [exact IH|reflexivity].
Qed.

Lemma drop_while_end_cons_keep {A} (p : A -> bool) (x : A) (l : list A) :
  p x = false -> drop_while_end p (x :: l) = x :: drop_while_end p l.
Proof.
  intros Hx. unfold drop_while_end. cbn [rev].
  rewrite drop_while_snoc_keep by exact Hx. rewrite rev_app_distr. reflexivity.
Qed.

Lemma drop_while_end_idem {A} (p : A -> bool) (l : list A) :
  drop_while_end p (drop_while_end p l) = drop_while_end p l.
Proof.
  unfold drop_while_end. rewrite rev_involutive, drop_while_idem. reflexivity.
Qed.

Lemma js_trim_idem (s : jsstring) : js_trim (js_trim s) = js_trim s.
Proof.
  unfold js_trim.
  assert (drop_while is_js_space s = []
          \/ exists x r, drop_while is_js_space s = x :: r /\ is_js_space x = false)
    as [->|(x & r & -> & Hx)].
  { induction s as [|y s IH]; cbn; [left; reflexivity|].
    destruct (is_js_space y) eqn:Hy; [exact IH|right; eauto]. }
  - reflexivity.
  - rewrite drop_while_end_cons_keep by exact Hx. cbn [drop_while]. rewrite Hx.
    rewrite <- drop_while_end_cons_keep by exact Hx. apply drop_while_end_idem.
Qed.

Lemma js_trim_keeps_out (c : N) (s : jsstring) : c ∉ s -> c ∉ js_trim s.
Proof.
  intros Hout Hin. apply Hout. unfold js_trim in Hin.
  destruct (drop_while_end_prefix is_js_space (drop_while is_js_space s)) as [a Ha].
  destruct (drop_while_suffix is_js_space s) as [b Hb].
  rewrite Hb, Ha. apply elem_of_app. right. apply elem_of_app. left. exact Hin.
Qed.

(** X20. The title of the current show.  [getCurrentShowTitle] returns
    a title exactly when [getCurrentShowData] returns an entry; the title
    is the [now] text of that entry without its asterisks, trimmed: it
    contains no asterisk and has no white space at either end (trimming
    it again changes nothing). *)
Theorem current_show_title_is_clean
    (schedule : gmap nat (gmap jsstring ShowData)) (dayOfWeek : nat) (hours minutes : N) :
  match getCurrentShowTitle schedule dayOfWeek hours minutes with
  | Some title =>
      (exists d text,
         getCurrentShowData schedule dayOfWeek hours minutes = Some d
         /\ now d = Some text /\ text <> []
         /\ title = js_trim (stripAsterisks text))
      /\ (asterisk ∉ title)
      /\ js_trim title = title
  | None => getCurrentShowData schedule dayOfWeek hours minutes = None
  end.
Proof.
  unfold getCurrentShowTitle.
  pose proof (getCurrentShowData_standard schedule dayOfWeek hours minutes) as Hdata.
  destruct (getCurrentShowData schedule dayOfWeek hours minutes) as [d|]; [|reflexivity].
  specialize (Hdata d eq_refl). apply andb_prop in Hdata as [Hnow _].
  destruct (now d) as [[|c text]|] eqn:Hn; try discriminate Hnow.
  cbn [default]. split; [|split].
  - exists d, (c :: text). repeat split; [exact Hn|discriminate].
  - apply js_trim_keeps_out. unfold stripAsterisks. intros Hin.
    apply list_elem_of_In, filter_In in Hin as [_ Hin].
    rewrite N.eqb_refl in Hin. discriminate.
  - apply js_trim_idem.
Qed.

Lemma posts_calls_inr (fx : list Effect) :
  posts (inr <$> fx) = [] /\ calls (inr <$> fx) = fx.
Proof.
  unfold posts, calls. induction fx as [|e fx [IH1 IH2]]; [split; reflexivity|].
  cbn. split; [exact IH1|f_equal; exact IH2].
Qed.

(** X21. The scheduled posts.  The cron job of a schedule entry does
    nothing at all while custom mode is active.  In scheduled mode it
    posts the TV guide text of its entry when the guide channel is
    configured (exactly one post, before any event call; a custom message
    is posted verbatim), and it renames the managed event only for an
    entry that has both [now] and [next], and only with a voice channel:
    an entry that carries just a custom message never touches the event.
    It never changes the mode or any global but the event handle, calls
    nothing but the guide channel and the scheduled-event API, and every
    event name it sends has at most 100 code units. *)
Theorem cron_job_posts_and_renames
    (cfg : Config) (tvGuideTargetChannel : bool) (show : option jsstring)
    (api : EventApi) (sd : ShowData) (b : Bot) :
  let r := cronJob cfg tvGuideTargetChannel show api sd b in
  (isCustomModeActive b = true -> r = (b, []))
  /\ (isCustomModeActive b = false ->
        posts r.2 = (if tvGuideTargetChannel
                     then [formatTvGuideMessage (Some sd)] else [])
        /\ r.2 = (inl <$> posts r.2) ++ (inr <$> calls r.2)
        /\ (calls r.2 <> [] -> targetVoiceChannel cfg = true /\ standard sd = true)
        /\ (standard sd = false -> r.1 = b /\ calls r.2 = []))
  /\ (truthy (customMessage sd) = true ->
        Some (formatTvGuideMessage (Some sd)) = customMessage sd)
  /\ (exists e, r.1 = set_managedGuildEvent e b)
  /\ Forall (fun e => is_event_call e = true) (calls r.2)
  /\ Forall name_within_limit (calls r.2).
Proof.
  intros r. subst r. unfold cronJob.
  assert (Hcustom : truthy (customMessage sd) = true ->
                    Some (formatTvGuideMessage (Some sd)) = customMessage sd).
  { intros Ht. unfold formatTvGuideMessage. rewrite Ht.
    destruct (customMessage sd); [reflexivity|discriminate]. }
  assert (Hsame : exists e, b = set_managedGuildEvent e b).
  { exists (managedGuildEvent b). destruct b; reflexivity. }
  destruct (isCustomModeActive b) eqn:Hmode.
  { cbn. repeat split; try reflexivity; try assumption; try constructor;
      try (intros; discriminate). }
  set (post := if tvGuideTargetChannel
               then [inl (formatTvGuideMessage (Some sd))] else []).
  assert (Hpost : posts post = (if tvGuideTargetChannel
                                then [formatTvGuideMessage (Some sd)] else [])
                  /\ calls post = []
                  /\ post = (inl <$> posts post) ++ []).
  { subst post. destruct tvGuideTargetChannel; repeat split; reflexivity. }
  destruct Hpost as (Hposts & Hcalls & Hshape).
  assert (Hquiet :
    (false = true -> (b, post) = (b, []))
    /\ (false = false ->
          posts (b, post).2 = (if tvGuideTargetChannel
                               then [formatTvGuideMessage (Some sd)] else [])
          /\ (b, post).2 = (inl <$> posts (b, post).2) ++ (inr <$> calls (b, post).2)
          /\ (calls (b, post).2 <> [] -> targetVoiceChannel cfg = true /\ standard sd = true)
          /\ (standard sd = false -> (b, post).1 = b /\ calls (b, post).2 = []))
    /\ (truthy (customMessage sd) = true ->
          Some (formatTvGuideMessage (Some sd)) = customMessage sd)
    /\ (exists e, (b, post).1 = set_managedGuildEvent e b)
    /\ Forall (fun e => is_event_call e = true) (calls (b, post).2)
    /\ Forall name_within_limit (calls (b, post).2)).
  { cbn [fst snd]. rewrite Hcalls, Hposts.
    repeat split; try assumption; try constructor; try (intros; discriminate).
    - rewrite <- Hposts. exact Hshape.
    - exfalso. auto.
    - exfalso. auto. }
  destruct (targetVoiceChannel cfg) eqn:Hvc; cbn [andb]; [|exact Hquiet].
  destruct (truthy (now sd)) eqn:Hnow; cbn [andb]; [|exact Hquiet].
  destruct (truthy (next sd)) eqn:Hnext; [|exact Hquiet].
  destruct (bool_decide (js_trim (stripAsterisks (default [] (now sd))) = []));
    cbn [negb]; [exact Hquiet|].
  set (eventName := js_trim (stripAsterisks (default [] (now sd)))).
  pose proof (updateEventNameInternal_frame cfg show api (Some eventName) b) as Hframe.
  pose proof (updateEventNameInternal_names cfg show api (Some eventName) b) as Hnames.
  cbv zeta in Hframe. destruct Hframe as [Hb Hfx].
  destruct (updateEventNameInternal cfg show api (Some eventName) b) as [[ok b'] fx].
  cbn [fst snd] in *.
  destruct (posts_calls_inr fx) as [Hp Hc].
  assert (posts (post ++ (inr <$> fx)) = posts post) as Hposts'.
  { unfold posts in *. rewrite omap_app, Hp, app_nil_r. reflexivity. }
  assert (calls (post ++ (inr <$> fx)) = fx) as Hcalls'.
  { unfold calls in *. rewrite omap_app, Hcalls, Hc. reflexivity. }
  rewrite Hposts', Hcalls', Hposts.
  split; [intros; discriminate|]. split.
  { intros _. split; [reflexivity|]. split.
    - rewrite <- Hposts. rewrite app_nil_r in Hshape. rewrite <- Hshape. reflexivity.
    - split; [intros _; split; [reflexivity|unfold standard; rewrite Hnow, Hnext; reflexivity]|].
      unfold standard. rewrite Hnow, Hnext. intros; discriminate. }
  repeat split; assumption.
Qed.

(** The reminder of Wednesday 13:30 is posted as written and leaves the
    event alone. *)
Example cron_job_custom_message :
  let reminder :=
    {| now := None; next := None; image := None;
       customMessage := Some (lit "**Reminder:** Server meeting at 2PM!") |} in
  cronJob sampleConfig true None (sampleApi 10) reminder initialBot
  = (initialBot, [inl (lit "**Reminder:** Server meeting at 2PM!")]).
Proof. vm_compute. reflexivity. Qed.

End ScheduleFacts.


(* ===================================================================== *)
(** * Properties of the time formatter                                    *)
(* ===================================================================== *)

Section TimeFacts.
Import Guide.

(** X22. Twelve-hour times.  For every time of the day written 'HH:MM'
    with two digits each (hours below 24, minutes below 60, as the keys of
    the schedule are), [formatTime12hr] returns 'h:MM AM' or 'h:MM PM':
    the minutes are kept with their two digits, the hour h is HH modulo 12
    with 12 in place of 0, so it lies between 1 and 12, and the suffix is
    AM exactly for hours below 12.  Text without a colon is returned
    unchanged. *)
Theorem formatTime12hr_is_the_twelve_hour_clock (h m : N) :
  (h < 24)%N -> (m < 60)%N ->
  formatTime12hr (currentTimeStr h m)
  = js_String (hour12 h) ++ [colon] ++ padStart 2 48 (js_String m) ++ lit " "
    ++ (if (h <? 12)%N then lit "AM" else lit "PM")
  /\ (1 <= hour12 h <= 12)%N
  /\ (forall s, colon ∉ s -> formatTime12hr s = s).
Proof.
  intros Hh Hm. split; [|split].
  - assert (forallb (fun x => forallb (fun y =>
              bool_decide
                (formatTime12hr (currentTimeStr (N.of_nat x) (N.of_nat y))
                 = js_String (hour12 (N.of_nat x)) ++ [colon]
                   ++ padStart 2 48 (js_String (N.of_nat y)) ++ lit " "
                   ++ (if (N.of_nat x <? 12)%N then lit "AM" else lit "PM")))
              (seq 0 60)) (seq 0 24) = true) as Hall by (vm_compute; reflexivity).
    rewrite forallb_forall in Hall.
    specialize (Hall (N.to_nat h) ltac:(apply in_seq; lia)).
    rewrite forallb_forall in Hall.
    specialize (Hall (N.to_nat m) ltac:(apply in_seq; lia)).
    rewrite !N2Nat.id in Hall. apply bool_decide_eq_true in Hall. exact Hall.
  - unfold hour12. destruct (h mod 12 =? 0)%N eqn:Hz; [lia|].
    apply N.eqb_neq in Hz.
    assert (h mod 12 < 12)%N as Hlt by (apply N.mod_lt; discriminate).
    generalize dependent (h mod 12)%N. intros r Hz Hlt. lia.
  - intros s Hs. unfold formatTime12hr.
    assert (existsb (N.eqb colon) s = false) as ->; [|rewrite orb_true_r; reflexivity].
    apply not_true_is_false. intros Hex. apply existsb_exists in Hex as (x & Hin & Hx).
    apply N.eqb_eq in Hx. subst x. apply Hs, list_elem_of_In, Hin.
Qed.

(** Midnight, noon and the last minute of the day. *)
Lemma formatTime12hr_witness :
  formatTime12hr (lit "00:05") = lit "12:05 AM"
  /\ formatTime12hr (lit "12:00") = lit "12:00 PM"
  /\ formatTime12hr (lit "23:59") = lit "11:59 PM".
Proof.
  pose proof (proj1 (formatTime12hr_is_the_twelve_hour_clock 0 5
                       ltac:(reflexivity) ltac:(reflexivity))) as H1.
  split; [exact H1|split; vm_compute; reflexivity].
Defined.

End TimeFacts.


(* ===================================================================== *)
(** * Properties of the tasklist parser                                   *)
(* ===================================================================== *)

Section VlcTitleFacts.

Lemma parse_inside_quotes (f rest : jsstring) (prev : option N)
    (columns : list jsstring) (current : jsstring) :
  quote ∉ f ->
  parseCsvFrom (f ++ rest) prev columns current true
  = parseCsvFrom rest (match last f with Some c => Some c | None => prev end)
      columns (current ++ f) true.
Proof.
  revert prev current. induction f as [|c f IH]; intros prev current Hq.
  { cbn. rewrite app_nil_r. reflexivity. }
  assert (c <> quote) as Hc by (intros ->; apply Hq; left).
  assert (quote ∉ f) as Hf by (intros Hin; apply Hq; right; exact Hin).
  cbn [app parseCsvFrom].
  assert ((c =? quote)%N = false) as -> by (apply N.eqb_neq; exact Hc).
  cbn [andb negb]. rewrite andb_false_r.
  rewrite IH by exact Hf. rewrite <- app_assoc. cbn [app].
  destruct f as [|d f']; [reflexivity|].
  replace (last (c :: d :: f')) with (last (d :: f')) by reflexivity.
  destruct (last (d :: f')) eqn:Hl; [reflexivity|].
  apply last_None in Hl. discriminate.
Qed.

Lemma parse_quoted_field (f rest : jsstring) (prev : option N)
    (columns : list jsstring) :
  plain f -> prev <> Some backslash ->
  parseCsvFrom ([quote] ++ f ++ [quote] ++ rest) prev columns [] false
  = parseCsvFrom rest (Some quote) columns f false.
Proof.
  intros (Hq & _ & Hlast & _) Hprev.
  cbn [app parseCsvFrom]. rewrite N.eqb_refl.
  rewrite bool_decide_eq_false_2 by exact Hprev. cbn [andb negb].
  rewrite parse_inside_quotes by exact Hq. cbn [app parseCsvFrom].
  rewrite N.eqb_refl.
  assert (match last f with Some c => Some c | None => Some quote end <> Some backslash)
    as Hp.
  { destruct (last f) as [c|] eqn:Hl; [exact Hlast|discriminate]. }
  rewrite bool_decide_eq_false_2 by exact Hp. reflexivity.
Qed.

Lemma parse_csvLine (fields : list jsstring) (prev : option N)
    (columns : list jsstring) :
  fields <> [] -> Forall plain fields -> prev <> Some backslash ->
  parseCsvFrom (csvLine fields) prev columns [] false = columns ++ fields.
Proof.
  revert prev columns. induction fields as [|f rest IH]; intros prev columns Hne Hall Hprev;
    [contradiction|].
  apply Forall_cons in Hall as [Hf Hrest].
  destruct rest as [|g rest].
  - cbn [csvLine]. rewrite <- (app_nil_r ([quote] ++ f ++ [quote])).
    rewrite <- !app_assoc. rewrite parse_quoted_field by assumption.
    cbn [parseCsvFrom]. destruct Hf as (_ & _ & _ & ->). reflexivity.
  - change (csvLine (f :: g :: rest))
      with ([quote] ++ f ++ [quote] ++ [comma] ++ csvLine (g :: rest)).
    rewrite parse_quoted_field by assumption.
    cbn [app parseCsvFrom].
    assert ((comma =? quote)%N = false) as -> by reflexivity.
    rewrite N.eqb_refl. cbn [andb negb].
    destruct Hf as (_ & _ & _ & ->).
    rewrite IH; [|discriminate|exact Hrest|discriminate].
    rewrite <- app_assoc. reflexivity.
Qed.

Lemma csvLine_shape (fields : list jsstring) :
  fields <> [] -> Forall plain fields ->
  (exists mid, csvLine fields = quote :: mid ++ [quote]) /\ (newline ∉ csvLine fields).
Proof.
  induction fields as [|f rest IH]; intros Hne Hall; [contradiction|].
  apply Forall_cons in Hall as [Hf Hrest].
  destruct Hf as (_ & Hnl & _ & _).
  destruct rest as [|g rest].
  - cbn [csvLine app]. split; [exists f; reflexivity|].
    intros Hin. apply elem_of_cons in Hin as [Hin|Hin]; [discriminate|].
    apply elem_of_app in Hin as [Hin|Hin]; [contradiction|].
    apply list_elem_of_singleton in Hin. discriminate.
  - destruct (IH ltac:(discriminate) Hrest) as [[mid Hmid] Hnl'].
    change (csvLine (f :: g :: rest))
      with ([quote] ++ f ++ [quote] ++ [comma] ++ csvLine (g :: rest)).
    split.
    + rewrite Hmid. exists (f ++ [quote] ++ [comma] ++ quote :: mid).
      cbn [app]. rewrite <- !app_assoc. reflexivity.
    + intros Hin. cbn [app] in Hin.
      apply elem_of_cons in Hin as [Hin|Hin]; [discriminate|].
      apply elem_of_app in Hin as [Hin|Hin]; [contradiction|].
      apply elem_of_cons in Hin as [Hin|Hin]; [discriminate|].
      apply elem_of_cons in Hin as [Hin|Hin]; [discriminate|].
      contradiction.
Qed.

Lemma js_trim_between (c d : N) (mid : jsstring) :
  is_js_space c = false -> is_js_space d = false ->
  js_trim (c :: mid ++ [d]) = c :: mid ++ [d].
Proof.
  intros Hc Hd. unfold js_trim. cbn [drop_while]. rewrite Hc.
  unfold drop_while_end. change (c :: mid ++ [d]) with ((c :: mid) ++ [d]).
  rewrite rev_app_distr. cbn [rev app drop_while]. rewrite Hd.
  change (d :: rev mid ++ [c]) with (rev [d] ++ rev (c :: mid)).
  rewrite <- rev_app_distr. apply rev_involutive.
Qed.

Lemma split_without_separator (c : N) (s current : jsstring) :
  c ∉ s -> split_from c s current = [current ++ s].
Proof.
  revert current. induction s as [|x s IH]; intros current Hc.
  { cbn. rewrite app_nil_r. reflexivity. }
  cbn [split_from].
  assert ((x =? c)%N = false) as ->.
  { apply N.eqb_neq. intros ->. apply Hc. left. }
  rewrite IH by (intros Hin; apply Hc; right; exact Hin).
  rewrite <- app_assoc. reflexivity.
Qed.

Lemma stripOuterQuotes_plain (t : jsstring) : quote ∉ t -> stripOuterQuotes t = t.
Proof.
  intros Hq. unfold stripOuterQuotes.
  assert (match t with
          | c :: r => if (c =? quote)%N then r else t
          | [] => t
          end = t) as ->.
  { destruct t as [|c r]; [reflexivity|].
    assert ((c =? quote)%N = false) as ->; [|reflexivity].
    apply N.eqb_neq. intros ->. apply Hq. left. }
  destruct (rev t) as [|c r] eqn:Hrev; [reflexivity|].
  assert ((c =? quote)%N = false) as ->; [|reflexivity].
  apply N.eqb_neq. intros ->. apply Hq.
  apply list_elem_of_In, in_rev. rewrite Hrev. left. reflexivity.
Qed.

(** X23. Reading VLC's window title.  For a line of [tasklist] output
    whose fields are written between double quotes (none of them holding a
    double quote or a line break, ending in a backslash or carrying white
    space at its ends), the parser returns the fields as they are, commas
    inside a field included, and [getVlcTitle] returns the ninth one, the
    window title, when it is usable (not empty, not 'N/A', not the bare
    'VLC media player'), with the ending ' - VLC media player' cut off and
    the rest trimmed.  On a platform other than Windows, and when
    [tasklist] fails or prints nothing, there is no title. *)
Theorem vlc_title_is_the_ninth_column
    (before after : list jsstring) (title : jsstring) :
  length before = 8 ->
  Forall plain (before ++ title :: after) ->
  usableTitle title = true ->
  let line := csvLine (before ++ title :: after) in
  parseCsvLine line = before ++ title :: after
  /\ getVlcTitle true (Some line) = Some (cleanTitle title)
  /\ (forall name, cleanTitle (name ++ vlcSuffix) = js_trim name)
  /\ (forall stdout, getVlcTitle false stdout = None)
  /\ getVlcTitle true None = None
  /\ getVlcTitle true (Some []) = None.
Proof.
  intros Hlen Hall Husable line.
  assert (before ++ title :: after <> []) as Hne by (destruct before; discriminate).
  assert (parseCsvLine line = before ++ title :: after) as Hparse.
  { unfold parseCsvLine, line. rewrite parse_csvLine; [reflexivity|exact Hne|exact Hall|].
    discriminate. }
  split; [exact Hparse|]. split; [|split; [|split; [|split]]].
  - destruct (csvLine_shape _ Hne Hall) as [[mid Hmid] Hnl]. fold line in Hmid, Hnl.
    cbn [getVlcTitle negb]. unfold vlcTitleFromStdout.
    assert (js_trim line = line) as Htrim.
    { rewrite Hmid. apply js_trim_between; reflexivity. }
    rewrite Htrim.
    assert (line <> []) as Hline by (rewrite Hmid; discriminate).
    rewrite bool_decide_eq_false_2 by exact Hline. cbn [orb].
    unfold js_split. rewrite split_without_separator by exact Hnl.
    cbn [app omap list_omap]. unfold titleOfLine. rewrite Hparse.
    assert ((before ++ title :: after) !! 8 = Some title) as ->.
    { rewrite lookup_app_r by lia. rewrite Hlen. reflexivity. }
    cbv zeta.
    assert (plain title) as (Hq & _).
    { rewrite Forall_forall in Hall. apply Hall. apply elem_of_app. right. left. }
    rewrite stripOuterQuotes_plain by exact Hq. rewrite Husable. reflexivity.
  - intros name. unfold cleanTitle, ends_with.
    rewrite length_app.
    replace (length name + length vlcSuffix - length vlcSuffix) with (length name) by lia.
    rewrite drop_app_length. rewrite bool_decide_eq_true_2 by reflexivity.
    assert ((length vlcSuffix <=? length name + length vlcSuffix) = true) as ->
      by (apply Nat.leb_le; lia).
    cbn [andb].
    rewrite substring_prefix by (rewrite length_app; lia).
    replace (Z.to_nat (Z.of_nat (length name + length vlcSuffix)
                       - Z.of_nat (length vlcSuffix))) with (length name) by lia.
    rewrite take_app_length. reflexivity.
  - reflexivity.
  - reflexivity.
  - reflexivity.
Qed.

Lemma plainb_sound (fields : list jsstring) :
  forallb plainb fields = true -> Forall plain fields.
Proof.
  intros Hall. apply Forall_forall. intros f Hin.
  rewrite forallb_forall in Hall. specialize (Hall f ltac:(apply list_elem_of_In, Hin)).
  unfold plainb in Hall.
  apply andb_prop in Hall as [Hall Htrim]. apply andb_prop in Hall as [Hall Hlast].
  apply andb_prop in Hall as [Hq Hnl].
  assert (forall c, negb (existsb (N.eqb c) f) = true -> c ∉ f) as Hout.
  { intros c Hc Hin'. apply negb_true_iff in Hc.
    assert (existsb (N.eqb c) f = true); [|congruence].
    apply existsb_exists. exists c. split; [apply list_elem_of_In, Hin'|apply N.eqb_refl]. }
  repeat split.
  - apply Hout, Hq.
  - apply Hout, Hnl.
  - apply negb_true_iff, bool_decide_eq_false in Hlast. exact Hlast.
  - apply bool_decide_eq_true in Htrim. exact Htrim.
Qed.

(** A title with commas in it, as [tasklist /v /fo csv] prints it. *)
Lemma vlc_title_witness :
  getVlcTitle true (Some (csvLine (vlcRow "Alien, Aliens, Alien 3.mkv - VLC media player")))
  = Some (lit "Alien, Aliens, Alien 3.mkv").
Proof.
  pose proof (vlc_title_is_the_ninth_column
                (take 8 (vlcRow "Alien, Aliens, Alien 3.mkv - VLC media player")) []
                (lit "Alien, Aliens, Alien 3.mkv - VLC media player")
                eq_refl) as Hthm.
  assert (Forall plain
            (take 8 (vlcRow "Alien, Aliens, Alien 3.mkv - VLC media player")
             ++ [lit "Alien, Aliens, Alien 3.mkv - VLC media player"])) as Hplain.
  { apply plainb_sound. vm_compute. reflexivity. }
  specialize (Hthm Hplain ltac:(vm_compute; reflexivity)).
  cbv zeta in Hthm. destruct Hthm as (_ & Hget & _).
  etransitivity; [exact Hget|]. vm_compute. reflexivity.
Defined.

End VlcTitleFacts.


(* ===================================================================== *)
(** * Properties of the refresh sequence and of the file-selection poll   *)
(* ===================================================================== *)

Section PlayerFacts.
Context `{NodePath}.

Lemma player_scripts_app (a b : list PlayerEffect) :
  player_scripts (a ++ b) = player_scripts a ++ player_scripts b.
Proof. apply omap_app. Qed.

Lemma player_event_calls_app (a b : list PlayerEffect) :
  player_event_calls (a ++ b) = player_event_calls a ++ player_event_calls b.
Proof. apply omap_app. Qed.

Lemma player_of_event_calls (fx : list Effect) :
  player_scripts (EventCall <$> fx) = [] /\ player_event_calls (EventCall <$> fx) = fx.
Proof.
  induction fx as [|e fx [IH1 IH2]]; [split; reflexivity|].
  split; [exact IH1|]. cbn. f_equal. exact IH2.
Qed.

Ltac refresh_done :=
  repeat split; try reflexivity; try assumption; try (intros; discriminate);
  try (cbn; apply Forall_nil_2);
  try (intros Hne; exfalso; apply Hne; reflexivity);
  try (exfalso; match goal with Hne : _ <> [] |- _ => apply Hne; reflexivity end).

(** X24. The refresh sequence.  [executeRefreshSequence] runs the refresh
    script of the mode the bot is in, and no other script: in custom mode
    the custom refresh script (if it is set up), in scheduled mode the
    standard one (if it is set up), whatever the renaming did before.  It
    never changes the mode, the timers, the skip streak or the downloads.
    In custom mode it does not call the event API and changes no global.
    In scheduled mode the renaming of the managed event is run exactly
    when there is a current show and a voice channel: then the calls of
    the event API and the state afterwards are those of
    [updateEventNameInternal] for the title of the show, and otherwise
    the event API is not called; the names sent have at most 100 code
    units.  Every call of the event API is made before the script is
    run.  The scheduled-mode sequence always ends with its completion
    message. *)
Theorem refresh_runs_the_script_of_the_current_mode
    (cfg : Config) (currentEventName : option jsstring) (env : RefreshEnv) (b : Bot) :
  let r := executeRefreshSequence cfg currentEventName env b in
  player_scripts r.2
    = (if isCustomModeActive b
       then if rf_customScript_set env then [CustomRefreshAhkPath] else []
       else if rf_script_set env then [RefreshAhkPath] else [])
  /\ (exists e, r.1 = set_managedGuildEvent e b)
  /\ (isCustomModeActive b = true -> r.1 = b /\ player_event_calls r.2 = [])
  /\ (player_event_calls r.2 <> [] ->
        targetVoiceChannel cfg = true
        /\ exists t, currentEventName = Some t /\ t <> [])
  /\ Forall name_within_limit (player_event_calls r.2)
  /\ (isCustomModeActive b = false -> last r.2 = Some (Say SayRefreshComplete))
  /\ (isCustomModeActive b = false -> targetVoiceChannel cfg = true ->
        forall t, currentEventName = Some t -> t <> [] ->
        let rename :=
          updateEventNameInternal cfg currentEventName (rf_api env) (Some t) b in
        r.1 = rename.1.2
        /\ player_event_calls r.2 = rename.2
        /\ Say (SayUpdatingEventName t) ∈ r.2)
  /\ (exists before after,
        r.2 = before ++ after
        /\ player_scripts before = []
        /\ player_event_calls after = []).
Proof.
  intros r. subst r. unfold executeRefreshSequence.
  assert (Hsame : exists e, b = set_managedGuildEvent e b).
  { exists (managedGuildEvent b). destruct b; reflexivity. }
  destruct (isCustomModeActive b) eqn:Hmode.
  { destruct (rf_customScript_set env); cbn [negb fst snd].
    all: split; [reflexivity|]; split; [exact Hsame|].
    all: split; [intros _; split; reflexivity|].
    all: split; [intros Hne; exfalso; apply Hne; reflexivity|].
    all: split; [apply Forall_nil_2|].
    all: split; [intros Hf; discriminate Hf|].
    all: split; [intros Hf; discriminate Hf|].
    all: eexists [], _; repeat split; reflexivity. }
  set (fx2 := if negb (rf_script_set env) then [Say SayRefreshScriptMissing]
              else [Say SayExecutingRefresh; RunPlayerScript RefreshAhkPath;
                    Say (if rf_script_ok env then SayRefreshDone else SayRefreshFailed)]).
  assert (player_scripts fx2 = (if rf_script_set env then [RefreshAhkPath] else [])
          /\ player_event_calls fx2 = []) as [Hs2 He2].
  { subst fx2. destruct (rf_script_set env); split; reflexivity. }
  clearbody fx2.
  assert (Hquiet : forall note : Notice,
            (targetVoiceChannel cfg = true ->
             forall t, currentEventName = Some t -> t <> [] -> False) ->
            let r := (b, [Say SayStandardRefresh] ++ [Say note] ++ fx2
                         ++ [Say SayRefreshComplete]) in
            player_scripts r.2 = (if rf_script_set env then [RefreshAhkPath] else [])
            /\ (exists e, r.1 = set_managedGuildEvent e b)
            /\ (false = true -> r.1 = b /\ player_event_calls r.2 = [])
            /\ (player_event_calls r.2 <> [] ->
                  targetVoiceChannel cfg = true
                  /\ exists t, currentEventName = Some t /\ t <> [])
            /\ Forall name_within_limit (player_event_calls r.2)
            /\ (false = false -> last r.2 = Some (Say SayRefreshComplete))
            /\ (false = false -> targetVoiceChannel cfg = true ->
                  forall t, currentEventName = Some t -> t <> [] ->
                  let rename :=
                    updateEventNameInternal cfg currentEventName (rf_api env) (Some t) b in
                  r.1 = rename.1.2
                  /\ player_event_calls r.2 = rename.2
                  /\ Say (SayUpdatingEventName t) ∈ r.2)
            /\ (exists before after,
                  r.2 = before ++ after
                  /\ player_scripts before = []
                  /\ player_event_calls after = [])).
  { intros note Hno r. subst r. cbn [fst snd].
    assert (player_event_calls ([Say SayStandardRefresh] ++ [Say note] ++ fx2
                                ++ [Say SayRefreshComplete]) = []) as Hnone.
    { rewrite !player_event_calls_app, He2. reflexivity. }
    rewrite Hnone.
    rewrite !player_scripts_app, Hs2.
    cbn [player_scripts omap list_omap app].
    rewrite ?app_nil_r.
    split; [reflexivity|]. split; [exact Hsame|]. split; [intros; discriminate|].
    split; [intros Hne; exfalso; apply Hne; reflexivity|].
    split; [apply Forall_nil_2|].
    split; [intros _; rewrite !app_comm_cons; apply last_snoc|].
    split; [intros _ Hvc t Ht Hne; exfalso; exact (Hno Hvc t Ht Hne)|].
    exists [], ([Say SayStandardRefresh] ++ [Say note] ++ fx2 ++ [Say SayRefreshComplete]).
    split; [reflexivity|]. split; [reflexivity|exact Hnone]. }
  destruct (targetVoiceChannel cfg) eqn:Hvc.
  2:{ rewrite andb_false_r. cbn [negb]. apply Hquiet. intros Hf. discriminate Hf. }
  rewrite andb_true_r. cbn [negb].
  destruct currentEventName as [[|c t]|]; unfold default; cbn [from_option id].
  1:{ rewrite bool_decide_eq_true_2 by reflexivity. cbn [negb]. apply Hquiet.
      intros _ t0 [= <-] Hne. apply Hne. reflexivity. }
  2:{ apply Hquiet. intros _ t0 Hf. discriminate Hf. }
  rewrite bool_decide_eq_false_2 by discriminate. cbn [negb].
  pose proof (updateEventNameInternal_frame cfg (Some (c :: t)) (rf_api env)
                (Some (c :: t)) b) as Hframe.
  pose proof (updateEventNameInternal_names cfg (Some (c :: t)) (rf_api env)
                (Some (c :: t)) b) as Hnames.
  cbv zeta in Hframe. destruct Hframe as [Hb _].
  destruct (updateEventNameInternal cfg (Some (c :: t)) (rf_api env) (Some (c :: t)) b)
    as [[ok b'] fx] eqn:Hupd.
  cbn [fst snd] in *.
  destruct (player_of_event_calls fx) as [Hs1 He1].
  set (tail := if ok then [] else [Say SayEventUpdateFailed]).
  assert (player_scripts tail = [] /\ player_event_calls tail = []) as [Ht1 Ht2]
    by (subst tail; destruct ok; split; reflexivity).
  clearbody tail.
  set (before := [Say SayStandardRefresh]
                 ++ ([Say (SayUpdatingEventName (c :: t))] ++ (EventCall <$> fx) ++ tail)).
  set (after := fx2 ++ [Say SayRefreshComplete]).
  assert (player_scripts before = [] /\ player_event_calls before = fx) as [Hbs Hbe].
  { subst before. rewrite !player_scripts_app, !player_event_calls_app, Hs1, He1, Ht1, Ht2.
    cbn. rewrite app_nil_r. split; reflexivity. }
  assert (player_scripts after = (if rf_script_set env then [RefreshAhkPath] else [])
          /\ player_event_calls after = []) as [Has Hae].
  { subst after. rewrite player_scripts_app, player_event_calls_app, Hs2, He2.
    cbn. rewrite app_nil_r. split; reflexivity. }
  assert ([Say SayStandardRefresh]
          ++ ([Say (SayUpdatingEventName (c :: t))] ++ (EventCall <$> fx) ++ tail)
          ++ after = before ++ after) as ->
    by (subst before; rewrite <- !app_assoc; reflexivity).
  rewrite player_scripts_app, player_event_calls_app, Hbs, Hbe, Has, Hae, app_nil_r.
  split; [reflexivity|]. split; [exact Hb|]. split; [intros; discriminate|].
  split; [intros _; split; [reflexivity|exists (c :: t); split; [reflexivity|discriminate]]|].
  split; [exact Hnames|].
  split; [intros _; subst after; rewrite app_assoc; apply last_snoc|].
  split.
  - intros _ _ t0 [= <-] _. cbv zeta. rewrite Hupd. cbn [fst snd].
    split; [reflexivity|]. split; [reflexivity|].
    subst before. apply elem_of_app. left. right. left.
  - exists before, after. split; [reflexivity|]. split; [exact Hbs|exact Hae].
Qed.

(** A refresh on Wednesday at 13:45 with everything set up: the event
    API is called for 'South Park' first, the script runs afterwards. *)
Example refresh_order :
  (executeRefreshSequence sampleConfig (Some (lit "South Park"))
     {| rf_customScript_set := true; rf_script_set := true; rf_script_ok := true;
        rf_api := sampleApi 10 |} initialBot).2
  = [Say SayStandardRefresh; Say (SayUpdatingEventName (lit "South Park"))]
    ++ (EventCall <$> (updateEventNameInternal sampleConfig (Some (lit "South Park"))
                         (sampleApi 10) (Some (lit "South Park")) initialBot).2)
    ++ (if (updateEventNameInternal sampleConfig (Some (lit "South Park"))
              (sampleApi 10) (Some (lit "South Park")) initialBot).1.1
        then [] else [Say SayEventUpdateFailed])
    ++ [Say SayExecutingRefresh; RunPlayerScript RefreshAhkPath; Say SayRefreshDone;
        Say SayRefreshComplete]
  /\ (updateEventNameInternal sampleConfig (Some (lit "South Park"))
        (sampleApi 10) (Some (lit "South Park")) initialBot).2 <> [].
Proof. vm_compute. split; [reflexivity|discriminate]. Qed.

(** X25. Playing a selected file.  At the end of the file-selection poll
    the open-file script is run exactly when the poll passed (more yes
    than no), once, with the selected file under the download folder as
    its argument, and it is the only script run.  A failed or tied poll
    changes no global, calls neither the event API nor a script and stops
    the browse session as failed.  After a passed poll the managed event
    is renamed to the file name without its extension before the script
    runs, and that rename stays when the script fails; the browse message
    is deleted, and the session stopped as passed, exactly when the script
    ends without reporting an error.  A live session is left open only
    when the script failed and the follow-up about it could not be sent.
    Nothing but the event handle is ever changed. *)
Theorem file_is_opened_iff_the_poll_passed
    (cfg : Config) (show : option jsstring) (root selectedFileName relativeFilePath : jsstring)
    (env : BrowsePollEnv) (p : Vote.Poll) (b : Bot) :
  let r := browsePollEnd cfg show root selectedFileName relativeFilePath env p b in
  let rename :=
    updateEventNameInternal cfg show (bp_api env)
      (Some (path_basename_ext selectedFileName (path_extname selectedFileName))) b in
  player_scripts r.2
    = (if Vote.pollPassed p
       then [OpenFileAhkPath (path_join root relativeFilePath)] else [])
  /\ (Vote.pollPassed p = false ->
        r.1.2 = b /\ player_event_calls r.2 = []
        /\ r.1.1 = (if bp_collector_live env then Some SelectedPollFailed else None))
  /\ (Vote.pollPassed p = true ->
        r.1.2 = rename.1.2
        /\ player_event_calls r.2 = rename.2
        /\ (exists before after,
              r.2 = before ++ RunPlayerScript (OpenFileAhkPath
                                               (path_join root relativeFilePath)) :: after
              /\ player_event_calls before = rename.2)
        /\ (r.1.1 = Some SelectedPollPassed <->
              bp_script env = ScriptClean /\ bp_collector_live env = true)
        /\ (DeleteBrowseMessage ∈ r.2 <-> bp_script env = ScriptClean))
  /\ (bp_collector_live env = true -> r.1.1 = None ->
        Vote.pollPassed p = true /\ bp_script env <> ScriptClean
        /\ bp_failedFollowUp_ok env = false)
  /\ (exists e, r.1.2 = set_managedGuildEvent e b).
Proof.
  intros r rename. subst r rename. unfold browsePollEnd.
  assert (Hsame : exists e, b = set_managedGuildEvent e b).
  { exists (managedGuildEvent b). destruct b; reflexivity. }
  destruct (Vote.pollPassed p) eqn:Hpass.
  2:{ cbn [fst snd]. rewrite player_scripts_app, player_event_calls_app.
      assert (player_scripts (if bp_buttons_editable env then [DisablePollButtons] else [])
              = [] /\
              player_event_calls (if bp_buttons_editable env then [DisablePollButtons] else [])
              = []) as [-> ->] by (destruct (bp_buttons_editable env); split; reflexivity).
      cbn. repeat split; try reflexivity; try assumption; try (intros; discriminate);
        match goal with
        | Hl : bp_collector_live _ = true, Hn : _ = None |- _ =>
            rewrite Hl in Hn; discriminate
        end. }
  pose proof (updateEventNameInternal_frame cfg show (bp_api env)
                (Some (path_basename_ext selectedFileName (path_extname selectedFileName)))
                b) as Hframe.
  cbv zeta in Hframe. destruct Hframe as [Hb _].
  destruct (updateEventNameInternal cfg show (bp_api env)
              (Some (path_basename_ext selectedFileName (path_extname selectedFileName))) b)
    as [[ok b1] fx1].
  cbn [fst snd] in *.
  destruct (player_of_event_calls fx1) as [Hs1 He1].
  set (script := RunPlayerScript (OpenFileAhkPath (path_join root relativeFilePath))).
  set (disable := if bp_buttons_editable env then [DisablePollButtons] else []).
  assert (player_scripts disable = [] /\ player_event_calls disable = []
          /\ (DeleteBrowseMessage ∉ disable)) as (Hd1 & Hd2 & Hd3).
  { subst disable. destruct (bp_buttons_editable env); repeat split; try reflexivity.
    - intros Hin. apply list_elem_of_singleton in Hin. discriminate.
    - intros Hin. inversion Hin. }
  assert (Hdel : DeleteBrowseMessage ∉ [Say (SayPollPassedOpening (Vote.yesVotes p)
                                           (Vote.noVotes p))]
                                      ++ (EventCall <$> fx1) ++ [script]).
  { intros Hin. apply elem_of_app in Hin as [Hin|Hin].
    - apply list_elem_of_singleton in Hin. discriminate.
    - apply elem_of_app in Hin as [Hin|Hin].
      + apply list_elem_of_fmap in Hin as (e & He & _). discriminate.
      + apply list_elem_of_singleton in Hin. discriminate. }
  assert (Hshape : forall tail,
            player_scripts tail = [] -> player_event_calls tail = [] ->
            let fx := ([Say (SayPollPassedOpening (Vote.yesVotes p) (Vote.noVotes p))]
                       ++ (EventCall <$> fx1) ++ [script]) ++ tail in
            player_scripts fx = [OpenFileAhkPath (path_join root relativeFilePath)]
            /\ player_event_calls fx = fx1
            /\ exists before after,
                 fx = before ++ script :: after /\ player_event_calls before = fx1).
  { intros tail Ht1 Ht2 fx. subst fx.
    rewrite !player_scripts_app, !player_event_calls_app, Hs1, He1, Ht1, Ht2.
    cbn. rewrite !app_nil_r. repeat split.
    exists (Say (SayPollPassedOpening (Vote.yesVotes p) (Vote.noVotes p))
            :: (EventCall <$> fx1)), tail.
    split; [rewrite <- !app_assoc; reflexivity|].
    change (player_event_calls ([Say (SayPollPassedOpening (Vote.yesVotes p)
                                       (Vote.noVotes p))] ++ (EventCall <$> fx1)) = fx1).
    rewrite player_event_calls_app, He1. reflexivity. }
  assert (Hcaught : forall note : list PlayerEffect,
            player_scripts note = [] -> player_event_calls note = [] ->
            (DeleteBrowseMessage ∉ note) -> bp_script env <> ScriptClean ->
            let r := if bp_failedFollowUp_ok env
                     then (if bp_collector_live env
                           then Some SelectedPollPassedScriptFailed else None, b1,
                           (([Say (SayPollPassedOpening (Vote.yesVotes p) (Vote.noVotes p))]
                             ++ (EventCall <$> fx1) ++ [script]) ++ note)
                           ++ [Say SayScriptFailed] ++ disable)
                     else (None, b1,
                           (([Say (SayPollPassedOpening (Vote.yesVotes p) (Vote.noVotes p))]
                             ++ (EventCall <$> fx1) ++ [script]) ++ note)
                           ++ [Say SayScriptFailed]) in
            player_scripts r.2 = [OpenFileAhkPath (path_join root relativeFilePath)]
            /\ (true = false ->
                  r.1.2 = b /\ player_event_calls r.2 = []
                  /\ r.1.1 = (if bp_collector_live env then Some SelectedPollFailed else None))
            /\ (true = true ->
                  r.1.2 = b1 /\ player_event_calls r.2 = fx1
                  /\ (exists before after,
                        r.2 = before ++ script :: after
                        /\ player_event_calls before = fx1)
                  /\ (r.1.1 = Some SelectedPollPassed <->
                        bp_script env = ScriptClean /\ bp_collector_live env = true)
                  /\ (DeleteBrowseMessage ∈ r.2 <-> bp_script env = ScriptClean))
            /\ (bp_collector_live env = true -> r.1.1 = None ->
                  true = true /\ bp_script env <> ScriptClean
                  /\ bp_failedFollowUp_ok env = false)
            /\ (exists e, r.1.2 = set_managedGuildEvent e b)).
  { intros note Hn1 Hn2 Hn3 Hscript r. subst r.
    destruct (bp_failedFollowUp_ok env) eqn:Hfu; cbn [fst snd].
    - destruct (Hshape (note ++ [Say SayScriptFailed] ++ disable)) as (Hp & He & Hbefore).
      { rewrite !player_scripts_app, Hn1, Hd1. reflexivity. }
      { rewrite !player_event_calls_app, Hn2, Hd2. reflexivity. }
      cbv zeta in Hp, He, Hbefore. rewrite <- !app_assoc in *.
      split; [exact Hp|]. split; [intros; discriminate|]. split; [|split; [|exact Hb]].
      + intros _. split; [reflexivity|]. split; [exact He|]. split; [exact Hbefore|].
        split.
        * split; [destruct (bp_collector_live env); discriminate|].
          intros [Hc _]. contradiction.
        * split; [|intros Hc; contradiction]. intros Hin. exfalso.
          rewrite !app_assoc in Hin. apply elem_of_app in Hin as [Hin|Hin];
            [|contradiction].
          apply elem_of_app in Hin as [Hin|Hin];
            [|apply list_elem_of_singleton in Hin; discriminate].
          apply elem_of_app in Hin as [Hin|Hin]; [|contradiction].
          rewrite <- !app_assoc in Hin. contradiction.
      + intros Hlive Hnone. rewrite Hlive in Hnone. discriminate.
    - destruct (Hshape (note ++ [Say SayScriptFailed])) as (Hp & He & Hbefore).
      { rewrite !player_scripts_app, Hn1. reflexivity. }
      { rewrite !player_event_calls_app, Hn2. reflexivity. }
      cbv zeta in Hp, He, Hbefore. rewrite <- !app_assoc in *.
      split; [exact Hp|]. split; [intros; discriminate|]. split; [|split; [|exact Hb]].
      + intros _. split; [reflexivity|]. split; [exact He|]. split; [exact Hbefore|].
        split.
        * split; [discriminate|]. intros [Hc _]. contradiction.
        * split; [|intros Hc; contradiction]. intros Hin. exfalso.
          rewrite !app_assoc in Hin.
          apply elem_of_app in Hin as [Hin|Hin];
            [|apply list_elem_of_singleton in Hin; discriminate].
          apply elem_of_app in Hin as [Hin|Hin]; [|contradiction].
          rewrite <- !app_assoc in Hin. contradiction.
      + intros _ _. repeat split; assumption. }
  destruct (bp_script env) eqn:Hscript.
  - (* the script ends without an error *)
    destruct (Hshape ([DeleteBrowseMessage] ++ disable)) as (Hp & He & Hbefore).
    { rewrite player_scripts_app, Hd1. reflexivity. }
    { rewrite player_event_calls_app, Hd2. reflexivity. }
    cbv zeta in Hp, He, Hbefore. cbn [fst snd]. rewrite <- !app_assoc in *.
    split; [exact Hp|]. split; [intros; discriminate|]. split; [|split; [|exact Hb]].
    + intros _. split; [reflexivity|]. split; [exact He|]. split; [exact Hbefore|].
      split.
      * split.
        -- intros Hr. split; [reflexivity|].
           destruct (bp_collector_live env); [reflexivity|discriminate].
        -- intros [_ ->]. reflexivity.
      * split; [reflexivity|]. intros _.
        apply elem_of_app. right. apply elem_of_app. right.
        apply elem_of_app. right. left.
    + intros Hlive Hnone. rewrite Hlive in Hnone. discriminate.
  - (* the script reports an error *)
    destruct (bp_errorFollowUp_ok env).
    + pose proof (Hcaught [] eq_refl eq_refl ltac:(intros Hin; inversion Hin)
                    ltac:(discriminate)) as Hc.
      cbv zeta in Hc.
      destruct (Hshape ([Say SayScriptReportedError] ++ disable)) as (Hp & He & Hbefore).
      { rewrite player_scripts_app, Hd1. reflexivity. }
      { rewrite player_event_calls_app, Hd2. reflexivity. }
      cbv zeta in Hp, He, Hbefore. cbn [fst snd]. rewrite <- !app_assoc in *.
      split; [exact Hp|]. split; [intros; discriminate|]. split; [|split; [|exact Hb]].
      * intros _. split; [reflexivity|]. split; [exact He|]. split; [exact Hbefore|].
        split.
        -- split; [destruct (bp_collector_live env); discriminate|].
           intros [Hx _]. discriminate.
        -- split; [|discriminate]. intros Hin. exfalso.
           rewrite !app_assoc in Hin.
           apply elem_of_app in Hin as [Hin|Hin]; [|contradiction].
           apply elem_of_app in Hin as [Hin|Hin];
             [|apply list_elem_of_singleton in Hin; discriminate].
           rewrite <- !app_assoc in Hin. contradiction.
      * intros Hlive Hnone. rewrite Hlive in Hnone. discriminate.
    + apply (Hcaught [Say SayScriptReportedError]); try reflexivity; [|discriminate].
      intros Hin. apply list_elem_of_singleton in Hin. discriminate.
  - (* the script rejects *)
    pose proof (Hcaught [] eq_refl eq_refl ltac:(intros Hin; inversion Hin)
                  ltac:(discriminate)) as Hc.
    cbv zeta in Hc. rewrite app_nil_r in Hc. exact Hc.
Qed.

End PlayerFacts.

(* ===================================================================== *)
(** * Properties of the schedule views and of [!now]                      *)
(* ===================================================================== *)

Section ListingFacts.
Import Guide Listing.

(** The lengths of the literals of a goal, computed. *)
Ltac lit_lengths :=
  repeat match goal with
         | |- context [length (lit ?s)] =>
             let n := eval vm_compute in (length (lit s)) in
             change (length (lit s)) with n
         end.

Lemma dayName_length (d : nat) : length (dayName d) <= 9.
Proof. do 7 (destruct d as [|d]; [vm_compute; lia|]). vm_compute. lia. Qed.

Lemma truncate_length (content : jsstring) :
  (EPHEMERAL_CONTENT_LIMIT < Z.of_nat (length content))%Z ->
  Z.of_nat (length (truncate content)) = EPHEMERAL_CONTENT_LIMIT
  /\ take 1980 (truncate content) = take 1980 content.
Proof.
  unfold EPHEMERAL_CONTENT_LIMIT. intros Hlong. unfold truncate, fenceClose.
  rewrite substring_prefix by (unfold EPHEMERAL_CONTENT_LIMIT; lia).
  unfold EPHEMERAL_CONTENT_LIMIT. change (Z.to_nat (2000 - 20)) with 1980.
  split.
  - rewrite !length_app, length_take. cbn [length]. lit_lengths. lia.
  - rewrite take_app_le by (rewrite length_take; lia).
    rewrite take_take. f_equal.
Qed.

Lemma shown_fits (content : jsstring) :
  (Z.of_nat (length (if (EPHEMERAL_CONTENT_LIMIT <? Z.of_nat (length content))%Z
                     then truncate content else content)) <= 2000)%Z.
Proof.
  destruct (_ <? _)%Z eqn:Hlong.
  - apply Z.ltb_lt in Hlong. destruct (truncate_length content Hlong) as [-> _].
    unfold EPHEMERAL_CONTENT_LIMIT. lia.
  - apply Z.ltb_ge in Hlong. unfold EPHEMERAL_CONTENT_LIMIT in Hlong. lia.
Qed.

Lemma errorReply_fits : (Z.of_nat (length errorReply) <= 2000)%Z.
Proof. vm_compute. discriminate. Qed.

Lemma todayOutput_nonempty (schedule : gmap nat (gmap jsstring ShowData)) (today : nat) :
  todayOutput schedule today <> [].
Proof.
  unfold todayOutput. cbv zeta.
  assert (forall rest : jsstring,
             lit "**Schedule for " ++ dayName today ++ lit ":**" ++ [newline] ++ rest <> [])
    as Hne by (intros rest Heq; apply (f_equal length) in Heq;
               rewrite length_app in Heq; vm_compute in Heq; lia).
  repeat case_match; rewrite <- ?app_assoc; apply Hne.
Qed.

(** X26. Today's schedule always fits a Discord message.  Whatever the
    schedule holds, no message of the two views of today is longer than
    2000 code units.  A listing that fits is shown whole, in a code
    block, by both views.  One that does not fit is cut by the [!remote]
    view to exactly 2000 code units, the first 1980 of the listing
    followed by the note that it was cut; the [!schedule] view sends it
    in pieces between code fences after a heading, and when every piece
    is delivered the pieces hold the whole listing, only white space at
    the cuts being dropped. *)
Theorem today_listing_fits_the_message_limit
    (schedule : gmap nat (gmap jsstring ShowData)) (today : nat)
    (edit_ok : bool) (send_ok : nat -> bool) :
  let dayOutput := todayOutput schedule today in
  let scheduleContent := codeBlock todayTitle dayOutput in
  let fits (m : jsstring) := (Z.of_nat (length m) <= 2000)%Z in
  let remote := remoteToday schedule today edit_ok in
  let command := cmdToday (length dayOutput) schedule today edit_ok send_ok in
  Forall fits remote
  /\ (exists sent, command = Some sent /\ Forall fits sent)
  /\ (fits scheduleContent ->
        head remote = Some scheduleContent
        /\ exists rest, command = Some (scheduleContent :: rest))
  /\ (~ fits scheduleContent ->
        (exists shown, head remote = Some shown
                       /\ length shown = 2000
                       /\ take 1980 shown = take 1980 scheduleContent)
        /\ exists chunks : list jsstring,
             command = Some (todayHeading today
                             :: List.map (fun c => fenceOpen ++ c ++ fenceClose) chunks)
             /\ chunks <> []
             /\ ((forall k, send_ok k = true)
                 -> visible (concat chunks) = visible dayOutput)).
Proof.
  intros dayOutput scheduleContent fits remote command.
  assert (1 <= 2000 - Z.of_nat (length fenceOpen) - Z.of_nat (length fenceClose) - 10)%Z
    as Hmax by (vm_compute; discriminate).
  destruct (sendChunks_spec _ send_ok Hmax (length dayOutput) dayOutput 0 ltac:(lia))
    as (chunks & Hrun & Hall & Hvis & _ & Hsome & _).
  pose proof (todayOutput_nonempty schedule today) as Hne. fold dayOutput in Hne.
  assert (sendSplitMessage (length dayOutput) true dayOutput fenceOpen fenceClose send_ok
          = Some (List.map (fun c => fenceOpen ++ c ++ fenceClose) chunks)) as Hsplit.
  { unfold sendSplitMessage. cbn [negb orb].
    rewrite bool_decide_eq_false_2 by exact Hne.
    unfold DISCORD_MESSAGE_LIMIT. rewrite Hrun. reflexivity. }
  assert (Forall fits (List.map (fun c => fenceOpen ++ c ++ fenceClose) chunks)) as Hpieces.
  { change (Forall fits ((fun c => fenceOpen ++ c ++ fenceClose) <$> chunks)).
    apply Forall_fmap. eapply Forall_impl; [exact Hall|].
    intros c Hc. unfold compose, fits. cbv beta in Hc |- *. rewrite !length_app.
    change (length fenceOpen) with 4 in *. change (length fenceClose) with 4 in *. lia. }
  assert (fits (todayHeading today)) as Hheading.
  { unfold fits, todayHeading. pose proof (dayName_length today).
    rewrite !length_app. cbn [length]. lit_lengths. lia. }
  assert (fits errorReply) as Herr by exact errorReply_fits.
  assert (Forall fits remote) as Hremote.
  { subst remote. unfold remoteToday. cbv zeta. fold dayOutput. fold scheduleContent.
    apply Forall_cons_2; [apply shown_fits|].
    destruct edit_ok; [apply Forall_nil_2|].
    apply Forall_cons_2; [exact Herr|apply Forall_nil_2]. }
  split; [exact Hremote|].
  subst remote command. unfold remoteToday, cmdToday. cbv zeta.
  fold dayOutput. fold scheduleContent. rewrite Hsplit.
  unfold DISCORD_MESSAGE_LIMIT, EPHEMERAL_CONTENT_LIMIT.
  destruct (2000 <? Z.of_nat (length scheduleContent))%Z eqn:Hlong.
  - apply Z.ltb_lt in Hlong.
    split; [eexists; split; [reflexivity|apply Forall_cons_2; assumption]|].
    split; [intros Hfits; unfold fits in Hfits; lia|].
    intros _.
    destruct (truncate_length scheduleContent Hlong) as [Hlen Htake].
    unfold EPHEMERAL_CONTENT_LIMIT in Hlen.
    split.
    + exists (truncate scheduleContent). cbn [head].
      split; [reflexivity|]. split; [lia|exact Htake].
    + exists chunks. split; [reflexivity|]. split; [exact (Hsome Hne)|exact Hvis].
  - apply Z.ltb_ge in Hlong.
    split.
    { eexists; split; [reflexivity|].
      apply Forall_cons_2; [exact Hlong|].
      destruct edit_ok; [apply Forall_nil_2|].
      apply Forall_cons_2; [exact Herr|apply Forall_nil_2]. }
    split.
    + intros _. cbn [head]. split; [reflexivity|]. eexists; reflexivity.
    + intros Hnot. exfalso. apply Hnot. exact Hlong.
Qed.

(** Wednesday of [schedule.js] as both views show it: the reminder of
    13:30 has no title and is left out. *)
Example today_listing_wednesday :
  remoteToday sampleSchedule 3 true
  = [lit "```" ++ [newline] ++ lit "--- Schedule for Today ---" ++ [newline; newline]
     ++ lit "**Schedule for Wednesday:**" ++ [newline]
     ++ lit "12:30 PM - Scrubs" ++ [newline]
     ++ lit "1:00 PM - South Park" ++ [newline]
     ++ lit "2:00 PM - MOVIE: Spider-Man" ++ [newline]
     ++ [newline] ++ lit "```"]
  /\ cmdToday 200 sampleSchedule 3 true (fun _ => true)
     = Some (remoteToday sampleSchedule 3 true).
Proof. vm_compute. split; reflexivity. Qed.

Lemma weekDay_fits (schedule : gmap nat (gmap jsstring ShowData))
    (followUp_ok : nat -> bool) (d : nat) :
  Forall (fun m : jsstring => (Z.of_nat (length m) <= 2000)%Z)
         (weekDay schedule followUp_ok d).
Proof.
  unfold weekDay. case_bool_decide; [apply Forall_nil_2|].
  apply Forall_cons_2; [apply shown_fits|].
  destruct (followUp_ok d); [apply Forall_nil_2|].
  apply Forall_cons_2; [|apply Forall_nil_2].
  unfold dayError. pose proof (dayName_length d).
  rewrite !length_app. cbn [length]. lit_lengths. lia.
Qed.

Lemma weekShown_starts_with_a_fence (schedule : gmap nat (gmap jsstring ShowData))
    (d : nat) :
  take 3 (weekShown schedule d) = lit "```".
Proof.
  unfold weekShown. cbv zeta. destruct (_ <? _)%Z eqn:Hlong.
  - apply Z.ltb_lt in Hlong.
    transitivity (take 3 (take 1980 (truncate (weekChunk d (concat (weekLines schedule d)))))).
    { rewrite take_take. reflexivity. }
    destruct (truncate_length _ Hlong) as [_ ->]. rewrite take_take. reflexivity.
  - reflexivity.
Qed.

(** X27. The weekly schedule.  Both weekly views send one follow-up for
    every day, Monday first and Sunday last, that has at least one entry
    with a title, and none for the other days: after the opening edit
    the messages are, day by day, the listing of the day, followed by
    the notice that the schedule of that day could not be sent exactly
    when its follow-up was rejected, and then the closing edit (the
    button of [!remote] makes one only when nothing was found).  So a
    rejected follow-up does not stop the days after it.  A listing that
    fits is sent whole; one that does not is cut to exactly 2000 code
    units, the first 1980 of the listing followed by the note that it
    was cut, and no message is longer than 2000 code units.  The text
    that nothing was found is sent exactly when no day of the week has
    an entry with a title.  When the opening edit itself is rejected,
    only the error text follows it. *)
Theorem weekly_listing_sends_every_day_within_the_limit
    (command : bool) (schedule : gmap nat (gmap jsstring ShowData))
    (fetching_ok : bool) (followUp_ok : nat -> bool) :
  let listed := List.filter (fun d => negb (bool_decide (weekLines schedule d = [])))
                            dayOrder in
  let sent := weekView command schedule fetching_ok followUp_ok in
  let delivered := weekView command schedule true followUp_ok in
  let closing := if bool_decide (listed = []) then [noWeekEntries]
                 else if command then [weekSent] else [] in
  Forall (fun m : jsstring => (Z.of_nat (length m) <= 2000)%Z) sent
  /\ sublist (weekShown schedule <$> listed) delivered
  /\ ((forall d, followUp_ok d = true) ->
        delivered = [fetchingWeek] ++ (weekShown schedule <$> listed) ++ closing)
  /\ (noWeekEntries ∈ delivered <-> listed = [])
  /\ delivered
     = [fetchingWeek]
       ++ concat ((fun d => weekShown schedule d
                            :: (if followUp_ok d then [] else [dayError d])) <$> listed)
       ++ closing
  /\ (forall d,
        let scheduleChunk := weekChunk d (concat (weekLines schedule d)) in
        ((Z.of_nat (length scheduleChunk) <= 2000)%Z ->
           weekShown schedule d = scheduleChunk)
        /\ ((2000 < Z.of_nat (length scheduleChunk))%Z ->
              length (weekShown schedule d) = 2000
              /\ take 1980 (weekShown schedule d) = take 1980 scheduleChunk))
  /\ (fetching_ok = false -> sent = [fetchingWeek; errorReply]).
Proof.
  intros listed sent delivered closing.
  assert (forall days,
             sublist (weekShown schedule
                        <$> List.filter (fun d => negb (bool_decide (weekLines schedule d = [])))
                                        days)
                     (concat (weekDay schedule followUp_ok <$> days))) as Hsub.
  { induction days as [|d days IH]; [constructor|].
    cbn [List.filter fmap list_fmap concat]. unfold weekDay at 1.
    case_bool_decide; cbn [negb]; [exact IH|].
    cbn [fmap list_fmap app]. apply sublist_skip.
    destruct (followUp_ok d); cbn [app]; [exact IH|].
    apply sublist_cons. exact IH. }
  assert (forall days, (forall d, followUp_ok d = true) ->
             concat (weekDay schedule followUp_ok <$> days)
             = weekShown schedule
                 <$> List.filter (fun d => negb (bool_decide (weekLines schedule d = [])))
                                 days) as Hall.
  { intros days Hok. induction days as [|d days IH]; [reflexivity|].
    cbn [List.filter fmap list_fmap concat]. unfold weekDay at 1.
    case_bool_decide; cbn [negb]; [exact IH|].
    rewrite (Hok d). cbn [fmap list_fmap app]. f_equal. exact IH. }
  assert (forall days m, m ∈ concat (weekDay schedule followUp_ok <$> days)
                         -> m <> noWeekEntries) as Hother.
  { intros days m Hin Heq. subst m.
    apply list_elem_of_In, in_concat in Hin as (l & Hl & Hin).
    apply list_elem_of_In, list_elem_of_fmap in Hl as (d & -> & _).
    apply list_elem_of_In in Hin.
    unfold weekDay in Hin. case_bool_decide; [inversion Hin|].
    apply elem_of_cons in Hin as [Hin|Hin].
    - pose proof (weekShown_starts_with_a_fence schedule d) as Hf.
      rewrite <- Hin in Hf. vm_compute in Hf. discriminate.
    - destruct (followUp_ok d); [inversion Hin|].
      apply list_elem_of_singleton in Hin.
      apply (f_equal head) in Hin. vm_compute in Hin. discriminate. }
  assert (forall l : list nat, (length l =? 0)%nat = bool_decide (l = [])) as Hcount.
  { intros [|x l]; [reflexivity|]. symmetry. apply bool_decide_eq_false_2.
    discriminate. }
  assert (forall days,
             concat (weekDay schedule followUp_ok <$> days)
             = concat ((fun d => weekShown schedule d
                                 :: (if followUp_ok d then [] else [dayError d]))
                         <$> List.filter
                               (fun d => negb (bool_decide (weekLines schedule d = [])))
                               days)) as Hdays.
  { induction days as [|d days IH]; [reflexivity|].
    cbn [List.filter fmap list_fmap concat]. unfold weekDay at 1.
    case_bool_decide; cbn [negb]; [exact IH|].
    cbn [fmap list_fmap concat]. rewrite IH. reflexivity. }
  assert (delivered = [fetchingWeek] ++ concat (weekDay schedule followUp_ok <$> dayOrder)
                      ++ closing) as Hdelivered.
  { subst delivered closing. unfold weekView. cbn [negb]. cbv zeta. fold listed.
    rewrite (Hcount listed). reflexivity. }
  split; [|split; [|split; [|split; [|split; [|split]]]]].
  - subst sent. unfold weekView. destruct fetching_ok; cbn [negb].
    + cbv zeta. rewrite !Forall_app. split; [|split].
      * apply Forall_cons_2; [vm_compute; discriminate|apply Forall_nil_2].
      * apply Forall_concat. apply Forall_fmap, Forall_forall. intros d _.
        unfold compose. apply weekDay_fits.
      * repeat case_match; repeat constructor; vm_compute; discriminate.
    + repeat constructor; vm_compute; discriminate.
  - rewrite Hdelivered. apply sublist_inserts_l. apply sublist_inserts_r. apply Hsub.
  - intros Hok. rewrite Hdelivered. rewrite (Hall dayOrder Hok). reflexivity.
  - rewrite Hdelivered. unfold closing. rewrite !elem_of_app. split.
    + intros [Hin|[Hin|Hin]].
      * apply list_elem_of_singleton in Hin. vm_compute in Hin. discriminate.
      * exfalso. exact (Hother _ _ Hin eq_refl).
      * case_bool_decide as Hl; [exact Hl|].
        destruct command; [|inversion Hin].
        apply list_elem_of_singleton in Hin. vm_compute in Hin. discriminate.
    + intros Hl. right. right. rewrite bool_decide_eq_true_2 by exact Hl.
      apply list_elem_of_singleton. reflexivity.
  - rewrite Hdelivered, (Hdays dayOrder). reflexivity.
  - intros d scheduleChunk. unfold weekShown. cbv zeta. fold scheduleChunk.
    unfold EPHEMERAL_CONTENT_LIMIT. split; intros Hlen.
    + rewrite (proj2 (Z.ltb_ge _ _)) by lia. reflexivity.
    + rewrite (proj2 (Z.ltb_lt _ _)) by lia.
      destruct (truncate_length scheduleChunk Hlen) as [Hcut Htake].
      unfold EPHEMERAL_CONTENT_LIMIT in Hcut. split; [lia|exact Htake].
  - intros ->. reflexivity.
Qed.

(** The sample schedule has entries on Wednesday only. *)
Example weekly_listing_sample :
  weekView true sampleSchedule true (fun _ => true)
  = [fetchingWeek;
     lit "```" ++ [newline] ++ lit "**Wednesday**" ++ [newline]
     ++ lit "12:30 PM - Scrubs" ++ [newline]
     ++ lit "1:00 PM - South Park" ++ [newline]
     ++ lit "2:00 PM - MOVIE: Spider-Man" ++ [newline]
     ++ [newline] ++ lit "```";
     weekSent].
Proof. vm_compute. reflexivity. Qed.

(** The same week when Discord rejects the follow-up of Wednesday: the
    notice for that day follows its listing and the closing edit is
    still made. *)
Example weekly_listing_rejected :
  weekView true sampleSchedule true (fun _ => false)
  = [fetchingWeek; weekShown sampleSchedule 3;
     [10060]%N ++ lit " Error sending schedule for Wednesday.";
     weekSent].
Proof. vm_compute. reflexivity. Qed.

End ListingFacts.

(* ===================================================================== *)
(** * Properties of [!now] and [!clear]                                   *)
(* ===================================================================== *)

Section NowFacts.
Context `{NodePath}.
Import Guide Listing.

Lemma posts_inr (fx : list Effect) : posts (inr <$> fx) = [].
Proof. exact (proj1 (posts_calls_inr fx)). Qed.

Lemma calls_inr (fx : list Effect) : calls (inr <$> fx) = fx.
Proof. exact (proj2 (posts_calls_inr fx)). Qed.

Lemma posts_cons_inl (m : jsstring) (l : list (jsstring + Effect)) :
  posts (inl m :: l) = m :: posts l.
Proof. reflexivity. Qed.

Lemma calls_cons_inl (m : jsstring) (l : list (jsstring + Effect)) :
  calls (inl m :: l) = calls l.
Proof. reflexivity. Qed.

(** X28. The command [!now].  Every run sends exactly one reply, writes
    no global but the handle of the managed event, and calls nothing but
    the scheduled-event API and, in custom mode only, the query of VLC's
    window title.  In custom mode the schedule plays no part.  In
    scheduled mode, with no current show the reply says that nothing is
    scheduled and nothing else happens; with a current show the reply is
    the guide message of that entry, and when its title is not empty
    once asterisks are removed, the command does exactly what the cron
    job of that entry does: the same message, the same calls of the
    event API and the same state afterwards. *)
Theorem now_command_repeats_the_cron_job (cfg : Config)
    (schedule : gmap nat (gmap jsstring ShowData)) (dayOfWeek : nat) (hours minutes : N)
    (vlcTitleRaw : option jsstring) (currentShow : option jsstring) (api : EventApi)
    (b : Bot) :
  let r := cmdNow cfg schedule dayOfWeek hours minutes vlcTitleRaw currentShow api b in
  (exists e, r.1 = set_managedGuildEvent e b)
  /\ length (posts r.2) = 1
  /\ Forall (fun c => is_event_call c = true
                      \/ (c = QueryVlcTitle /\ isCustomModeActive b = true)) (calls r.2)
  /\ (isCustomModeActive b = true ->
        forall schedule' dayOfWeek' hours' minutes',
          cmdNow cfg schedule' dayOfWeek' hours' minutes' vlcTitleRaw currentShow api b = r)
  /\ (isCustomModeActive b = false ->
        match getCurrentShowData schedule dayOfWeek hours minutes with
        | Some showData =>
            posts r.2 = [formatTvGuideMessage (Some showData)]
            /\ (js_trim (stripAsterisks (default [] (now showData))) <> [] ->
                r = cronJob cfg true currentShow api showData b)
        | None => r = (b, [inl nothingScheduled])
        end).
Proof.
  intros r. subst r. unfold cmdNow.
  destruct (isCustomModeActive b) eqn:Hmode.
  - (* custom mode *)
    assert (forall n,
               let u := updateEventNameInternal cfg currentShow api n b in
               forall reply : jsstring,
               (exists e, u.1.2 = set_managedGuildEvent e b)
               /\ length (posts ([inr QueryVlcTitle; inl reply] ++ (inr <$> u.2))) = 1
               /\ Forall (fun c => is_event_call c = true \/ (c = QueryVlcTitle /\ true = true))
                         (calls ([inr QueryVlcTitle; inl reply] ++ (inr <$> u.2)))) as Hupd.
    { intros n u reply.
      destruct (updateEventNameInternal_frame cfg currentShow api n b) as [He Hfx].
      fold u in He, Hfx. split; [exact He|].
      unfold posts, calls. rewrite !omap_app. fold (posts (inr <$> u.2)).
      fold (calls (inr <$> u.2)). rewrite posts_inr, calls_inr. cbn [omap app length].
      split; [reflexivity|].
      apply Forall_cons_2; [right; split; reflexivity|].
      eapply Forall_impl; [exact Hfx|]. intros c Hc. left. exact Hc. }
    split; [|split; [|split; [|split]]].
    4: { intros _ schedule' dayOfWeek' hours' minutes'. reflexivity. }
    4: { intros Hf. discriminate Hf. }
    all: destruct (truthy vlcTitleRaw);
      try match goal with
          | |- context [updateEventNameInternal ?c ?s ?a ?n ?x] =>
              destruct (Hupd n (nowPlayingCustom
                (path_basename_ext (default [] vlcTitleRaw)
                   (path_extname (default [] vlcTitleRaw))))) as (He & Hp & Hc);
              destruct (Hupd n noVlcTitle) as (He' & Hp' & Hc');
              destruct (updateEventNameInternal c s a n x) as [[ok b'] fx]
          end.
    all: cbn [fst snd] in *; try assumption.
    all: repeat case_match; simplify_eq; cbn [fst snd] in *; try assumption.
    all: try (exists (managedGuildEvent b); symmetry; apply set_managedGuildEvent_same).
    all: try reflexivity.
    all: unfold calls; cbn [omap].
    all: apply Forall_cons_2; [right; split; reflexivity|apply Forall_nil_2].
  - (* scheduled mode *)
    destruct (getCurrentShowData schedule dayOfWeek hours minutes) as [showData|] eqn:Hshow.
    + pose proof (getCurrentShowData_standard _ _ _ _ _ Hshow) as Hstd.
      unfold standard in Hstd. apply andb_prop in Hstd as [Hnow Hnext].
      rewrite Hnow.
      destruct (updateEventNameInternal_frame cfg currentShow api
                  (Some (js_trim (stripAsterisks (default [] (now showData))))) b)
        as [He Hfx].
      destruct (updateEventNameInternal cfg currentShow api
                  (Some (js_trim (stripAsterisks (default [] (now showData))))) b)
        as [[ok b'] fx] eqn:Hupd.
      cbn [fst snd] in *.
      split; [exact He|]. cbn [app].
      rewrite !posts_cons_inl, !calls_cons_inl, !posts_inr, !calls_inr.
      split; [reflexivity|].
      split; [eapply Forall_impl; [exact Hfx|]; intros c Hc; left; exact Hc|].
      split; [intros Hf; discriminate Hf|].
      intros _. split.
      * reflexivity.
      * intros Hname. unfold cronJob. rewrite Hmode, Hnow, Hnext.
        rewrite bool_decide_eq_false_2 by exact Hname. cbn [negb].
        destruct (targetVoiceChannel cfg) eqn:Hvc; cbn [andb].
        -- rewrite Hupd. reflexivity.
        -- unfold updateEventNameInternal in Hupd. rewrite Hvc in Hupd.
           cbn [negb] in Hupd. injection Hupd as _ <- <-. reflexivity.
    + cbn [fst snd]. split; [exists (managedGuildEvent b); symmetry; apply set_managedGuildEvent_same|].
      split; [reflexivity|]. split; [apply Forall_nil_2|].
      split; [intros Hf; discriminate Hf|]. intros _. reflexivity.
Qed.

End NowFacts.

Section NowRuns.
Import Guide Listing.

(** Wednesday at 13:45: the reply of [!now] is the post of the cron job
    of 13:00. *)
Example now_command_wednesday :
  posts (cmdNow (H := samplePath) sampleConfig sampleSchedule 3 13 45 None None
           (sampleApi 10) initialBot).2
  = [lit "Now Playing: **South Park**" ++ [newline] ++ lit "Up Next: **Invader Zim**"].
Proof. vm_compute. reflexivity. Qed.

End NowRuns.

Section ClearFacts.

Lemma messagesToDelete_spec (env : ClearEnv) (fetched : list ChannelMessage)
    (m : ChannelMessage) :
  m ∈ messagesToDelete env fetched <->
  exists k, fetched !! k = Some m
            /\ cm_by_bot m = true
            /\ (cl_now env - 43200000 < cm_createdTimestamp m)%Z
            /\ (cl_clock env k - cm_createdTimestamp m < FOURTEEN_DAYS_MS)%Z.
Proof.
  unfold messagesToDelete. cbv zeta. rewrite list_elem_of_omap. split.
  - intros (o & Hin & Ho). cbn in Ho. subst o.
    apply elem_of_lookup_imap in Hin as (k & msg & Heq & Hk).
    destruct (cm_by_bot msg) eqn:Hb; [|discriminate].
    destruct (_ <? cm_createdTimestamp msg)%Z eqn:Hr; [|discriminate].
    destruct (_ <? FOURTEEN_DAYS_MS)%Z eqn:Hf; [|discriminate].
    cbn in Heq. injection Heq as ->.
    apply Z.ltb_lt in Hr, Hf. exists k. repeat split; try assumption; lia.
  - intros (k & Hk & Hb & Hr & Hf). exists (Some m). split; [|reflexivity].
    apply elem_of_lookup_imap. exists k, m. split; [|exact Hk].
    rewrite Hb. cbn [andb].
    rewrite (proj2 (Z.ltb_lt _ _)) by lia.
    rewrite (proj2 (Z.ltb_lt _ _) Hf). reflexivity.
Qed.

(** A command that is turned down: nothing is read, nothing deleted. *)
Ltac refused :=
  split; [intros m Hin; inversion Hin|];
  split; [intros Hin;
          repeat (apply elem_of_cons in Hin as [Hin|Hin]; [discriminate Hin|]);
          inversion Hin|];
  split; [cbn; lia|].

(** X29. What [!clear] deletes.  Every message the command asks Discord
    to delete was written by the bot itself less than twelve hours
    before and was among the messages fetched from the channel; the
    request is made for an administrator only, and only when the bot may
    manage messages and read the history of the channel, otherwise the
    channel is not even read.  There is at most one deletion call.  The
    other way round, as long as the clock does not run ahead by
    thirteen and a half days while the messages are filtered, every
    fetched message of the bot that is younger than twelve hours is
    deleted: the test against the fourteen days of bulk deletion
    removes nothing. *)
Theorem clear_deletes_only_the_bots_recent_messages (env : ClearEnv) :
  let fx := cmdClear env in
  let recent (m : ChannelMessage) :=
    cm_by_bot m = true /\ (cl_now env - 43200000 < cm_createdTimestamp m)%Z in
  let allowed :=
    cl_userIsAdmin env = true /\ cl_manageMessages env = true
    /\ cl_readHistory env = true in
  (forall m, m ∈ deletions fx ->
     allowed /\ recent m
     /\ exists fetched, cl_fetched env = Some fetched /\ m ∈ fetched)
  /\ (FetchMessages ∈ fx -> allowed)
  /\ length (List.filter is_deletion fx) <= 1
  /\ (forall fetched,
        allowed -> cl_reply_ok env = true -> cl_fetched env = Some fetched ->
        (forall k, (cl_clock env k - cl_now env < FOURTEEN_DAYS_MS - 43200000)%Z) ->
        forall m, m ∈ fetched -> recent m -> m ∈ deletions fx).
Proof.
  intros fx recent allowed. subst fx allowed. unfold cmdClear.
  destruct (cl_userIsAdmin env) eqn:Hadmin; cbn [negb];
    [|refused; intros fetched (Hf & _); discriminate Hf].
  destruct (cl_manageMessages env) eqn:Hmanage; cbn [negb];
    [|refused; intros fetched (_ & Hf & _); discriminate Hf].
  destruct (cl_readHistory env) eqn:Hread; cbn [negb];
    [|refused; intros fetched (_ & _ & Hf); discriminate Hf].
  assert (true = true /\ true = true /\ true = true) as Hallowed
    by (repeat split; reflexivity).
  destruct (cl_reply_ok env) eqn:Hreply; cbn [negb];
    [|refused; intros fetched _ Hf; discriminate Hf].
  destruct (cl_fetched env) as [fetched|] eqn:Hfetched.
  2: { split; [intros m Hin; inversion Hin|].
       split; [intros _; exact Hallowed|].
       split; [cbn; lia|]. intros fetched _ _ Hf. discriminate Hf. }
  assert (forall m, m ∈ messagesToDelete env fetched ->
                    (true = true /\ true = true /\ true = true) /\ recent m
                    /\ exists fetched0, Some fetched = Some fetched0 /\ m ∈ fetched0)
    as Hsound.
  { intros m Hin. apply messagesToDelete_spec in Hin as (k & Hk & Hb & Hr & _).
    split; [exact Hallowed|]. split; [split; assumption|].
    exists fetched. split; [reflexivity|]. eapply list_elem_of_lookup_2. exact Hk. }
  assert (forall m, m ∈ fetched -> recent m ->
                    (forall k, (cl_clock env k - cl_now env < FOURTEEN_DAYS_MS - 43200000)%Z) ->
                    m ∈ messagesToDelete env fetched) as Hcomplete.
  { intros m Hin [Hb Hr] Hclock. apply list_elem_of_lookup in Hin as [k Hk].
    apply messagesToDelete_spec. exists k. repeat split; try assumption.
    specialize (Hclock k). lia. }
  destruct (messagesToDelete env fetched) as [|m1 [|m2 ms]] eqn:Hdel.
  - split; [intros m Hin; inversion Hin|].
    split; [intros _; exact Hallowed|].
    split; [cbn; lia|].
    intros fetched0 _ _ [= <-] Hclock m Hin Hrec.
    pose proof (Hcomplete m Hin Hrec Hclock) as Hm. inversion Hm.
  - split; [intros m Hin; apply (Hsound m); exact Hin|].
    split; [intros _; exact Hallowed|].
    split; [cbn; lia|].
    intros fetched0 _ _ [= <-] Hclock m Hin Hrec.
    exact (Hcomplete m Hin Hrec Hclock).
  - split; [intros m Hin; apply (Hsound m); cbn in Hin; rewrite app_nil_r in Hin;
            exact Hin|].
    split; [intros _; exact Hallowed|].
    split; [cbn; lia|].
    intros fetched0 _ _ [= <-] Hclock m Hin Hrec.
    pose proof (Hcomplete m Hin Hrec Hclock) as Hm.
    cbn. rewrite app_nil_r. exact Hm.
Qed.

(** Of three fetched messages only the recent one of the bot is deleted. *)
Example clear_run :
  let mine := {| cm_id := 1; cm_by_bot := true; cm_createdTimestamp := 90000000%Z |} in
  let theirs := {| cm_id := 2; cm_by_bot := false; cm_createdTimestamp := 90000000%Z |} in
  let old := {| cm_id := 3; cm_by_bot := true; cm_createdTimestamp := 1000%Z |} in
  cmdClear {| cl_userIsAdmin := true; cl_manageMessages := true; cl_readHistory := true;
              cl_reply_ok := true; cl_now := 100000000%Z;
              cl_clock := fun _ => 100000000%Z;
              cl_fetched := Some [mine; theirs; old]; cl_bulkDeleted := None |}
  = [ClearSay ClearFetching; FetchMessages; DeleteMessage mine; ClearSay ClearDeletedOne].
Proof. vm_compute. reflexivity. Qed.

End ClearFacts.
